(** * glsl-react: uniform diffing, texture units, render loop and resize

    A shallow embedding of the resource-synchronisation core of the
    [glsl-react] component and the properties its specification states
    about it.

    Sources embedded here:
    - [src/utils/uniforms.ts]   ([setUniform], [uniformsEqual],
      [getChangedUniforms], [cloneUniformValue], [cloneUniforms]);
    - [src/utils/textures.ts]   ([createTexture], [updateTexture],
      [deleteTexture], [isTextureSourceReady]);
    - [src/hooks/useTextures.ts] ([getAvailableUnit], the reconciliation
      effect and the unmount cleanup);
    - [src/components/ShaderCanvas.tsx] ([handleResize], [renderLoop],
      the effects on [uniforms] and on the mouse position);
    - [src/utils/shaders.ts] ([compileShader], [createProgram],
      [createQuadBuffer], [getUniformLocations]);
    - [src/hooks/useWebGL.ts] (the set-up effect and its cleanup);
    - [src/hooks/useMousePosition.ts] ([handleMouseMove]);
    - [src/hooks/useShaderTelemetry.tsx] ([onFrameRender]);
    - [src/utils/colors.ts] ([hexToRgb], [rgbToHex], [brighten],
      [darken]).

    Conventions.
    - JavaScript numbers are IEEE-754 binary64 values ([spec_float],
      precision 53, [emax] 1024), so that [===] on numbers is IEEE
      equality: NaN is unequal to itself, the two zeros are equal.
    - Objects with string keys and [Map]s are association lists in
      enumeration order; a [Set<string>] is the list of its members in
      insertion order.  No object has an own key named [__proto__]: an
      assignment [o[key] = v] with that key sets the prototype of [o]
      and adds no key, which an association list does not show.
    - Memory is not bounded: [new Float32Array(n)] gives [n] zeros for
      every valid length [n], where an engine throws a [RangeError]
      beyond the length it can allocate.
    - A canvas keeps of a number assigned to [width] or [height] what an
      [unsigned long] attribute limited to 0..2147483647 keeps
      ([canvasDimension]).
    - The WebGL context records the calls it receives in a trace; its
      entry points do not throw, and [createTexture] returns [null] on a
      lost context.  Exceptions of the code are values of a result type,
      [try]/[catch] is a match on it.
    - The refs of the hooks and of the component are the fields of one
      state record; an effect or a callback is a function on that state,
      and the variables its closure captured are its arguments.  When
      React runs an effect is outside the embedding. *)

From Stdlib Require Import ZArith List String Bool Arith Lia SpecFloat.
Import ListNotations.

Set Implicit Arguments.

(* ================================================================= *)
(** * Part I.  The embedding                                          *)
(* ================================================================= *)

(** ** JavaScript numbers *)

Definition number := spec_float.

Definition prec : Z := 53.
Definition emax : Z := 1024.

Definition NaN : number := S754_nan.

(** [x === y] on numbers. *)
Definition strictEq (x y : number) : bool := SFeqb x y.

(** [x * y] and [x - y] on numbers. *)
Definition mul (x y : number) : number := SFmul prec emax x y.
Definition sub (x y : number) : number := SFsub prec emax x y.

(** The number denoted by an integer literal. *)
Definition ofZ (z : Z) : number := binary_normalize prec emax z 0 false.

(** [Math.floor]: the largest integral number below or equal to the
    argument; NaN, the infinities and the zeros are returned unchanged. *)
Definition Math_floor (x : number) : number :=
  match x with
  | S754_finite s m e =>
      if (0 <=? e)%Z then x
      else binary_normalize prec emax
             (Z.div (cond_Zopp s (Zpos m)) (2 ^ (- e))) 0 s
  | _ => x
  end.

Definition isNaN (x : number) : bool :=
  match x with S754_nan => true | _ => false end.

(** A value read from an array by index: [None] is [undefined]. *)
Definition strictEqIdx (v : number) (w : option number) : bool :=
  match w with
  | Some y => strictEq v y
  | None => false
  end.

(** [Array.prototype.every] with the [(value, index)] callback. *)
Fixpoint everyFrom (A : Type) (f : A -> nat -> bool) (i : nat) (l : list A) : bool :=
  match l with
  | [] => true
  | v :: r => f v i && everyFrom f (S i) r
  end.

Definition every (A : Type) (f : A -> nat -> bool) (l : list A) : bool :=
  everyFrom f 0 l.

(** ** Objects keyed by strings, [Map<string, V>] and [Set<string>] *)

Section StringMaps.
Variable V : Type.

Definition JSMap := list (string * V).

Fixpoint Map_get (m : JSMap) (key : string) : option V :=
  match m with
  | [] => None
  | (k, v) :: r => if String.eqb key k then Some v else Map_get r key
  end.

Definition Map_has (m : JSMap) (key : string) : bool :=
  match Map_get m key with Some _ => true | None => false end.

(** [m.set(key, v)] and [o[key] = v]: an existing key keeps its place,
    a new key is appended. *)
Fixpoint Map_set (m : JSMap) (key : string) (v : V) : JSMap :=
  match m with
  | [] => [(key, v)]
  | (k, w) :: r =>
      if String.eqb key k then (k, v) :: r else (k, w) :: Map_set r key v
  end.

Fixpoint Map_delete (m : JSMap) (key : string) : JSMap :=
  match m with
  | [] => []
  | (k, w) :: r =>
      if String.eqb key k then r else (k, w) :: Map_delete r key
  end.

Definition Map_keys (m : JSMap) : list string := map fst m.
Definition Map_values (m : JSMap) : list V := map snd m.
End StringMaps.

Definition StrSet := list string.

Definition Set_has (s : StrSet) (x : string) : bool :=
  existsb (String.eqb x) s.

Definition Set_add (s : StrSet) (x : string) : StrSet :=
  if Set_has s x then s else s ++ [x].

(** [new Set(iterable)]. *)
Definition Set_of (l : list string) : StrSet :=
  fold_left Set_add l [].

(** ** [src/types/index.ts] *)

Inductive NumericType :=
  | T_float | T_vec2 | T_vec3 | T_vec4
  | T_int | T_ivec2 | T_ivec3 | T_ivec4
  | T_mat3 | T_mat4.

Inductive UniformType :=
  | T_numeric (t : NumericType)
  | T_texture.

Inductive TextureWrap := REPEAT | CLAMP_TO_EDGE | MIRRORED_REPEAT.

Inductive TextureFilter :=
  | NEAREST | LINEAR
  | NEAREST_MIPMAP_NEAREST | LINEAR_MIPMAP_NEAREST
  | NEAREST_MIPMAP_LINEAR | LINEAR_MIPMAP_LINEAR.

(** The WebGL constants the two enums stand for. *)
Definition TextureWrap_code (w : TextureWrap) : Z :=
  match w with
  | REPEAT => 10497 | CLAMP_TO_EDGE => 33071 | MIRRORED_REPEAT => 33648
  end.

Definition TextureFilter_code (f : TextureFilter) : Z :=
  match f with
  | NEAREST => 9728 | LINEAR => 9729
  | NEAREST_MIPMAP_NEAREST => 9984 | LINEAR_MIPMAP_NEAREST => 9985
  | NEAREST_MIPMAP_LINEAR => 9986 | LINEAR_MIPMAP_LINEAR => 9987
  end.

(** Every field is optional: [None] is an absent (or [undefined]) field. *)
Record TextureOptions := {
  wrapS : option TextureWrap;
  wrapT : option TextureWrap;
  minFilter : option TextureFilter;
  magFilter : option TextureFilter;
  flipY : option bool
}.

(** A texture source is a reference to a DOM object; the reference is the
    class of the object together with an identity. *)
Inductive SourceKind :=
  | HTMLImageElement | HTMLCanvasElement | HTMLVideoElement | ImageBitmap.

Record Source := { src_kind : SourceKind; src_id : nat }.

(** [number | number[] | Float32Array] *)
Inductive NumericValue :=
  | Num (x : number)
  | Arr (l : list number)
  | F32 (l : list number).

Inductive UniformValue :=
  | NumericUniform (type : NumericType) (value : NumericValue)
  | TextureUniform (value : Source) (options : option TextureOptions).

Definition typeOf (u : UniformValue) : UniformType :=
  match u with
  | NumericUniform t _ => T_numeric t
  | TextureUniform _ _ => T_texture
  end.

Definition Uniforms := JSMap UniformValue.

(** Decidable equalities standing for [===] on strings of the type tags,
    on enum members, on booleans and on object references. *)
Definition NumericType_eq_dec (a b : NumericType) : {a = b} + {a <> b}.
Proof. decide equality. Defined.

Definition UniformType_eq_dec (a b : UniformType) : {a = b} + {a <> b}.
Proof. decide equality. apply NumericType_eq_dec. Defined.

Definition TextureWrap_eq_dec (a b : TextureWrap) : {a = b} + {a <> b}.
Proof. decide equality. Defined.

Definition TextureFilter_eq_dec (a b : TextureFilter) : {a = b} + {a <> b}.
Proof. decide equality. Defined.

Definition SourceKind_eq_dec (a b : SourceKind) : {a = b} + {a <> b}.
Proof. decide equality. Defined.

Definition Source_eq_dec (a b : Source) : {a = b} + {a <> b}.
Proof. decide equality. apply Nat.eq_dec. apply SourceKind_eq_dec. Defined.

Definition opt_eqb (A : Type) (dec : forall a b : A, {a = b} + {a <> b})
    (x y : option A) : bool :=
  match x, y with
  | None, None => true
  | Some a, Some b => if dec a b then true else false
  | _, _ => false
  end.

(** ** [src/utils/uniforms.ts]: the diff engine *)

Definition optionsFieldsEqual (aOpts bOpts : TextureOptions) : bool :=
  opt_eqb TextureWrap_eq_dec (wrapS aOpts) (wrapS bOpts) &&
  opt_eqb TextureWrap_eq_dec (wrapT aOpts) (wrapT bOpts) &&
  opt_eqb TextureFilter_eq_dec (minFilter aOpts) (minFilter bOpts) &&
  opt_eqb TextureFilter_eq_dec (magFilter aOpts) (magFilter bOpts) &&
  opt_eqb Bool.bool_dec (flipY aOpts) (flipY bOpts).

(** [uniformsEqual].  Option objects are held by value: two references to
    one object have equal fields, so the early [aOpts === bOpts] exit is
    the case of two absent option objects. *)
Definition uniformsEqual (a b : UniformValue) : bool :=
  if UniformType_eq_dec (typeOf a) (typeOf b) then
    match a, b with
    | TextureUniform aSrc aOpts, TextureUniform bSrc bOpts =>
        if Source_eq_dec aSrc bSrc then
          match aOpts, bOpts with
          | None, None => true
          | None, Some _ | Some _, None => false
          | Some ao, Some bo => optionsFieldsEqual ao bo
          end
        else false
    | NumericUniform _ aVal, NumericUniform _ bVal =>
        match aVal, bVal with
        | Num x, Num y => strictEq x y
        | Arr x, Arr y =>
            if negb (List.length x =? List.length y) then false
            else every (fun v i => strictEqIdx v (nth_error y i)) x
        | F32 x, F32 y =>
            if negb (List.length x =? List.length y) then false
            else every (fun v i => strictEqIdx v (nth_error y i)) x
        | _, _ => false
        end
    | _, _ => false
    end
  else false.

(** [getChangedUniforms].  The loop reads [current[key]] for keys it
    enumerates from [current], so the lookup always succeeds. *)
Definition getChangedUniforms (current : Uniforms) (previous : option Uniforms)
    : StrSet :=
  match previous with
  | None => Set_of (Map_keys current)
  | Some previous =>
      fold_left
        (fun changed key =>
           match Map_get current key with
           | None => changed
           | Some c =>
               match Map_get previous key with
               | None => Set_add changed key
               | Some p =>
                   if negb (uniformsEqual c p) then Set_add changed key
                   else changed
               end
           end)
        (Map_keys current) []
  end.

Definition cloneUniformValue (uniform : UniformValue) : UniformValue :=
  match uniform with
  | TextureUniform value options =>
      TextureUniform value
        (match options with
         | Some o =>
             Some {| wrapS := wrapS o; wrapT := wrapT o;
                     minFilter := minFilter o; magFilter := magFilter o;
                     flipY := flipY o |}
         | None => None
         end)
  | NumericUniform type value =>
      let clonedValue :=
        match value with
        | Num x => Num x
        | F32 l => F32 (map (fun v => v) l)
        | Arr l => Arr (map (fun v => v) l)
        end in
      NumericUniform type clonedValue
  end.

(** [cloneUniforms]; [cloned[key] = ...] is [Map_set], which holds for
    every key but [__proto__]. *)
Definition cloneUniforms (uniforms : Uniforms) : Uniforms :=
  fold_left
    (fun cloned key =>
       match Map_get uniforms key with
       | Some u => Map_set cloned key (cloneUniformValue u)
       | None => cloned
       end)
    (Map_keys uniforms) [].

(** ** Exceptions and the console *)

Inductive Error :=
  | Error_NoAvailableTextureUnits (maxUnits : nat)
  | Error_FailedToCreateWebGLTexture
  | Error_TextureUnitMustBeProvided
  | TypeError_undefinedUniform
  | RangeError_invalidTypedArrayLength.

Inductive Result (A : Type) :=
  | Ok (a : A)
  | Throw (e : Error).

Arguments Ok {A} a.
Arguments Throw {A} e.

(** A name between double quotes, as the template strings of the
    messages put it. *)
Definition quoted (name : string) : string :=
  String (Ascii.ascii_of_nat 34)
    (name ++ String (Ascii.ascii_of_nat 34) EmptyString)%string.

Inductive ConsoleMsg :=
  | console_warn (msg : string)
  | console_error (msg : string) (error : Error).

(** ** The WebGL context

    A value handed to a [gl] entry point, before WebGL converts it. *)
Inductive JSValue :=
  | JSundefined
  | JSnumber (x : number)
  | JSarray (l : list number)
  | JSFloat32Array (l : list number).

Definition WebGLTexture := nat.
Definition WebGLUniformLocation := nat.

Inductive TexParameter :=
  | TEXTURE_WRAP_S | TEXTURE_WRAP_T | TEXTURE_MIN_FILTER | TEXTURE_MAG_FILTER.

(** The calls the code makes on the context, with their arguments; the
    targets [TEXTURE_2D], [RGBA], [UNSIGNED_BYTE], [COLOR_BUFFER_BIT] and
    [TRIANGLES] are constant in the sources and left out. *)
Inductive GLCall :=
  | gl_clearColor (r g b a : number)
  | gl_clear
  | gl_viewport (x y w h : number)
  | gl_drawArrays (first count : Z)
  | gl_uniform1f (loc : WebGLUniformLocation) (x : JSValue)
  | gl_uniform2f (loc : WebGLUniformLocation) (x y : JSValue)
  | gl_uniform3f (loc : WebGLUniformLocation) (x y z : JSValue)
  | gl_uniform4f (loc : WebGLUniformLocation) (x y z w : JSValue)
  | gl_uniform1i (loc : WebGLUniformLocation) (x : JSValue)
  | gl_uniform2i (loc : WebGLUniformLocation) (x y : JSValue)
  | gl_uniform3i (loc : WebGLUniformLocation) (x y z : JSValue)
  | gl_uniform4i (loc : WebGLUniformLocation) (x y z w : JSValue)
  | gl_uniformMatrix3fv (loc : WebGLUniformLocation) (transpose : bool) (v : JSValue)
  | gl_uniformMatrix4fv (loc : WebGLUniformLocation) (transpose : bool) (v : JSValue)
  | gl_createTexture
  | gl_deleteTexture (t : WebGLTexture)
  | gl_activeTexture (unit : nat)
  | gl_bindTexture (t : WebGLTexture)
  | gl_texParameteri (pname : TexParameter) (param : Z)
  | gl_pixelStorei_UNPACK_FLIP_Y (flip : bool)
  | gl_texImage2D (source : Source)
  | gl_generateMipmap.

(** The context: whether it is lost (then [createTexture] and
    [getParameter] return [null]), its number of texture units, the next
    texture name it hands out, and the calls received so far. *)
Record GL := {
  contextLost : bool;
  MAX_COMBINED_TEXTURE_IMAGE_UNITS : nat;
  nextTexture : WebGLTexture;
  calls : list GLCall
}.

Definition gl_emit (cs : list GLCall) (g : GL) : GL :=
  {| contextLost := contextLost g;
     MAX_COMBINED_TEXTURE_IMAGE_UNITS := MAX_COMBINED_TEXTURE_IMAGE_UNITS g;
     nextTexture := nextTexture g;
     calls := calls g ++ cs |}.

(** [gl.createTexture()]: [None] is [null]. *)
Definition GL_createTexture (g : GL) : GL * option WebGLTexture :=
  if contextLost g then (gl_emit [gl_createTexture] g, None)
  else ({| contextLost := contextLost g;
           MAX_COMBINED_TEXTURE_IMAGE_UNITS := MAX_COMBINED_TEXTURE_IMAGE_UNITS g;
           nextTexture := S (nextTexture g);
           calls := calls g ++ [gl_createTexture] |},
        Some (nextTexture g)).

(** [gl.getParameter(gl.MAX_COMBINED_TEXTURE_IMAGE_UNITS)] as the bound of
    the loop [i < maxUnits]: [null] bounds it like [0]. *)
Definition GL_maxUnits (g : GL) : nat :=
  if contextLost g then 0 else MAX_COMBINED_TEXTURE_IMAGE_UNITS g.

(** ** [src/utils/textures.ts] *)

Definition isMipmapFilter (f : TextureFilter) : bool :=
  match f with
  | NEAREST_MIPMAP_NEAREST | LINEAR_MIPMAP_NEAREST
  | NEAREST_MIPMAP_LINEAR | LINEAR_MIPMAP_LINEAR => true
  | _ => false
  end.

Definition emptyOptions : TextureOptions :=
  {| wrapS := None; wrapT := None; minFilter := None; magFilter := None;
     flipY := None |}.

(** A destructuring default [x = d]. *)
Definition orDefault (A : Type) (o : option A) (d : A) : A :=
  match o with Some a => a | None => d end.

(** The calls [createTexture] makes once the texture object exists. *)
Definition createTexture_calls (texture : WebGLTexture) (source : Source)
    (options : option TextureOptions) (unit : nat) : list GLCall :=
  let options := orDefault options emptyOptions in
  let wrapS' := orDefault (wrapS options) CLAMP_TO_EDGE in
  let wrapT' := orDefault (wrapT options) CLAMP_TO_EDGE in
  let minFilter' := orDefault (minFilter options) LINEAR in
  let magFilter' := orDefault (magFilter options) LINEAR in
  let flipY' := orDefault (flipY options) true in
  [ gl_activeTexture unit; gl_bindTexture texture;
    gl_texParameteri TEXTURE_WRAP_S (TextureWrap_code wrapS');
    gl_texParameteri TEXTURE_WRAP_T (TextureWrap_code wrapT');
    gl_texParameteri TEXTURE_MIN_FILTER (TextureFilter_code minFilter');
    gl_texParameteri TEXTURE_MAG_FILTER (TextureFilter_code magFilter');
    gl_pixelStorei_UNPACK_FLIP_Y flipY';
    gl_texImage2D source ]
  ++ (if isMipmapFilter minFilter' then [gl_generateMipmap] else []).

Definition createTexture (g : GL) (source : Source)
    (options : option TextureOptions) (unit : nat)
    : GL * Result WebGLTexture :=
  match GL_createTexture g with
  | (g1, None) => (g1, Throw Error_FailedToCreateWebGLTexture)
  | (g1, Some texture) =>
      (gl_emit (createTexture_calls texture source options unit) g1, Ok texture)
  end.

(** Truthiness of an enum member: its numeric code is not zero. *)
Definition truthy (code : Z) : bool := negb (code =? 0)%Z.

Definition updateTexture_calls (texture : WebGLTexture) (source : Source)
    (options : option TextureOptions) (unit : nat) : list GLCall :=
  let options := orDefault options emptyOptions in
  let param (A : Type) (code : A -> Z) (pname : TexParameter) (o : option A) :=
    match o with
    | Some v => if truthy (code v) then [gl_texParameteri pname (code v)] else []
    | None => []
    end in
  [ gl_activeTexture unit; gl_bindTexture texture ]
  ++ param _ TextureWrap_code TEXTURE_WRAP_S (wrapS options)
  ++ param _ TextureWrap_code TEXTURE_WRAP_T (wrapT options)
  ++ param _ TextureFilter_code TEXTURE_MIN_FILTER (minFilter options)
  ++ param _ TextureFilter_code TEXTURE_MAG_FILTER (magFilter options)
  ++ (match flipY options with
      | Some b => [gl_pixelStorei_UNPACK_FLIP_Y b]
      | None => []
      end)
  ++ [ gl_texImage2D source ]
  ++ (match minFilter options with
      | Some f =>
          if truthy (TextureFilter_code f) && isMipmapFilter f
          then [gl_generateMipmap] else []
      | None => []
      end).

Definition updateTexture (g : GL) (texture : WebGLTexture) (source : Source)
    (options : option TextureOptions) (unit : nat) : GL :=
  gl_emit (updateTexture_calls texture source options unit) g.

Definition deleteTexture (g : GL) (texture : WebGLTexture) : GL :=
  gl_emit [gl_deleteTexture texture] g.

(** What the DOM says of a source when it is asked. *)
Record SourceState := {
  complete : bool;
  naturalWidth : nat;
  readyState : nat
}.

Definition Dom := Source -> SourceState.

Definition HAVE_CURRENT_DATA : nat := 2.

Definition isTextureSourceReady (dom : Dom) (source : Source) : bool :=
  match src_kind source with
  | HTMLImageElement => complete (dom source) && (0 <? naturalWidth (dom source))
  | HTMLVideoElement => HAVE_CURRENT_DATA <=? readyState (dom source)
  | _ => true
  end.

(** ** [src/utils/uniforms.ts]: [setUniform] *)

(** [value as number]: the cast does not change the value. *)
Definition asJS (value : NumericValue) : JSValue :=
  match value with
  | Num x => JSnumber x
  | Arr l => JSarray l
  | F32 l => JSFloat32Array l
  end.

(** [v[i]]: a missing element, or any index into a number, is
    [undefined]. *)
Definition at_ (value : NumericValue) (i : nat) : JSValue :=
  match value with
  | Num _ => JSundefined
  | Arr l | F32 l =>
      match nth_error l i with
      | Some x => JSnumber x
      | None => JSundefined
      end
  end.

(** Rounding of a number to the binary32 element of a [Float32Array]. *)
Definition toFloat32 (x : number) : number :=
  match x with
  | S754_finite s m e => binary_round 24 128 s m e
  | _ => x
  end.

(** [ToIntegerOrInfinity]: [None] is an infinity. *)
Definition toInteger (x : number) : option Z :=
  match x with
  | S754_nan | S754_zero _ => Some 0%Z
  | S754_infinity _ => None
  | S754_finite s m e =>
      Some (cond_Zopp s
              (if (0 <=? e)%Z then Zpos m * 2 ^ e
               else Zpos m / 2 ^ (- e)))%Z
  end.

(** [v instanceof Float32Array ? v : new Float32Array(v)]; a plain
    number is read as a length, and a valid length is always allocated. *)
Definition asFloat32Array (value : NumericValue) : Result JSValue :=
  match value with
  | F32 l => Ok (JSFloat32Array l)
  | Arr l => Ok (JSFloat32Array (map toFloat32 l))
  | Num n =>
      match toInteger n with
      | Some k =>
          if (k <? 0)%Z || (2 ^ 53 - 1 <? k)%Z
          then Throw RangeError_invalidTypedArrayLength
          else Ok (JSFloat32Array (repeat (S754_zero false) (Z.to_nat k)))
      | None => Throw RangeError_invalidTypedArrayLength
      end
  end.

Definition setUniform (location : WebGLUniformLocation) (uniform : UniformValue)
    (textureUnit : option nat) : Result (list GLCall) :=
  match uniform with
  | TextureUniform _ _ =>
      match textureUnit with
      | None => Throw Error_TextureUnitMustBeProvided
      | Some unit => Ok [gl_uniform1i location (JSnumber (ofZ (Z.of_nat unit)))]
      end
  | NumericUniform type v =>
      match type with
      | T_float => Ok [gl_uniform1f location (asJS v)]
      | T_vec2 => Ok [gl_uniform2f location (at_ v 0) (at_ v 1)]
      | T_vec3 => Ok [gl_uniform3f location (at_ v 0) (at_ v 1) (at_ v 2)]
      | T_vec4 => Ok [gl_uniform4f location (at_ v 0) (at_ v 1) (at_ v 2) (at_ v 3)]
      | T_int => Ok [gl_uniform1i location (asJS v)]
      | T_ivec2 => Ok [gl_uniform2i location (at_ v 0) (at_ v 1)]
      | T_ivec3 => Ok [gl_uniform3i location (at_ v 0) (at_ v 1) (at_ v 2)]
      | T_ivec4 => Ok [gl_uniform4i location (at_ v 0) (at_ v 1) (at_ v 2) (at_ v 3)]
      | T_mat3 =>
          match asFloat32Array v with
          | Ok a => Ok [gl_uniformMatrix3fv location false a]
          | Throw e => Throw e
          end
      | T_mat4 =>
          match asFloat32Array v with
          | Ok a => Ok [gl_uniformMatrix4fv location false a]
          | Throw e => Throw e
          end
      end
  end.

(** ** The component: props, refs and the world they live in *)

Record BuiltInUniforms := {
  u_time : string;
  u_resolution : string;
  u_mouse : string
}.

Record ShaderCanvasOptions := {
  builtInUniforms : option BuiltInUniforms;
  defaultTextureOptions : option TextureOptions
}.

(** A linked program is known here by the locations of its active
    uniforms; [uniformLocations] is the table [useWebGL] filled when it
    linked the program. *)
Record WebGLProgramInfo := {
  program : JSMap WebGLUniformLocation;
  uniformLocations : JSMap WebGLUniformLocation
}.

Record Canvas := {
  clientWidth : number;
  clientHeight : number;
  width : number;
  height : number
}.

Record TextureInfo := {
  texture : WebGLTexture;
  source : Source;
  unit : nat
}.

(** The variables a [renderLoop] closure captured. *)
Record RenderFn := {
  rf_programInfo : option WebGLProgramInfo;
  rf_options : option ShaderCanvasOptions
}.

Record State := {
  gl : GL;
  console : list ConsoleMsg;
  (* refs of useTextures; ShaderCanvas holds the same two Map objects *)
  texturesRef : JSMap TextureInfo;
  textureUnitsRef : JSMap nat;
  (* refs of ShaderCanvas *)
  canvasRef : option Canvas;
  uniformsRef : Uniforms;
  previousUniformsRef : option Uniforms;
  changedUniformsRef : StrSet;
  mousePosition : number * number;
  lastFrameTimeRef : number;
  onFrameRenderRef : bool;
  renderFnRef : option RenderFn;
  (* the frame times handed to the onFrameRender callback so far *)
  frameTimes : list number
}.

Definition with_gl (g : GL) (st : State) : State :=
  {| gl := g; console := console st;
     texturesRef := texturesRef st; textureUnitsRef := textureUnitsRef st;
     canvasRef := canvasRef st; uniformsRef := uniformsRef st;
     previousUniformsRef := previousUniformsRef st;
     changedUniformsRef := changedUniformsRef st;
     mousePosition := mousePosition st;
     lastFrameTimeRef := lastFrameTimeRef st;
     onFrameRenderRef := onFrameRenderRef st;
     renderFnRef := renderFnRef st; frameTimes := frameTimes st |}.

Definition with_console (c : list ConsoleMsg) (st : State) : State :=
  {| gl := gl st; console := c;
     texturesRef := texturesRef st; textureUnitsRef := textureUnitsRef st;
     canvasRef := canvasRef st; uniformsRef := uniformsRef st;
     previousUniformsRef := previousUniformsRef st;
     changedUniformsRef := changedUniformsRef st;
     mousePosition := mousePosition st;
     lastFrameTimeRef := lastFrameTimeRef st;
     onFrameRenderRef := onFrameRenderRef st;
     renderFnRef := renderFnRef st; frameTimes := frameTimes st |}.

Definition with_textures (t : JSMap TextureInfo) (u : JSMap nat) (st : State)
    : State :=
  {| gl := gl st; console := console st;
     texturesRef := t; textureUnitsRef := u;
     canvasRef := canvasRef st; uniformsRef := uniformsRef st;
     previousUniformsRef := previousUniformsRef st;
     changedUniformsRef := changedUniformsRef st;
     mousePosition := mousePosition st;
     lastFrameTimeRef := lastFrameTimeRef st;
     onFrameRenderRef := onFrameRenderRef st;
     renderFnRef := renderFnRef st; frameTimes := frameTimes st |}.

Definition with_canvas (c : option Canvas) (st : State) : State :=
  {| gl := gl st; console := console st;
     texturesRef := texturesRef st; textureUnitsRef := textureUnitsRef st;
     canvasRef := c; uniformsRef := uniformsRef st;
     previousUniformsRef := previousUniformsRef st;
     changedUniformsRef := changedUniformsRef st;
     mousePosition := mousePosition st;
     lastFrameTimeRef := lastFrameTimeRef st;
     onFrameRenderRef := onFrameRenderRef st;
     renderFnRef := renderFnRef st; frameTimes := frameTimes st |}.

Definition with_uniforms (u : Uniforms) (p : option Uniforms) (c : StrSet)
    (st : State) : State :=
  {| gl := gl st; console := console st;
     texturesRef := texturesRef st; textureUnitsRef := textureUnitsRef st;
     canvasRef := canvasRef st; uniformsRef := u;
     previousUniformsRef := p;
     changedUniformsRef := c;
     mousePosition := mousePosition st;
     lastFrameTimeRef := lastFrameTimeRef st;
     onFrameRenderRef := onFrameRenderRef st;
     renderFnRef := renderFnRef st; frameTimes := frameTimes st |}.

Definition with_frame (last : number) (times : list number) (st : State)
    : State :=
  {| gl := gl st; console := console st;
     texturesRef := texturesRef st; textureUnitsRef := textureUnitsRef st;
     canvasRef := canvasRef st; uniformsRef := uniformsRef st;
     previousUniformsRef := previousUniformsRef st;
     changedUniformsRef := changedUniformsRef st;
     mousePosition := mousePosition st;
     lastFrameTimeRef := last;
     onFrameRenderRef := onFrameRenderRef st;
     renderFnRef := renderFnRef st; frameTimes := times |}.

Definition emit (cs : list GLCall) (st : State) : State :=
  with_gl (gl_emit cs (gl st)) st.

Definition log (m : ConsoleMsg) (st : State) : State :=
  with_console (console st ++ [m]) st.

(** ** [src/hooks/useTextures.ts] *)

Definition TextureEntry : Type := Source * option TextureOptions.

(** [getAvailableUnit]: the first [i] of [0 .. maxUnits-1] that is not a
    value of the name-to-unit map; an exception when there is none. *)
Definition getAvailableUnit (g : GL) (textureUnits : JSMap nat) : Result nat :=
  let maxUnits := GL_maxUnits g in
  let usedUnits := Map_values textureUnits in
  match find (fun i => negb (existsb (Nat.eqb i) usedUnits)) (seq 0 maxUnits) with
  | Some i => Ok i
  | None => Throw (Error_NoAvailableTextureUnits maxUnits)
  end.

(** The memoised map of the texture uniforms of a snapshot: [null] when
    there is no snapshot or when it holds no texture uniform. *)
Definition textureUniformsOf (uniforms : option Uniforms)
    : option (JSMap TextureEntry) :=
  match uniforms with
  | None => None
  | Some uniforms =>
      let textures :=
        fold_left
          (fun textures (entry : string * UniformValue) =>
             match snd entry with
             | TextureUniform value options =>
                 Map_set textures (fst entry) (value, options)
             | NumericUniform _ _ => textures
             end)
          uniforms [] in
      if 0 <? List.length textures then Some textures else None
  end.

(** One round of the first loop of the effect: a binding whose name left
    the snapshot is deleted. *)
Definition removeIfStale (textureUniforms : JSMap TextureEntry) (st : State)
    (entry : string * TextureInfo) : State :=
  let (name, info) := entry in
  if negb (Map_has textureUniforms name) then
    with_textures (Map_delete (texturesRef st) name)
                  (Map_delete (textureUnitsRef st) name)
                  (with_gl (deleteTexture (gl st) (texture info)) st)
  else st.

(** The first loop; deleting the entry at hand does not disturb the
    iteration over the entries that follow. *)
Definition removeStale (textureUniforms : JSMap TextureEntry) (st : State)
    : State :=
  fold_left (removeIfStale textureUniforms) (texturesRef st) st.

(** One round of the second loop: create or update the texture of one
    uniform. *)
Definition createOrUpdate (dom : Dom) (st : State)
    (entry : string * TextureEntry) : State :=
  let (name, uniform) := entry in
  let (value, options) := uniform in
  let existingInfo := Map_get (texturesRef st) name in
  if negb (isTextureSourceReady dom value) then
    log (console_warn
           ("Texture source for " ++ quoted name ++ " is not ready yet")%string) st
  else
    match existingInfo with
    | Some info =>
        let st1 :=
          with_gl (updateTexture (gl st) (texture info) value options (unit info)) st in
        with_textures
          (Map_set (texturesRef st1) name
             {| texture := texture info; source := value; unit := unit info |})
          (textureUnitsRef st1) st1
    | None =>
        match getAvailableUnit (gl st) (textureUnitsRef st) with
        | Throw error =>
            log (console_error
                   ("Failed to create texture " ++ quoted name ++ ":")%string error) st
        | Ok unit =>
            match createTexture (gl st) value options unit with
            | (g1, Throw error) =>
                log (console_error
                       ("Failed to create texture " ++ quoted name ++ ":")%string error)
                    (with_gl g1 st)
            | (g1, Ok texture) =>
                with_textures
                  (Map_set (texturesRef st) name
                     {| texture := texture; source := value; unit := unit |})
                  (Map_set (textureUnitsRef st) name unit)
                  (with_gl g1 st)
            end
        end
    end.

(** The reconciliation effect; [glAvailable] is whether the hook was
    given a context. *)
Definition useTextures_effect (dom : Dom) (glAvailable : bool)
    (textureUniforms : option (JSMap TextureEntry)) (st : State) : State :=
  match glAvailable, textureUniforms with
  | true, Some textureUniforms =>
      fold_left (createOrUpdate dom) textureUniforms
        (removeStale textureUniforms st)
  | _, _ => st
  end.

(** The cleanup that runs on unmount and when the context changes. *)
Definition useTextures_cleanup (glAvailable : bool) (st : State) : State :=
  if glAvailable then
    with_textures [] []
      (fold_left (fun st info => with_gl (deleteTexture (gl st) (texture info)) st)
         (Map_values (texturesRef st)) st)
  else st.

(** ** [src/components/ShaderCanvas.tsx] *)

Record ShaderCanvasProps := {
  uniforms : Uniforms;
  pixelRatio : number;
  options : option ShaderCanvasOptions;
  onFrameRender : bool
}.

(** The call of the hook in the component:
    [useTextures(programInfo?.gl || null, uniforms)]; the effect as it
    runs when the memoised map of texture uniforms has changed. *)
Definition ShaderCanvas_useTextures (props : ShaderCanvasProps)
    (programInfo : option WebGLProgramInfo) (dom : Dom) (st : State) : State :=
  useTextures_effect dom
    (match programInfo with Some _ => true | None => false end)
    (textureUniformsOf (Some (uniforms props))) st.

(** The effect on [uniforms]: diff against the retained clone. *)
Definition ShaderCanvas_uniformsEffect (props : ShaderCanvasProps) (st : State)
    : State :=
  with_uniforms (uniforms props)
    (Some (cloneUniforms (uniforms props)))
    (getChangedUniforms (uniforms props) (previousUniformsRef st)) st.

(** [options?.builtInUniforms?.f || fallback] *)
Definition builtInName (options : option ShaderCanvasOptions)
    (f : BuiltInUniforms -> string) (fallback : string) : string :=
  match options with
  | Some o =>
      match builtInUniforms o with
      | Some b => if String.eqb (f b) EmptyString then fallback else f b
      | None => fallback
      end
  | None => fallback
  end.

(** The literal [0.001]. *)
Definition milli : number := S754_finite false 4611686018427388 (-62).

Definition isDynamicSource (s : Source) : bool :=
  match src_kind s with
  | HTMLVideoElement | HTMLCanvasElement => true
  | _ => false
  end.

(** The loop over the texture bindings in [renderLoop]. *)
Definition refreshDynamicTextures (activeUniforms : Uniforms)
    (currentTextures : JSMap TextureInfo) (g : GL) : GL :=
  fold_left
    (fun g (entry : string * TextureInfo) =>
       let (name, info) := entry in
       match Map_get activeUniforms name with
       | Some (TextureUniform source options) =>
           if isDynamicSource source
           then updateTexture g (texture info) source options (unit info)
           else g
       | _ => g
       end)
    currentTextures g.

(** One round of the loop over the changed names in [renderLoop]. *)
Definition applyChanged (locations : JSMap WebGLUniformLocation)
    (activeUniforms : Uniforms) (st : State) (key : string) : State :=
  match Map_get locations key with
  | None => st
  | Some loc =>
      let textureUnit := Map_get (textureUnitsRef st) key in
      let attempt :=
        match Map_get activeUniforms key with
        | Some uniform => setUniform loc uniform textureUnit
        | None => Throw TypeError_undefinedUniform
        end in
      match attempt with
      | Ok cs => emit cs st
      | Throw error =>
          log (console_error
                 ("Failed to set uniform " ++ quoted key ++ ":")%string error) st
      end
  end.

(** [renderLoop(time)]; [now] is what [performance.now()] returns when
    the frame time is taken. *)
Definition renderLoop (programInfo : option WebGLProgramInfo)
    (options : option ShaderCanvasOptions) (time now : number) (st : State)
    : State :=
  match canvasRef st, programInfo with
  | Some canvas, Some info =>
      let uniformCall (name : string) (call : WebGLUniformLocation -> GLCall) :=
        match Map_get (program info) name with
        | Some loc => [call loc]
        | None => []
        end in
      let st1 :=
        emit ([ gl_clearColor (ofZ 0) (ofZ 0) (ofZ 0) (ofZ 1); gl_clear ]
              ++ uniformCall (builtInName options u_resolution "u_resolution")
                   (fun loc => gl_uniform2f loc (JSnumber (width canvas))
                                 (JSnumber (height canvas)))
              ++ uniformCall (builtInName options u_time "u_time")
                   (fun loc => gl_uniform1f loc (JSnumber (mul time milli)))
              ++ uniformCall (builtInName options u_mouse "u_mouse")
                   (fun loc => gl_uniform2f loc
                                 (JSnumber (fst (mousePosition st)))
                                 (JSnumber (snd (mousePosition st)))))
             st in
      let activeUniforms := uniformsRef st1 in
      let changedUniforms := changedUniformsRef st1 in
      let st2 :=
        with_gl (refreshDynamicTextures activeUniforms (texturesRef st1) (gl st1))
          st1 in
      let st3 :=
        fold_left (applyChanged (uniformLocations info) activeUniforms)
          changedUniforms st2 in
      let st4 :=
        with_uniforms (uniformsRef st3) (previousUniformsRef st3) [] st3 in
      let st5 := emit [gl_drawArrays 0 6] st4 in
      if onFrameRenderRef st5 then
        let frameTime := sub now (lastFrameTimeRef st5) in
        with_frame now (frameTimes st5 ++ [frameTime]) st5
      else st5
  | _, _ => st
  end.

(** ** The backing store of a canvas

    [width] and [height] of a canvas element are [unsigned long]
    attributes limited to the integers from 0 to 2147483647.  A number
    assigned to one of them is first read as an [unsigned long]
    ([ToUint32]: NaN and the infinities give 0, a fraction is cut off, the
    integer is taken modulo 2^32); a result above 2147483647 is replaced
    by the default of the attribute, 300 for [width] and 150 for
    [height]. *)
Definition ToUint32 (x : number) : Z :=
  match toInteger x with
  | Some k => (k mod 2 ^ 32)%Z
  | None => 0%Z
  end.

(** A number a canvas keeps as its width or height when it is assigned:
    an integer from 0 to 2147483647. *)
Definition isCanvasSize (x : number) : bool :=
  match x with
  | S754_zero _ => true
  | S754_finite false m e =>
      if (0 <=? e)%Z then (Zpos m * 2 ^ e <=? 2147483647)%Z
      else ((Zpos m mod 2 ^ (- e) =? 0)%Z
            && (Zpos m / 2 ^ (- e) <=? 2147483647)%Z)
  | _ => false
  end.

(** What [canvas.width] (or [canvas.height]) reads after it was assigned
    [x]: a zero reads as [+0], a positive integer up to 2147483647 reads
    as itself, and any other number reads as its [ToUint32], or as the
    default when that is above 2147483647. *)
Definition canvasDimension (default : Z) (x : number) : number :=
  match x with
  | S754_zero _ => ofZ 0
  | _ =>
      if isCanvasSize x then x
      else if (ToUint32 x <=? 2147483647)%Z then ofZ (ToUint32 x)
      else ofZ default
  end.

(** [handleResize]; [now] is the [performance.now()] passed to the render
    function, [now'] the one the render function reads.  The canvas keeps
    what it makes of the numbers assigned to it; the viewport call gets
    the numbers themselves. *)
Definition handleResize (programInfo : option WebGLProgramInfo)
    (pixelRatio : number) (now now' : number) (st : State) : State :=
  match canvasRef st, programInfo with
  | Some canvas, Some _ =>
      let displayWidth := Math_floor (mul (clientWidth canvas) pixelRatio) in
      let displayHeight := Math_floor (mul (clientHeight canvas) pixelRatio) in
      if negb (strictEq (width canvas) displayWidth)
         || negb (strictEq (height canvas) displayHeight)
      then
        let st1 :=
          emit [gl_viewport (ofZ 0) (ofZ 0) displayWidth displayHeight]
            (with_canvas
               (Some {| clientWidth := clientWidth canvas;
                        clientHeight := clientHeight canvas;
                        width := canvasDimension 300 displayWidth;
                        height := canvasDimension 150 displayHeight |}) st) in
        match renderFnRef st1 with
        | Some fn => renderLoop (rf_programInfo fn) (rf_options fn) now now' st1
        | None => st1
        end
      else st
  | _, _ => st
  end.

(** A run of animation ticks of one render function, each with its
    timestamp and its reading of [performance.now()]. *)
Definition runTicks (programInfo : option WebGLProgramInfo)
    (options : option ShaderCanvasOptions) (ticks : list (number * number))
    (st : State) : State :=
  fold_left (fun st tick => renderLoop programInfo options (fst tick) (snd tick) st)
    ticks st.

(** ** The vocabulary of the specification

    The specification describes when two uniform values count as
    different.  The definitions below follow its words, to be compared
    with [uniformsEqual]. *)

(** A numeric value as the sequence of its elements; a scalar is a
    sequence of one. *)
Definition elements (v : NumericValue) : list number :=
  match v with
  | Num x => [x]
  | Arr l | F32 l => l
  end.

(** The elements at one index differ under [===]; an element set against
    a missing one differs. *)
Definition differAt (x y : list number) (i : nat) : Prop :=
  match nth_error x i, nth_error y i with
  | Some a, Some b => strictEq a b = false
  | None, None => False
  | _, _ => True
  end.

(** "any element of [value] differs" *)
Definition elementDiffers (a b : NumericValue) : Prop :=
  exists i, differAt (elements a) (elements b) i.

(** "any single field of [options] differs (including one side having
    [options] undefined and the other defined)" *)
Definition optionsDiffer (a b : option TextureOptions) : Prop :=
  match a, b with
  | None, None => False
  | Some x, Some y =>
      wrapS x <> wrapS y \/ wrapT x <> wrapT y \/
      minFilter x <> minFilter y \/ magFilter x <> magFilter y \/
      flipY x <> flipY y
  | _, _ => True
  end.

(** Unequal, in the words of the specification. *)
Definition spec_unequal (a b : UniformValue) : Prop :=
  typeOf a <> typeOf b \/
  match a, b with
  | NumericUniform _ va, NumericUniform _ vb => elementDiffers va vb
  | TextureUniform sa oa, TextureUniform sb ob => sa <> sb \/ optionsDiffer oa ob
  | _, _ => False
  end.

(** The three shapes a numeric value comes in. *)
Inductive Representation := PlainNumber | PlainArray | TypedArray.

Definition representation (v : NumericValue) : Representation :=
  match v with
  | Num _ => PlainNumber
  | Arr _ => PlainArray
  | F32 _ => TypedArray
  end.

(** Unequal, as [uniformsEqual] decides it: the specification's cases,
    and numeric values held in different representations. *)
Definition unequal (a b : UniformValue) : Prop :=
  spec_unequal a b \/
  match a, b with
  | NumericUniform _ va, NumericUniform _ vb => representation va <> representation vb
  | _, _ => False
  end.

(** A name counts as changed between two snapshots, for a given notion of
    unequal values. *)
Definition changedName (differ : UniformValue -> UniformValue -> Prop)
    (current previous : Uniforms) (name : string) : Prop :=
  exists c, Map_get current name = Some c /\
    (Map_get previous name = None \/
     exists p, Map_get previous name = Some p /\ differ c p).

(** A uniform one of whose elements is NaN. *)
Definition hasNaN (u : UniformValue) : bool :=
  match u with
  | NumericUniform _ v => existsb isNaN (elements v)
  | TextureUniform _ _ => false
  end.

(** Element-wise comparison of two sequences, by structural recursion. *)
Fixpoint pairwise (x y : list number) : bool :=
  match x, y with
  | [], [] => true
  | a :: x', b :: y' => strictEq a b && pairwise x' y'
  | _, _ => false
  end.

(** The test the loop of [getChangedUniforms] applies to a key. *)
Definition isChanged (current previous : Uniforms) (key : string) : bool :=
  match Map_get current key with
  | None => false
  | Some c =>
      match Map_get previous key with
      | None => true
      | Some p => negb (uniformsEqual c p)
      end
  end.

(** ** The texture-unit pool and its invariant *)

(** The test [getAvailableUnit] applies to a unit index. *)
Definition isFree (usedUnits : list nat) (i : nat) : bool :=
  negb (existsb (Nat.eqb i) usedUnits).

(** The test the removal loop applies to a binding: its name is still a
    texture uniform of the snapshot. *)
Definition keeps (textureUniforms : JSMap TextureEntry)
    (entry : string * TextureInfo) : bool :=
  Map_has textureUniforms (fst entry).

Definition deletionsOf (entries : JSMap TextureInfo) : list GLCall :=
  map (fun entry : string * TextureInfo => gl_deleteTexture (texture (snd entry)))
    entries.

Definition unitsOf (textures : JSMap TextureInfo) : JSMap nat :=
  map (fun entry : string * TextureInfo => (fst entry, unit (snd entry))) textures.

Definition handlesOf (textures : JSMap TextureInfo) : list WebGLTexture :=
  map (fun entry : string * TextureInfo => texture (snd entry)) textures.

(** The bindings are well formed: the two maps of the hook list the same
    names with the same units, no name, no unit and no texture object
    occurs twice, and the texture objects are ones the context has
    handed out. *)
Record bindings_wf (st : State) : Prop := {
  wf_mirror : textureUnitsRef st = unitsOf (texturesRef st);
  wf_names : NoDup (Map_keys (texturesRef st));
  wf_units : NoDup (Map_values (textureUnitsRef st));
  wf_handles : NoDup (handlesOf (texturesRef st));
  wf_fresh : forall t, In t (handlesOf (texturesRef st)) -> t < nextTexture (gl st)
}.

(** ** Traces *)

Definition isTextureOp (c : GLCall) : bool :=
  match c with
  | gl_bindTexture _ | gl_texImage2D _ => true
  | _ => false
  end.

Definition isViewport (c : GLCall) : bool :=
  match c with gl_viewport _ _ _ _ => true | _ => false end.

Definition isDraw (c : GLCall) : bool :=
  match c with gl_drawArrays _ _ => true | _ => false end.

Definition countCalls (p : GLCall -> bool) (cs : list GLCall) : nat :=
  List.length (filter p cs).

(** A trace without any call of a given kind. *)
Definition lacks (p : GLCall -> bool) (cs : list GLCall) : Prop :=
  Forall (fun c => p c = false) cs.

(** A trace that neither binds a texture nor uploads an image. *)
Definition quiet (cs : list GLCall) : Prop := lacks isTextureOp cs.

(** The texture-image uploads a trace makes to one texture: the
    [texImage2D] calls issued while it is the bound texture. *)
Fixpoint uploadsFrom (bound : option WebGLTexture) (t : WebGLTexture)
    (cs : list GLCall) : nat :=
  match cs with
  | [] => 0
  | gl_bindTexture t' :: r => uploadsFrom (Some t') t r
  | gl_texImage2D _ :: r =>
      (match bound with
       | Some b => if Nat.eqb b t then 1 else 0
       | None => 0
       end) + uploadsFrom bound t r
  | _ :: r => uploadsFrom bound t r
  end.

(** The texture bound once a trace has run. *)
Fixpoint boundAfter (bound : option WebGLTexture) (cs : list GLCall)
    : option WebGLTexture :=
  match cs with
  | [] => bound
  | gl_bindTexture t' :: r => boundAfter (Some t') r
  | _ :: r => boundAfter bound r
  end.

(** ** The effects of a frame, spelled out *)

(** A binding is refreshed in a frame when its uniform is a texture
    uniform whose source is a video or a canvas. *)
Definition isRefreshed (activeUniforms : Uniforms)
    (entry : string * TextureInfo) : bool :=
  match Map_get activeUniforms (fst entry) with
  | Some (TextureUniform source _) => isDynamicSource source
  | _ => false
  end.

(** The calls the refresh loop makes for one binding. *)
Definition refreshCallsOf (activeUniforms : Uniforms)
    (entry : string * TextureInfo) : list GLCall :=
  match Map_get activeUniforms (fst entry) with
  | Some (TextureUniform source options) =>
      if isDynamicSource source
      then updateTexture_calls (texture (snd entry)) source options (unit (snd entry))
      else []
  | _ => []
  end.

(** What the try block of the changed-uniform loop does for one key:
    [None] when the key has no location and is skipped. *)
Definition uniformOutcome (locations : JSMap WebGLUniformLocation)
    (activeUniforms : Uniforms) (textureUnits : JSMap nat) (key : string)
    : option (Result (list GLCall)) :=
  match Map_get locations key with
  | None => None
  | Some loc =>
      Some match Map_get activeUniforms key with
           | Some uniform => setUniform loc uniform (Map_get textureUnits key)
           | None => Throw TypeError_undefinedUniform
           end
  end.

Definition outcomeCalls (o : option (Result (list GLCall))) : list GLCall :=
  match o with
  | Some (Ok cs) => cs
  | _ => []
  end.

Definition outcomeErrors (key : string) (o : option (Result (list GLCall)))
    : list ConsoleMsg :=
  match o with
  | Some (Throw error) =>
      [console_error ("Failed to set uniform " ++ quoted key ++ ":")%string error]
  | _ => []
  end.

(** Calls appended to the trace and messages appended to the console. *)
Definition effects (cs : list GLCall) (ms : list ConsoleMsg) (st : State) : State :=
  with_console (console st ++ ms) (emit cs st).

(** The calls with which [renderLoop] opens a frame. *)
Definition frameOpening (info : WebGLProgramInfo)
    (options : option ShaderCanvasOptions) (canvas : Canvas)
    (mouse : number * number) (time : number) : list GLCall :=
  let uniformCall (name : string) (call : WebGLUniformLocation -> GLCall) :=
    match Map_get (program info) name with
    | Some loc => [call loc]
    | None => []
    end in
  [ gl_clearColor (ofZ 0) (ofZ 0) (ofZ 0) (ofZ 1); gl_clear ]
  ++ uniformCall (builtInName options u_resolution "u_resolution")
       (fun loc => gl_uniform2f loc (JSnumber (width canvas)) (JSnumber (height canvas)))
  ++ uniformCall (builtInName options u_time "u_time")
       (fun loc => gl_uniform1f loc (JSnumber (mul time milli)))
  ++ uniformCall (builtInName options u_mouse "u_mouse")
       (fun loc => gl_uniform2f loc (JSnumber (fst mouse)) (JSnumber (snd mouse))).

(** All the calls of one frame. *)
Definition frameCalls (info : WebGLProgramInfo)
    (options : option ShaderCanvasOptions) (canvas : Canvas) (time : number)
    (st : State) : list GLCall :=
  frameOpening info options canvas (mousePosition st) time
  ++ flat_map (refreshCallsOf (uniformsRef st)) (texturesRef st)
  ++ flat_map
       (fun key =>
          outcomeCalls
            (uniformOutcome (uniformLocations info) (uniformsRef st)
               (textureUnitsRef st) key))
       (changedUniformsRef st)
  ++ [gl_drawArrays 0 6].

(** All the messages of one frame. *)
Definition frameErrors (info : WebGLProgramInfo) (st : State) : list ConsoleMsg :=
  flat_map
    (fun key =>
       outcomeErrors key
         (uniformOutcome (uniformLocations info) (uniformsRef st)
            (textureUnitsRef st) key))
    (changedUniformsRef st).

(** A number that is neither NaN nor an infinity. *)
Definition isFiniteNumber (x : number) : bool :=
  match x with
  | S754_zero _ | S754_finite _ _ _ => true
  | _ => false
  end.

(** The canvas once [handleResize] has given it a backing store. *)
Definition resizedCanvas (canvas : Canvas) (displayWidth displayHeight : number)
    : Canvas :=
  {| clientWidth := clientWidth canvas; clientHeight := clientHeight canvas;
     width := displayWidth; height := displayHeight |}.

(** ** Snapshots and states used as examples *)

Definition removedPrevious : Uniforms :=
  [ ("u_time"%string, NumericUniform T_float (Num (ofZ 1)));
    ("u_old"%string, NumericUniform T_float (Num (ofZ 5))) ].

Definition removedCurrent : Uniforms :=
  [ ("u_time"%string, NumericUniform T_float (Num (ofZ 1))) ].

Definition mixedCurrent : Uniforms :=
  [ ("u_m"%string, NumericUniform T_vec2 (Arr [ofZ 1; ofZ 2])) ].

Definition mixedPrevious : Uniforms :=
  [ ("u_m"%string, NumericUniform T_vec2 (F32 [ofZ 1; ofZ 2])) ].

Definition nanSnapshot : Uniforms :=
  [ ("u_nan"%string, NumericUniform T_float (Num NaN)) ].

Definition image1 : Source := {| src_kind := HTMLImageElement; src_id := 1 |}.
Definition image2 : Source := {| src_kind := HTMLImageElement; src_id := 2 |}.
Definition image3 : Source := {| src_kind := HTMLImageElement; src_id := 3 |}.
Definition video1 : Source := {| src_kind := HTMLVideoElement; src_id := 4 |}.

Definition repeatOptions : TextureOptions :=
  {| wrapS := Some REPEAT; wrapT := None; minFilter := None;
     magFilter := None; flipY := None |}.

Definition sampleSnapshot : Uniforms :=
  [ ("u_a"%string, NumericUniform T_float (Num (ofZ 1)));
    ("u_b"%string, NumericUniform T_vec2 (Arr [ofZ 0; ofZ 0]));
    ("u_c"%string, NumericUniform T_mat3 (F32 (repeat (ofZ 0) 9)));
    ("u_tex"%string, TextureUniform image1 (Some repeatOptions));
    ("u_vid"%string, TextureUniform video1 None) ].

Definition gl0 : GL :=
  {| contextLost := false; MAX_COMBINED_TEXTURE_IMAGE_UNITS := 8;
     nextTexture := 0; calls := [] |}.

Definition canvas0 : Canvas :=
  {| clientWidth := ofZ 400; clientHeight := ofZ 300;
     width := ofZ 300; height := ofZ 150 |}.

(** A mounted component with a fresh context, no binding and no render
    function registered. *)
Definition state0 : State :=
  {| gl := gl0; console := [];
     texturesRef := []; textureUnitsRef := [];
     canvasRef := Some canvas0; uniformsRef := [];
     previousUniformsRef := None; changedUniformsRef := [];
     mousePosition := (ofZ 0, ofZ 0);
     lastFrameTimeRef := ofZ 0; onFrameRenderRef := false;
     renderFnRef := None; frameTimes := [] |}.

(** Every image is loaded and every video has a frame. *)
Definition readyDom : Dom :=
  fun _ => {| complete := true; naturalWidth := 1; readyState := 4 |}.

Definition threeTextures : JSMap TextureEntry :=
  [ ("u_tex1"%string, (image1, None));
    ("u_tex2"%string, (image2, None));
    ("u_tex3"%string, (image3, None)) ].

Definition twoTextures : JSMap TextureEntry :=
  [ ("u_tex1"%string, (image1, None));
    ("u_tex2"%string, (image2, None)) ].

Definition firstAndThird : JSMap TextureEntry :=
  [ ("u_tex1"%string, (image1, None));
    ("u_tex3"%string, (image3, None)) ].


(** A program without active uniforms. *)
Definition bareProgram : WebGLProgramInfo :=
  {| program := []; uniformLocations := [] |}.

(** A snapshot with an image and a video, and the state once its
    textures are created. *)
Definition mediaSnapshot : Uniforms :=
  [ ("u_image"%string, TextureUniform image1 None);
    ("u_video"%string, TextureUniform video1 None) ].

Definition mediaState : State :=
  ShaderCanvas_useTextures
    {| uniforms := mediaSnapshot; pixelRatio := ofZ 1; options := None;
       onFrameRender := false |}
    (Some bareProgram) readyDom
    (with_uniforms mediaSnapshot (Some (cloneUniforms mediaSnapshot)) [] state0).

Definition tenTicks : list (number * number) :=
  map (fun i => (ofZ (16 * Z.of_nat i), ofZ (16 * Z.of_nat i))) (seq 1 10).

(** Props configuring a fallback for texture options, with one texture
    uniform that has no options of its own. *)
Definition fallbackProps : ShaderCanvasProps :=
  {| uniforms := [ ("u_tex"%string, TextureUniform image1 None) ];
     pixelRatio := ofZ 1;
     options := Some {| builtInUniforms := None;
                        defaultTextureOptions := Some repeatOptions |};
     onFrameRender := false |}.

(** A program whose only active uniform is [u_time]. *)
Definition timedProgram : WebGLProgramInfo :=
  {| program := [ ("u_time"%string, 7) ]; uniformLocations := [] |}.

(** A frame in which one changed uniform cannot be set: [u_bad] is a
    texture uniform without a texture unit. *)
Definition failingProgram : WebGLProgramInfo :=
  {| program := [];
     uniformLocations := [ ("u_bad"%string, 1); ("u_ok"%string, 2) ] |}.

Definition failingSnapshot : Uniforms :=
  [ ("u_bad"%string, TextureUniform image1 None);
    ("u_ok"%string, NumericUniform T_float (Num (ofZ 1))) ].

Definition failingState : State :=
  with_uniforms failingSnapshot (Some (cloneUniforms failingSnapshot))
    ["u_bad"%string; "u_ok"%string] state0.

(** The number [-1.5]. *)
Definition negThreeHalves : number := S754_finite true 6755399441055744 (-52).

(** A component whose render loop is registered. *)
Definition loopState : State :=
  {| gl := gl0; console := [];
     texturesRef := []; textureUnitsRef := [];
     canvasRef := Some canvas0; uniformsRef := [];
     previousUniformsRef := None; changedUniformsRef := [];
     mousePosition := (ofZ 0, ofZ 0);
     lastFrameTimeRef := ofZ 0; onFrameRenderRef := false;
     renderFnRef := Some {| rf_programInfo := Some bareProgram;
                            rf_options := None |};
     frameTimes := [] |}.

(** ** [src/hooks/useMousePosition.ts] *)

(** [x / y], [x < y] and [x <= y] on numbers. *)
Definition div (x y : number) : number := SFdiv prec emax x y.
Definition lessThan (x y : number) : bool := SFltb x y.
Definition lessEq (x y : number) : bool := SFleb x y.

(** [Math.max(x, y)] and [Math.min(x, y)]: NaN when an argument is NaN,
    and [+0] counts as larger than [-0]. *)
Definition Math_max (x y : number) : number :=
  if isNaN x || isNaN y then NaN
  else
    match x, y with
    | S754_zero sx, S754_zero sy => S754_zero (sx && sy)
    | _, _ => if lessThan x y then y else x
    end.

Definition Math_min (x y : number) : number :=
  if isNaN x || isNaN y then NaN
  else
    match x, y with
    | S754_zero sx, S754_zero sy => S754_zero (sx || sy)
    | _, _ => if lessThan y x then y else x
    end.

(** What [getBoundingClientRect()] returns, and the fields of a mouse
    event that the hook reads. *)
Record DOMRect := {
  rect_left : number;
  rect_top : number;
  rect_width : number;
  rect_height : number
}.

Record MouseEvent := {
  clientX : number;
  clientY : number
}.

(** The literal [0.5]. *)
Definition half : number := S754_finite false 4503599627370496 (-53).

(** The initial state of the hook. *)
Definition initialMousePosition : number * number := (half, half).

(** [handleMouseMove]: the position the hook holds after the event;
    [element] is the rectangle of [elementRef.current], [None] when the
    ref is empty. *)
Definition handleMouseMove (element : option DOMRect) (event : MouseEvent)
    (position : number * number) : number * number :=
  match element with
  | None => position
  | Some rect =>
      let x := div (sub (clientX event) (rect_left rect)) (rect_width rect) in
      let y := div (sub (clientY event) (rect_top rect)) (rect_height rect) in
      let clampedX := Math_max (ofZ 0) (Math_min (ofZ 1) x) in
      let clampedY := Math_max (ofZ 0) (Math_min (ofZ 1) y) in
      (clampedX, clampedY)
  end.

(** The effect of [ShaderCanvas] that copies the position the hook
    returned into the ref that [renderLoop] reads. *)
Definition ShaderCanvas_mouseEffect (mousePositionState : number * number)
    (st : State) : State :=
  {| gl := gl st; console := console st;
     texturesRef := texturesRef st; textureUnitsRef := textureUnitsRef st;
     canvasRef := canvasRef st; uniformsRef := uniformsRef st;
     previousUniformsRef := previousUniformsRef st;
     changedUniformsRef := changedUniformsRef st;
     mousePosition := mousePositionState;
     lastFrameTimeRef := lastFrameTimeRef st;
     onFrameRenderRef := onFrameRenderRef st;
     renderFnRef := renderFnRef st; frameTimes := frameTimes st |}.

(** ** [src/utils/shaders.ts]: [getUniformLocations]

    The locations of the names that the program declares, and the
    warnings printed for the others; [gl.getUniformLocation(program, name)]
    is the lookup of [name] among the active uniforms of the program. *)
Definition getUniformLocations (program : JSMap WebGLUniformLocation)
    (uniformNames : list string)
    : JSMap WebGLUniformLocation * list ConsoleMsg :=
  fold_left
    (fun (acc : JSMap WebGLUniformLocation * list ConsoleMsg) name =>
       let (locations, warnings) := acc in
       match Map_get program name with
       | None =>
           (locations,
            warnings ++
            [console_warn
               ("Uniform " ++ quoted name ++ " not found in shader program")%string])
       | Some location => (Map_set locations name location, warnings)
       end)
    uniformNames ([], []).

(** ** [src/hooks/useWebGL.ts]: the table of uniform locations

    [useWebGL] fills the table once, when it has linked the program, from
    the names the snapshot in [uniformsRef] holds at that time. *)
Definition useWebGL_programInfo (linked : JSMap WebGLUniformLocation)
    (uniformsRef : option Uniforms) : WebGLProgramInfo * list ConsoleMsg :=
  let (uniformLocations, warnings) :=
    getUniformLocations linked
      (Map_keys (match uniformsRef with Some u => u | None => [] end)) in
  ({| program := linked; uniformLocations := uniformLocations |}, warnings).

(** ** [src/hooks/useShaderTelemetry.tsx] *)

(** [n > x] for the length [n] of an array and a number [x]. *)
Definition lengthExceeds (n : nat) (x : number) : bool :=
  match x with
  | S754_nan => false
  | S754_infinity s => s
  | S754_zero _ => (0 <? Z.of_nat n)%Z
  | S754_finite true _ _ => true
  | S754_finite false m e =>
      if (0 <=? e)%Z then (Zpos m * 2 ^ e <? Z.of_nat n)%Z
      else (Zpos m <? Z.of_nat n * 2 ^ (- e))%Z
  end.

(** [props?.graphSamples || 60]: [None] is an absent prop, and the
    numbers [0], [-0] and NaN are falsy. *)
Definition graphSamplesOr60 (graphSamples : option number) : number :=
  match graphSamples with
  | Some (S754_zero _) | Some S754_nan | None => ofZ 60
  | Some x => x
  end.

(** The refs of the hook. *)
Record Telemetry := {
  frameTimeHistory : list number;
  frameCountRef : nat;
  graphSamplesRef : number
}.

(** [onFrameRender(frameTime)]: push, drop the oldest entry when the
    history is longer than [graphSamplesRef], count the frame. *)
Definition onFrameRender_callback (frameTime : number) (t : Telemetry) : Telemetry :=
  let pushed := frameTimeHistory t ++ [frameTime] in
  {| frameTimeHistory :=
       if lengthExceeds (List.length pushed) (graphSamplesRef t)
       then tl pushed else pushed;
     frameCountRef := S (frameCountRef t);
     graphSamplesRef := graphSamplesRef t |}.

(** The hook as it is mounted. *)
Definition useShaderTelemetry (graphSamples : option number) : Telemetry :=
  {| frameTimeHistory := []; frameCountRef := 0;
     graphSamplesRef := graphSamplesOr60 graphSamples |}.

(** ** [src/utils/shaders.ts]: building the program

    The objects of the set-up are known by a number the context hands
    out; a call that creates an object is recorded with what it
    returned, [None] for [null]. *)
Inductive ShaderType := VERTEX_SHADER | FRAGMENT_SHADER.

Definition WebGLShader := nat.
Definition WebGLProgram := nat.
Definition WebGLBuffer := nat.

Inductive SetupCall :=
  | gl_createShader (type : ShaderType) (result : option WebGLShader)
  | gl_shaderSource (shader : WebGLShader) (source : string)
  | gl_compileShader (shader : WebGLShader)
  | gl_deleteShader (shader : WebGLShader)
  | gl_createProgram (result : option WebGLProgram)
  | gl_attachShader (prog : WebGLProgram) (shader : WebGLShader)
  | gl_linkProgram (prog : WebGLProgram)
  | gl_deleteProgram (prog : WebGLProgram)
  | gl_useProgram (prog : WebGLProgram)
  | gl_createBuffer (result : option WebGLBuffer)
  | gl_bindBuffer (buffer : WebGLBuffer)
  | gl_bufferData (data : list number)
  | gl_enableVertexAttribArray (index : Z)
  | gl_vertexAttribPointer (index size : Z) (normalized : bool) (stride offset : Z)
  | gl_deleteBuffer (buffer : WebGLBuffer).

(** What the browser and the driver answer: whether the canvas gives a
    context, whether an object can be created, whether a source compiles
    and two shaders link, the logs, and the attributes and active
    uniforms of a linked program. *)
Record Driver := {
  getContext : bool;
  createShaderFails : ShaderType -> bool;
  createProgramFails : bool;
  createBufferFails : bool;
  COMPILE_STATUS : ShaderType -> string -> bool;
  getShaderInfoLog : ShaderType -> string -> string;
  LINK_STATUS : WebGLShader -> WebGLShader -> bool;
  getProgramInfoLog : WebGLShader -> WebGLShader -> string;
  getAttribLocation : WebGLProgram -> string -> Z;
  activeUniforms : WebGLProgram -> JSMap WebGLUniformLocation
}.

(** The context during the set-up: the next object number and the calls
    received. *)
Record SetupGL := {
  nextObject : nat;
  setupCalls : list SetupCall
}.

Definition setup_emit (cs : list SetupCall) (g : SetupGL) : SetupGL :=
  {| nextObject := nextObject g; setupCalls := setupCalls g ++ cs |}.

(** A creation that succeeds: the call is recorded with the new object. *)
Definition setup_create (call : option nat -> SetupCall) (g : SetupGL)
    : SetupGL * nat :=
  ({| nextObject := S (nextObject g);
      setupCalls := setupCalls g ++ [call (Some (nextObject g))] |},
   nextObject g).

Inductive SetupError :=
  | Error_WebGLNotSupported
  | Error_FailedToCreateShader (type : ShaderType)
  | Error_ShaderCompilationFailed (info : string)
  | Error_FailedToCreateProgram
  | Error_ProgramLinkingFailed (info : string)
  | Error_FailedToCreateQuadBuffer.

Inductive Outcome (A : Type) :=
  | Done (a : A)
  | Failed (e : SetupError).

Arguments Done {A} a.
Arguments Failed {A} e.

Definition compileShader (d : Driver) (g : SetupGL) (type : ShaderType)
    (source : string) : SetupGL * Outcome WebGLShader :=
  if createShaderFails d type then
    (setup_emit [gl_createShader type None] g,
     Failed (Error_FailedToCreateShader type))
  else
    let (g1, shader) := setup_create (gl_createShader type) g in
    let g2 := setup_emit [gl_shaderSource shader source; gl_compileShader shader] g1 in
    if negb (COMPILE_STATUS d type source) then
      (setup_emit [gl_deleteShader shader] g2,
       Failed (Error_ShaderCompilationFailed (getShaderInfoLog d type source)))
    else (g2, Done shader).

Definition createProgram (d : Driver) (g : SetupGL)
    (vertexShader fragmentShader : WebGLShader) : SetupGL * Outcome WebGLProgram :=
  if createProgramFails d then
    (setup_emit [gl_createProgram None] g, Failed Error_FailedToCreateProgram)
  else
    let (g1, prog) := setup_create gl_createProgram g in
    let g2 :=
      setup_emit [gl_attachShader prog vertexShader;
                  gl_attachShader prog fragmentShader;
                  gl_linkProgram prog] g1 in
    if negb (LINK_STATUS d vertexShader fragmentShader) then
      (setup_emit [gl_deleteProgram prog] g2,
       Failed (Error_ProgramLinkingFailed
                 (getProgramInfoLog d vertexShader fragmentShader)))
    else (g2, Done prog).

(** The six corners of the two triangles of the quad. *)
Definition quadPositions : list number :=
  map ofZ [-1; -1; 1; -1; -1; 1; -1; 1; 1; -1; 1; 1]%Z.

Definition createQuadBuffer (d : Driver) (g : SetupGL)
    : SetupGL * Outcome WebGLBuffer :=
  if createBufferFails d then
    (setup_emit [gl_createBuffer None] g, Failed Error_FailedToCreateQuadBuffer)
  else
    let (g1, buffer) := setup_create gl_createBuffer g in
    (setup_emit [gl_bindBuffer buffer; gl_bufferData quadPositions] g1, Done buffer).

(** ** [src/hooks/useWebGL.ts] *)

Inductive SetupMsg :=
  | setup_log (msg : string)
  | setup_warn (msg : ConsoleMsg)
  | setup_error (msg : string) (error : SetupError).

(** The hook and its world: the context of the canvas (a canvas gives
    the same context every time it is asked), the state and the refs of
    the hook, and the console. *)
Record WebGLHook := {
  context : SetupGL;
  programInfoState : option WebGLProgramInfo;
  glRef : bool;
  programRef : option WebGLProgram;
  quadBufferRef : option WebGLBuffer;
  setupConsole : list SetupMsg
}.

(** The [try] block once the context is at hand, up to its end or to
    the first exception: the context, the two refs the block assigns, and
    what it hands to [setProgramInfo] with the warnings it printed. *)
Definition useWebGL_try (d : Driver) (g : SetupGL)
    (uniformsRef : option Uniforms) (vertexShader fragmentShader : string)
    (programRef0 : option WebGLProgram) (quadBufferRef0 : option WebGLBuffer)
    : SetupGL * option WebGLProgram * option WebGLBuffer
      * Outcome (WebGLProgramInfo * list ConsoleMsg) :=
  match compileShader d g VERTEX_SHADER vertexShader with
  | (g1, Failed e) => (g1, programRef0, quadBufferRef0, Failed e)
  | (g1, Done compiledVertexShader) =>
      match compileShader d g1 FRAGMENT_SHADER fragmentShader with
      | (g2, Failed e) => (g2, programRef0, quadBufferRef0, Failed e)
      | (g2, Done compiledFragmentShader) =>
          match createProgram d g2 compiledVertexShader compiledFragmentShader with
          | (g3, Failed e) => (g3, programRef0, quadBufferRef0, Failed e)
          | (g3, Done prog) =>
              let g4 := setup_emit [gl_useProgram prog] g3 in
              match createQuadBuffer d g4 with
              | (g5, Failed e) => (g5, Some prog, quadBufferRef0, Failed e)
              | (g5, Done quadBuffer) =>
                  let posLoc := getAttribLocation d prog "a_position" in
                  let g6 :=
                    setup_emit
                      [gl_enableVertexAttribArray posLoc;
                       gl_vertexAttribPointer posLoc 2 false 0 0] g5 in
                  let result :=
                    useWebGL_programInfo (activeUniforms d prog) uniformsRef in
                  let g7 :=
                    setup_emit [gl_deleteShader compiledVertexShader;
                                gl_deleteShader compiledFragmentShader] g6 in
                  (g7, Some prog, Some quadBuffer, Done result)
              end
          end
      end
  end.

(** The effect: nothing without a canvas; otherwise the [try] block, and
    in the [catch] block the error is printed and the program info set
    to [null]. *)
Definition useWebGL_effect (d : Driver) (canvas : bool)
    (uniformsRef : option Uniforms) (vertexShader fragmentShader : string)
    (h : WebGLHook) : WebGLHook :=
  if negb canvas then h
  else
    let out := setupConsole h ++ [setup_log "Initializing WebGL context..."] in
    if negb (getContext d) then
      {| context := context h; programInfoState := None; glRef := glRef h;
         programRef := programRef h; quadBufferRef := quadBufferRef h;
         setupConsole :=
           out ++ [setup_error "WebGL initialization error:"
                     Error_WebGLNotSupported] |}
    else
      match useWebGL_try d (context h) uniformsRef vertexShader fragmentShader
              (programRef h) (quadBufferRef h) with
      | (g, p, b, Done (info, warnings)) =>
          {| context := g; programInfoState := Some info; glRef := true;
             programRef := p; quadBufferRef := b;
             setupConsole := out ++ map setup_warn warnings |}
      | (g, p, b, Failed err) =>
          {| context := g; programInfoState := None; glRef := true;
             programRef := p; quadBufferRef := b;
             setupConsole :=
               out ++ [setup_error "WebGL initialization error:" err] |}
      end.

(** The cleanup of the effect. *)
Definition useWebGL_cleanup (h : WebGLHook) : WebGLHook :=
  {| context :=
       match glRef h, programRef h with
       | true, Some prog =>
           let g1 := setup_emit [gl_deleteProgram prog] (context h) in
           match quadBufferRef h with
           | Some buffer => setup_emit [gl_deleteBuffer buffer] g1
           | None => g1
           end
       | _, _ => context h
       end;
     programInfoState := programInfoState h;
     glRef := false; programRef := None; quadBufferRef := None;
     setupConsole := setupConsole h |}.

(** ** [src/utils/colors.ts]

    The bitwise operators read their operands as 32-bit integers
    ([ToInt32]) and give a 32-bit integer; these integers are held in
    [Z], with the wrap-around of a left shift written out. *)
Definition wrap32 (k : Z) : Z := ((k + 2 ^ 31) mod 2 ^ 32 - 2 ^ 31)%Z.

Definition ToInt32 (x : number) : Z :=
  match toInteger x with
  | Some k => wrap32 k
  | None => 0%Z
  end.

(** [x + y] on numbers. *)
Definition add (x y : number) : number := SFadd prec emax x y.

(** [hexToRgb]: the components [r], [g] and [b]. *)
Definition hexToRgb (hex : number) : Z * Z * Z :=
  (Z.land (Z.shiftr (ToInt32 hex) 16) 255,
   Z.land (Z.shiftr (ToInt32 hex) 8) 255,
   Z.land (ToInt32 hex) 255).

Definition rgbToHex (r g b : number) : Z :=
  Z.lor (Z.lor (wrap32 (Z.shiftl (ToInt32 r) 16)) (wrap32 (Z.shiftl (ToInt32 g) 8)))
        (ToInt32 b).

Definition brighten (hex amount : number) : Z :=
  let '(r, g, b) := hexToRgb hex in
  rgbToHex (Math_min (ofZ 255) (add (ofZ r) (mul (ofZ 255) amount)))
           (Math_min (ofZ 255) (add (ofZ g) (mul (ofZ 255) amount)))
           (Math_min (ofZ 255) (add (ofZ b) (mul (ofZ 255) amount))).

Definition darken (hex amount : number) : Z :=
  let '(r, g, b) := hexToRgb hex in
  rgbToHex (Math_max (ofZ 0) (sub (ofZ r) (mul (ofZ 255) amount)))
           (Math_max (ofZ 0) (sub (ofZ g) (mul (ofZ 255) amount)))
           (Math_max (ofZ 0) (sub (ofZ b) (mul (ofZ 255) amount))).

(** ** Further vocabulary

    The definitions below serve the properties of the last sections of
    Part II. *)

(** The two zeros and a few snapshots used as examples. *)
Definition plusZero : number := S754_zero false.
Definition minusZero : number := S754_zero true.

Definition firstUpdate : ShaderCanvasProps :=
  {| uniforms := [ ("u_gain"%string, NumericUniform T_float (Num (ofZ 2))) ];
     pixelRatio := ofZ 1; options := None; onFrameRender := false |}.

Definition secondUpdate : ShaderCanvasProps :=
  {| uniforms := [ ("u_gain"%string, NumericUniform T_float (Num (ofZ 2)));
                   ("u_bias"%string, NumericUniform T_float (Num (ofZ 1))) ];
     pixelRatio := ofZ 1; options := None; onFrameRender := false |}.

(** [sampleSnapshot] with one value edited and one uniform added. *)
Definition editedSnapshot : Uniforms :=
  [ ("u_a"%string, NumericUniform T_float (Num (ofZ 1)));
    ("u_b"%string, NumericUniform T_vec2 (Arr [ofZ 0; ofZ 1]));
    ("u_c"%string, NumericUniform T_mat3 (F32 (repeat (ofZ 0) 9)));
    ("u_tex"%string, TextureUniform image1 (Some repeatOptions));
    ("u_vid"%string, TextureUniform video1 None);
    ("u_new"%string, NumericUniform T_float (Num (ofZ 3))) ].

Definition nanProps : ShaderCanvasProps :=
  {| uniforms := nanSnapshot; pixelRatio := ofZ 1; options := None;
     onFrameRender := false |}.

(** The location at which a call sets a uniform. *)
Definition callLocation (c : GLCall) : option WebGLUniformLocation :=
  match c with
  | gl_uniform1f loc _ | gl_uniform2f loc _ _ | gl_uniform3f loc _ _ _
  | gl_uniform4f loc _ _ _ _
  | gl_uniform1i loc _ | gl_uniform2i loc _ _ | gl_uniform3i loc _ _ _
  | gl_uniform4i loc _ _ _ _
  | gl_uniformMatrix3fv loc _ _ | gl_uniformMatrix4fv loc _ _ => Some loc
  | _ => None
  end.

Definition isMatrixType (t : NumericType) : bool :=
  match t with T_mat3 | T_mat4 => true | _ => false end.

(** The value of [UNPACK_FLIP_Y_WEBGL] in force at each [texImage2D] of a
    trace, given the value in force when the trace starts. *)
Fixpoint uploadFlips (flip : bool) (cs : list GLCall) : list bool :=
  match cs with
  | [] => []
  | gl_pixelStorei_UNPACK_FLIP_Y b :: r => uploadFlips b r
  | gl_texImage2D _ :: r => flip :: uploadFlips flip r
  | _ :: r => uploadFlips flip r
  end.

Definition isPixelOp (c : GLCall) : bool :=
  match c with
  | gl_pixelStorei_UNPACK_FLIP_Y _ | gl_texImage2D _ => true
  | _ => false
  end.

(** ** Texture units of the context

    The texture unit that is active once a trace has run. *)
Fixpoint activeAfter (active : nat) (cs : list GLCall) : nat :=
  match cs with
  | [] => active
  | gl_activeTexture a :: r => activeAfter a r
  | _ :: r => activeAfter active r
  end.

(** The texture bound to one unit once a trace has run: [bindTexture]
    binds at the active unit, and deleting a texture unbinds it. *)
Definition unbind (t : WebGLTexture) (cur : option WebGLTexture)
    : option WebGLTexture :=
  match cur with
  | Some t' => if Nat.eqb t' t then None else cur
  | None => None
  end.

Fixpoint unitBinding (u : nat) (active : nat) (cur : option WebGLTexture)
    (cs : list GLCall) : option WebGLTexture :=
  match cs with
  | [] => cur
  | gl_activeTexture a :: r => unitBinding u a cur r
  | gl_bindTexture t :: r =>
      unitBinding u active (if Nat.eqb active u then Some t else cur) r
  | gl_deleteTexture t :: r => unitBinding u active (unbind t cur) r
  | _ :: r => unitBinding u active cur r
  end.

Definition isBindingOp (c : GLCall) : bool :=
  match c with
  | gl_activeTexture _ | gl_bindTexture _ | gl_deleteTexture _ => true
  | _ => false
  end.

(** The texture bound to a unit of a context, from the calls it has
    received since it was created with unit 0 active and nothing bound. *)
Definition boundAt (g : GL) (u : nat) : option WebGLTexture :=
  unitBinding u 0 None (calls g).

(** Every binding of the hook is in force in the context: the texture of
    the binding is the one bound to its unit. *)
Definition bound_in_gl (st : State) : Prop :=
  forall name info,
    In (name, info) (texturesRef st) ->
    boundAt (gl st) (unit info) = Some (texture info).

(** Every unit in use is one of the units of the context. *)
Definition units_in_range (st : State) : Prop :=
  forall u, In u (Map_values (textureUnitsRef st)) ->
            u < MAX_COMBINED_TEXTURE_IMAGE_UNITS (gl st).

(** ** The callbacks of the component as events

    When React runs an effect or a callback is not decided here: a
    history of the component is a list of the events below, each with the
    values its closure captured and the readings it makes of the world. *)
Inductive Event :=
  | TexturesEffect (dom : Dom) (glAvailable : bool)
      (textureUniforms : option (JSMap TextureEntry))
  | TexturesCleanup (glAvailable : bool)
  | UniformsEffect (props : ShaderCanvasProps)
  | MouseEffect (mousePositionState : number * number)
  | AnimationFrame (programInfo : option WebGLProgramInfo)
      (options : option ShaderCanvasOptions) (time now : number)
  | Resize (programInfo : option WebGLProgramInfo) (pixelRatio now now' : number).

Definition step (st : State) (e : Event) : State :=
  match e with
  | TexturesEffect dom glAvailable textureUniforms =>
      useTextures_effect dom glAvailable textureUniforms st
  | TexturesCleanup glAvailable => useTextures_cleanup glAvailable st
  | UniformsEffect props => ShaderCanvas_uniformsEffect props st
  | MouseEffect mousePositionState =>
      ShaderCanvas_mouseEffect mousePositionState st
  | AnimationFrame programInfo options time now =>
      renderLoop programInfo options time now st
  | Resize programInfo pixelRatio now now' =>
      handleResize programInfo pixelRatio now now' st
  end.

Definition run (events : list Event) (st : State) : State :=
  fold_left step events st.

(** The calls that touch neither a texture nor a texture unit: uniform
    calls, clears, viewports and draws. *)
Definition isPlainCall (c : GLCall) : bool :=
  match c with
  | gl_clearColor _ _ _ _ | gl_clear | gl_viewport _ _ _ _ | gl_drawArrays _ _ => true
  | _ => match callLocation c with Some _ => true | None => false end
  end.

(** The pool of texture units is in order: the bindings are well formed,
    each is in force in the context, and no unit is out of range. *)
Record pool_ok (st : State) : Prop := {
  ok_wf : bindings_wf st;
  ok_bound : bound_in_gl st;
  ok_range : units_in_range st
}.

(** A history used as an example: two textures are bound, a frame is
    drawn, the first texture leaves the snapshot, the canvas is resized
    and another frame is drawn. *)
Definition sampleHistory : list Event :=
  [ TexturesEffect readyDom true (Some twoTextures);
    AnimationFrame (Some bareProgram) None (ofZ 16) (ofZ 16);
    TexturesEffect readyDom true (Some [ ("u_tex2"%string, (image2, None)) ]);
    Resize (Some bareProgram) (ofZ 2) (ofZ 20) (ofZ 20);
    AnimationFrame (Some bareProgram) None (ofZ 32) (ofZ 32) ].

Definition isDelete (c : GLCall) : bool :=
  match c with gl_deleteTexture _ => true | _ => false end.

Definition isCreate (c : GLCall) : bool :=
  match c with gl_createTexture => true | _ => false end.

(** The texture uniforms of a snapshot, in its order: what the map that
    [useTextures] memoises holds when no name occurs twice. *)
Definition textureEntries (uniforms : Uniforms) : JSMap TextureEntry :=
  flat_map
    (fun entry : string * UniformValue =>
       match snd entry with
       | TextureUniform value options => [(fst entry, (value, options))]
       | NumericUniform _ _ => []
       end)
    uniforms.

(** The frame times that a run of frames reports, from the readings of
    [performance.now()] and the time kept in [lastFrameTimeRef]. *)
Fixpoint frameTimesFrom (last : number) (nows : list number) : list number :=
  match nows with
  | [] => []
  | now :: rest => sub now last :: frameTimesFrom now rest
  end.

(** A component that reports its frame times. *)
Definition reportingState : State :=
  {| gl := gl0; console := [];
     texturesRef := []; textureUnitsRef := [];
     canvasRef := Some canvas0; uniformsRef := [];
     previousUniformsRef := None; changedUniformsRef := [];
     mousePosition := (ofZ 0, ofZ 0);
     lastFrameTimeRef := ofZ 100; onFrameRenderRef := true;
     renderFnRef := None; frameTimes := [] |}.

(** A canvas of 200 by 100 pixels at the origin, a pointer left of it
    and below its middle, and a rectangle without area. *)
Definition sampleRect : DOMRect :=
  {| rect_left := ofZ 0; rect_top := ofZ 0;
     rect_width := ofZ 200; rect_height := ofZ 100 |}.

Definition samplePointer : MouseEvent :=
  {| clientX := ofZ (-40); clientY := ofZ 50 |}.

Definition emptyRect : DOMRect :=
  {| rect_left := ofZ 0; rect_top := ofZ 0;
     rect_width := ofZ 0; rect_height := ofZ 0 |}.

Definition cornerPointer : MouseEvent :=
  {| clientX := ofZ 0; clientY := ofZ 0 |}.

(** A program that declares [u_gain] and [u_bias], linked while the
    snapshot holds [u_gain] and [u_unused]. *)
Definition gainProgram : JSMap WebGLUniformLocation :=
  [ ("u_gain"%string, 3); ("u_bias"%string, 4) ].

Definition linkSnapshot : Uniforms :=
  [ ("u_gain"%string, NumericUniform T_float (Num (ofZ 2)));
    ("u_unused"%string, NumericUniform T_float (Num (ofZ 0))) ].

(** ** The parameters of a texture

    The value a trace leaves in one parameter of one texture:
    [texParameteri] sets the parameter of the texture bound at the active
    unit.  [bindings] gives the texture bound at each unit when the trace
    starts, [cur] the value of the parameter at that time. *)
Definition TexParameter_eqb (p q : TexParameter) : bool :=
  match p, q with
  | TEXTURE_WRAP_S, TEXTURE_WRAP_S | TEXTURE_WRAP_T, TEXTURE_WRAP_T
  | TEXTURE_MIN_FILTER, TEXTURE_MIN_FILTER
  | TEXTURE_MAG_FILTER, TEXTURE_MAG_FILTER => true
  | _, _ => false
  end.

Definition isBound (bindings : nat -> option WebGLTexture) (active : nat)
    (t : WebGLTexture) : bool :=
  match bindings active with
  | Some t' => Nat.eqb t' t
  | None => false
  end.

Fixpoint paramAfter (t : WebGLTexture) (pname : TexParameter) (active : nat)
    (bindings : nat -> option WebGLTexture) (cur : option Z) (cs : list GLCall)
    : option Z :=
  match cs with
  | [] => cur
  | gl_activeTexture a :: r => paramAfter t pname a bindings cur r
  | gl_bindTexture t' :: r =>
      paramAfter t pname active
        (fun u => if Nat.eqb u active then Some t' else bindings u) cur r
  | gl_deleteTexture t' :: r =>
      paramAfter t pname active (fun u => unbind t' (bindings u))
        (if Nat.eqb t' t then None else cur) r
  | gl_texParameteri p v :: r =>
      paramAfter t pname active bindings
        (if isBound bindings active t && TexParameter_eqb p pname
         then Some v else cur) r
  | _ :: r => paramAfter t pname active bindings cur r
  end.

(** The code an options object gives for a parameter, and the code
    [createTexture] falls back to. *)
Definition optionCode (options : option TextureOptions) (pname : TexParameter)
    : option Z :=
  match options with
  | None => None
  | Some o =>
      match pname with
      | TEXTURE_WRAP_S => option_map TextureWrap_code (wrapS o)
      | TEXTURE_WRAP_T => option_map TextureWrap_code (wrapT o)
      | TEXTURE_MIN_FILTER => option_map TextureFilter_code (minFilter o)
      | TEXTURE_MAG_FILTER => option_map TextureFilter_code (magFilter o)
      end
  end.

Definition defaultCode (pname : TexParameter) : Z :=
  match pname with
  | TEXTURE_WRAP_S | TEXTURE_WRAP_T => TextureWrap_code CLAMP_TO_EDGE
  | TEXTURE_MIN_FILTER | TEXTURE_MAG_FILTER => TextureFilter_code LINEAR
  end.

(** ** The objects of the set-up

    The objects a trace has created and not deleted, given the ones that
    were live when it started. *)
Fixpoint undeletedFrom (live : list nat) (cs : list SetupCall) : list nat :=
  match cs with
  | [] => live
  | gl_createShader _ (Some o) :: r
  | gl_createProgram (Some o) :: r
  | gl_createBuffer (Some o) :: r => undeletedFrom (live ++ [o]) r
  | gl_deleteShader o :: r
  | gl_deleteProgram o :: r
  | gl_deleteBuffer o :: r => undeletedFrom (remove Nat.eq_dec o live) r
  | _ :: r => undeletedFrom live r
  end.

(** The vertex shader of a set-up compiles, the fragment shader does,
    and the whole set-up succeeds; [g] is the context before the set-up,
    whose next two objects are the two shaders. *)
Definition vertexCompiles (d : Driver) (vertexShader : string) : bool :=
  getContext d && negb (createShaderFails d VERTEX_SHADER)
  && COMPILE_STATUS d VERTEX_SHADER vertexShader.

Definition fragmentCompiles (d : Driver) (fragmentShader : string) : bool :=
  negb (createShaderFails d FRAGMENT_SHADER)
  && COMPILE_STATUS d FRAGMENT_SHADER fragmentShader.

Definition setupSucceeds (d : Driver) (g : SetupGL)
    (vertexShader fragmentShader : string) : bool :=
  vertexCompiles d vertexShader && fragmentCompiles d fragmentShader
  && negb (createProgramFails d)
  && LINK_STATUS d (nextObject g) (S (nextObject g))
  && negb (createBufferFails d).

(** A hook that has not run yet, on a context that has received no
    call. *)
Definition unmounted : WebGLHook :=
  {| context := {| nextObject := 0; setupCalls := [] |};
     programInfoState := None; glRef := false;
     programRef := None; quadBufferRef := None; setupConsole := [] |}.

(** A driver on which everything works and the program declares
    [u_gain] and [u_bias], and one on which the fragment shader does not
    compile. *)
Definition goodDriver : Driver :=
  {| getContext := true;
     createShaderFails := fun _ => false;
     createProgramFails := false;
     createBufferFails := false;
     COMPILE_STATUS := fun _ _ => true;
     getShaderInfoLog := fun _ _ => EmptyString;
     LINK_STATUS := fun _ _ => true;
     getProgramInfoLog := fun _ _ => EmptyString;
     getAttribLocation := fun _ _ => 0%Z;
     activeUniforms := fun _ => gainProgram |}.

Definition badFragmentDriver : Driver :=
  {| getContext := true;
     createShaderFails := fun _ => false;
     createProgramFails := false;
     createBufferFails := false;
     COMPILE_STATUS :=
       fun type _ => match type with VERTEX_SHADER => true | FRAGMENT_SHADER => false end;
     getShaderInfoLog := fun _ _ => "syntax error"%string;
     LINK_STATUS := fun _ _ => true;
     getProgramInfoLog := fun _ _ => EmptyString;
     getAttribLocation := fun _ _ => 0%Z;
     activeUniforms := fun _ => gainProgram |}.

Definition isDeleteOf (t : WebGLTexture) (c : GLCall) : bool :=
  match c with gl_deleteTexture t' => Nat.eqb t' t | _ => false end.

(** A state in which the texture of [u_tex] is bound and the uniform is
    marked as changed, and a program that declares it. *)
Definition samplerSnapshot : Uniforms :=
  [ ("u_tex"%string, TextureUniform image1 None) ].

Definition samplerHistory : list Event :=
  [ UniformsEffect {| uniforms := samplerSnapshot; pixelRatio := ofZ 1;
                      options := None; onFrameRender := false |};
    TexturesEffect readyDom true (textureUniformsOf (Some samplerSnapshot)) ].

Definition samplerProgram : WebGLProgramInfo :=
  {| program := [ ("u_tex"%string, 5) ];
     uniformLocations := [ ("u_tex"%string, 5) ] |}.

(** A video that has no frame yet, among sources that are ready. *)
Definition waitingDom : Dom :=
  fun s =>
    match src_kind s with
    | HTMLVideoElement => {| complete := false; naturalWidth := 0; readyState := 0 |}
    | _ => {| complete := true; naturalWidth := 1; readyState := 4 |}
    end.

(* ================================================================= *)
(** * Part II.  Properties                                            *)
(* ================================================================= *)

(** ** Numbers, lists, maps and sets *)

Lemma strictEq_refl (x : number) : isNaN x = false -> strictEq x x = true.
Proof.
  destruct x as [s|s| |s m e]; simpl; try discriminate; intros _.
  - reflexivity.
  - destruct s; reflexivity.
  - unfold strictEq, SFeqb, SFcompare.
    destruct s; rewrite Z.compare_refl, Pos.compare_cont_refl; reflexivity.
Qed.

Section MapFacts.
Variable V : Type.
Implicit Types (m : JSMap V) (k : string).

Lemma Map_get_In m k v : Map_get m k = Some v -> In (k, v) m.
Proof.
  induction m as [|[k' w] r IH]; simpl; [discriminate|].
  destruct (String.eqb k k') eqn:E.
  - apply String.eqb_eq in E. intros [= ->]. left. now subst.
  - intros H. right. auto.
Qed.

Lemma Map_get_None m k : Map_get m k = None <-> ~ In k (Map_keys m).
Proof.
  induction m as [|[k' w] r IH]; simpl.
  - tauto.
  - destruct (String.eqb k k') eqn:E.
    + apply String.eqb_eq in E. subst. split; [discriminate|tauto].
    + apply String.eqb_neq in E. rewrite IH. split.
      * intros H [H1|H1]; [congruence|tauto].
      * tauto.
Qed.

Lemma Map_get_Some_key m k v : Map_get m k = Some v -> In k (Map_keys m).
Proof.
  intros H. apply Map_get_In in H.
  apply (in_map fst) in H. exact H.
Qed.

Lemma Map_get_key m k : In k (Map_keys m) -> exists v, Map_get m k = Some v.
Proof.
  intros H. destruct (Map_get m k) eqn:E; [eauto|].
  apply Map_get_None in E. contradiction.
Qed.

Lemma Map_get_set m k k' v :
  Map_get (Map_set m k v) k' = if String.eqb k' k then Some v else Map_get m k'.
Proof.
  induction m as [|[k0 w] r IH]; simpl.
  - reflexivity.
  - destruct (String.eqb k k0) eqn:E; simpl.
    + apply String.eqb_eq in E. subst k0.
      destruct (String.eqb k' k); reflexivity.
    + rewrite IH. destruct (String.eqb k' k0) eqn:E1; [|reflexivity].
      apply String.eqb_eq in E1. subst k0.
      destruct (String.eqb k' k) eqn:E2; [|reflexivity].
      apply String.eqb_eq in E2. subst. rewrite String.eqb_refl in E. discriminate.
Qed.

End MapFacts.

Lemma Set_has_In (s : StrSet) (x : string) : Set_has s x = true <-> In x s.
Proof.
  unfold Set_has. rewrite existsb_exists. split.
  - intros [y [Hy E]]. apply String.eqb_eq in E. now subst.
  - intros H. exists x. split; [exact H|apply String.eqb_refl].
Qed.

Lemma Set_add_In (s : StrSet) (x y : string) :
  In y (Set_add s x) <-> In y s \/ y = x.
Proof.
  unfold Set_add. destruct (Set_has s x) eqn:E.
  - apply Set_has_In in E. split; [tauto|]. intros [H| ->]; assumption.
  - rewrite in_app_iff. simpl. intuition.
Qed.

Lemma Set_add_NoDup (s : StrSet) (x : string) : NoDup s -> NoDup (Set_add s x).
Proof.
  intros H. unfold Set_add. destruct (Set_has s x) eqn:E; [exact H|].
  assert (Hx : ~ In x s).
  { intros Hin. apply Set_has_In in Hin. congruence. }
  clear E. induction H as [|a l Ha Hl IH]; simpl.
  - constructor; [simpl; tauto|constructor].
  - constructor.
    + rewrite in_app_iff. simpl. intros [H1|[H1|[]]]; [tauto|].
      subst. apply Hx. now left.
    + apply IH. intros H1. apply Hx. now right.
Qed.

(** Collecting into a set the keys that pass a test. *)
Section Collect.
Variable P : string -> bool.
Variable f : StrSet -> string -> StrSet.
Hypothesis Hf : forall s k, f s k = if P k then Set_add s k else s.

Lemma collect_In (l : list string) (acc : StrSet) (x : string) :
  In x (fold_left f l acc) <-> In x acc \/ (In x l /\ P x = true).
Proof.
  revert acc. induction l as [|k l IH]; intros acc; simpl.
  - tauto.
  - rewrite IH, Hf. destruct (P k) eqn:E.
    + rewrite Set_add_In. split.
      * intros [[H| ->]|[H1 H2]]; auto.
      * intros [H|[[ ->|H1] H2]]; auto.
    + split.
      * intros [H|[H1 H2]]; auto.
      * intros [H|[[ ->|H1] H2]]; auto. congruence.
Qed.

Lemma collect_NoDup (l : list string) (acc : StrSet) :
  NoDup acc -> NoDup (fold_left f l acc).
Proof.
  revert acc. induction l as [|k l IH]; intros acc H; simpl; [exact H|].
  apply IH. rewrite Hf. destruct (P k); [apply Set_add_NoDup|]; exact H.
Qed.
End Collect.

(** ** The diff engine *)

Lemma pairwise_length (x y : list number) :
  pairwise x y = true -> List.length x = List.length y.
Proof.
  revert y. induction x as [|a x IH]; destruct y as [|b y]; simpl;
    try discriminate; auto.
  intros H. apply andb_true_iff in H. f_equal. apply IH. tauto.
Qed.

Lemma everyFrom_pairwise (x y pre : list number) :
  List.length x = List.length y ->
  everyFrom (fun v i => strictEqIdx v (nth_error (pre ++ y) i)) (List.length pre) x
  = pairwise x y.
Proof.
  revert y pre. induction x as [|a x IH]; destruct y as [|b y]; simpl;
    try discriminate; auto.
  intros pre Hlen.
  rewrite nth_error_app2, Nat.sub_diag by lia. simpl. f_equal.
  replace (pre ++ b :: y) with ((pre ++ [b]) ++ y)
    by (rewrite <- app_assoc; reflexivity).
  replace (S (List.length pre)) with (List.length (pre ++ [b]))
    by (rewrite length_app; simpl; lia).
  apply IH. lia.
Qed.

(** The two array branches of [uniformsEqual] compare element-wise. *)
Lemma arrayBranch_pairwise (x y : list number) :
  (if negb (List.length x =? List.length y) then false
   else every (fun v i => strictEqIdx v (nth_error y i)) x)
  = pairwise x y.
Proof.
  destruct (List.length x =? List.length y) eqn:E; simpl.
  - apply Nat.eqb_eq in E. apply (everyFrom_pairwise x y []). exact E.
  - apply Nat.eqb_neq in E. destruct (pairwise x y) eqn:Hp; [|reflexivity].
    apply pairwise_length in Hp. contradiction.
Qed.

Lemma pairwise_false (x y : list number) :
  pairwise x y = false <-> exists i, differAt x y i.
Proof.
  revert y. induction x as [|a x IH]; destruct y as [|b y]; simpl.
  - split; [discriminate|]. intros [i H]. unfold differAt in H.
    destruct i; simpl in H; contradiction.
  - split; [|reflexivity]. intros _. exists 0. exact I.
  - split; [|reflexivity]. intros _. exists 0. exact I.
  - rewrite andb_false_iff, IH. split.
    + intros [H|[i H]]; [exists 0; exact H|exists (S i); exact H].
    + intros [[|i] H]; [left; exact H|right; exists i; exact H].
Qed.

Lemma pairwise_refl (x : list number) :
  existsb isNaN x = false -> pairwise x x = true.
Proof.
  induction x as [|a x IH]; simpl; [reflexivity|].
  intros H. apply orb_false_iff in H. destruct H as [Ha Hx].
  rewrite (strictEq_refl a Ha). simpl. auto.
Qed.

Lemma opt_eqb_false (A : Type) (dec : forall a b : A, {a = b} + {a <> b})
    (x y : option A) : opt_eqb dec x y = false <-> x <> y.
Proof.
  destruct x as [a|], y as [b|]; simpl; try (split; congruence).
  destruct (dec a b); split; congruence.
Qed.

Lemma opt_eqb_refl (A : Type) (dec : forall a b : A, {a = b} + {a <> b})
    (x : option A) : opt_eqb dec x x = true.
Proof.
  destruct x as [a|]; simpl; [|reflexivity].
  destruct (dec a a); congruence.
Qed.

Lemma optionsFieldsEqual_false (a b : TextureOptions) :
  optionsFieldsEqual a b = false <-> optionsDiffer (Some a) (Some b).
Proof.
  unfold optionsFieldsEqual. simpl.
  rewrite !andb_false_iff, !opt_eqb_false. tauto.
Qed.

(** What [uniformsEqual] decides. *)
Lemma uniformsEqual_false (a b : UniformValue) :
  uniformsEqual a b = false <-> unequal a b.
Proof.
  unfold uniformsEqual, unequal, spec_unequal.
  destruct (UniformType_eq_dec (typeOf a) (typeOf b)) as [E|E].
  2:{ split; [intros _; left; left; exact E|reflexivity]. }
  destruct a as [ta va|sa oa], b as [tb vb|sb ob]; simpl in E; try discriminate.
  - destruct va as [x|x|x], vb as [y|y|y]; simpl;
      rewrite ?arrayBranch_pairwise.
    + unfold elementDiffers. simpl. split.
      * intros H. left. right. exists 0. exact H.
      * intros [[H|[i H]]|H]; try congruence.
        destruct i as [|[|i]]; simpl in H; try contradiction. exact H.
    + split; [intros _; right; discriminate|reflexivity].
    + split; [intros _; right; discriminate|reflexivity].
    + split; [intros _; right; discriminate|reflexivity].
    + rewrite pairwise_false. unfold elementDiffers. simpl. split.
      * intros H. left. right. exact H.
      * intros [[H|H]|H]; try congruence; try exact H.
    + split; [intros _; right; discriminate|reflexivity].
    + split; [intros _; right; discriminate|reflexivity].
    + split; [intros _; right; discriminate|reflexivity].
    + rewrite pairwise_false. unfold elementDiffers. simpl. split.
      * intros H. left. right. exact H.
      * intros [[H|H]|H]; try congruence; try exact H.
  - destruct (Source_eq_dec sa sb) as [Es|Es].
    2:{ split; [intros _; left; right; left; exact Es|reflexivity]. }
    destruct oa as [ao|], ob as [bo|].
    + rewrite optionsFieldsEqual_false. split.
      * intros H. left. right. right. exact H.
      * intros [[H|[H|H]]|[]]; [elim H; reflexivity|contradiction|exact H].
    + split; [intros _; left; right; right; exact I|reflexivity].
    + split; [intros _; left; right; right; exact I|reflexivity].
    + split; [discriminate|]. simpl. intros [[H|[H|[]]]|[]]; congruence.
Qed.

Lemma uniformsEqual_clone (u : UniformValue) :
  hasNaN u = false -> uniformsEqual u (cloneUniformValue u) = true.
Proof.
  intros H. unfold uniformsEqual.
  destruct u as [t v|s o]; cbn [typeOf cloneUniformValue hasNaN] in *.
  - destruct (UniformType_eq_dec (T_numeric t) (T_numeric t)); [|congruence].
    destruct v as [x|x|x]; cbn [elements existsb] in H;
      rewrite ?map_id, ?arrayBranch_pairwise.
    + apply strictEq_refl. apply orb_false_iff in H. tauto.
    + apply pairwise_refl. exact H.
    + apply pairwise_refl. exact H.
  - destruct (Source_eq_dec s s); [|congruence].
    destruct o as [o|]; [|reflexivity].
    unfold optionsFieldsEqual. simpl. now rewrite !opt_eqb_refl.
Qed.

Lemma diffStep_isChanged (current previous : Uniforms) (s : StrSet) (k : string) :
  match Map_get current k with
  | None => s
  | Some c =>
      match Map_get previous k with
      | None => Set_add s k
      | Some p => if negb (uniformsEqual c p) then Set_add s k else s
      end
  end = if isChanged current previous k then Set_add s k else s.
Proof.
  unfold isChanged.
  destruct (Map_get current k) as [c|]; [|reflexivity].
  destruct (Map_get previous k) as [p|]; reflexivity.
Qed.

Lemma getChangedUniforms_In (current previous : Uniforms) (name : string) :
  In name (getChangedUniforms current (Some previous))
  <-> isChanged current previous name = true.
Proof.
  unfold getChangedUniforms.
  rewrite (collect_In (isChanged current previous) _
             (diffStep_isChanged current previous)).
  simpl. split.
  - intros [[]|[_ H]]. exact H.
  - intros H. right. split; [|exact H].
    unfold isChanged in H. destruct (Map_get current name) eqn:E; [|discriminate].
    eapply Map_get_Some_key; eauto.
Qed.

Lemma getChangedUniforms_first_In (current : Uniforms) (name : string) :
  In name (getChangedUniforms current None) <-> In name (Map_keys current).
Proof.
  unfold getChangedUniforms, Set_of.
  rewrite (collect_In (fun _ => true) Set_add (fun s k => eq_refl)).
  simpl. tauto.
Qed.

Lemma getChangedUniforms_NoDup (current : Uniforms) (previous : option Uniforms) :
  NoDup (getChangedUniforms current previous).
Proof.
  destruct previous as [previous|]; unfold getChangedUniforms, Set_of.
  - apply (collect_NoDup (isChanged current previous) _
             (diffStep_isChanged current previous)). constructor.
  - apply (collect_NoDup (fun _ => true) Set_add (fun s k => eq_refl)).
    constructor.
Qed.

Lemma isChanged_changedName (current previous : Uniforms) (name : string) :
  isChanged current previous name = true
  <-> changedName unequal current previous name.
Proof.
  unfold isChanged, changedName.
  destruct (Map_get current name) as [c|].
  - destruct (Map_get previous name) as [p|].
    + rewrite negb_true_iff, uniformsEqual_false. split.
      * intros H. exists c. split; [reflexivity|]. right. exists p. auto.
      * intros [c' [[= <-] [H|[p' [[= <-] H]]]]]; [discriminate|exact H].
    + split; [|reflexivity]. intros _. exists c. auto.
  - split; [discriminate|]. intros [c [H _]]. discriminate.
Qed.

Lemma cloneFold_get (A : Uniforms) (l : list string) (acc : Uniforms)
    (key : string) :
  Map_get
    (fold_left
       (fun cloned k =>
          match Map_get A k with
          | Some u => Map_set cloned k (cloneUniformValue u)
          | None => cloned
          end) l acc) key
  = match (if existsb (String.eqb key) l then Map_get A key else None) with
    | Some u => Some (cloneUniformValue u)
    | None => Map_get acc key
    end.
Proof.
  revert acc. induction l as [|k l IH]; intros acc; simpl; [reflexivity|].
  rewrite IH. clear IH.
  destruct (String.eqb key k) eqn:E; simpl.
  - apply String.eqb_eq in E. subst k.
    destruct (Map_get A key) as [u|] eqn:EA.
    + destruct (existsb (String.eqb key) l); [reflexivity|].
      now rewrite Map_get_set, String.eqb_refl.
    + destruct (existsb (String.eqb key) l); reflexivity.
  - destruct (existsb (String.eqb key) l).
    + destruct (Map_get A key); [reflexivity|].
      destruct (Map_get A k); [|reflexivity].
      now rewrite Map_get_set, E.
    + destruct (Map_get A k); [|reflexivity].
      now rewrite Map_get_set, E.
Qed.

Lemma cloneUniforms_get (A : Uniforms) (key : string) :
  Map_get (cloneUniforms A) key
  = match Map_get A key with
    | Some u => Some (cloneUniformValue u)
    | None => None
    end.
Proof.
  unfold cloneUniforms. rewrite cloneFold_get. simpl.
  destruct (existsb (String.eqb key) (Map_keys A)) eqn:E; [reflexivity|].
  destruct (Map_get A key) eqn:EA; [|reflexivity].
  apply Map_get_Some_key in EA.
  assert (H : existsb (String.eqb key) (Map_keys A) = true).
  { apply existsb_exists. exists key. split; [exact EA|apply String.eqb_refl]. }
  congruence.
Qed.

Lemma no_member_nil (A : Type) (l : list A) : (forall x, ~ In x l) -> l = [].
Proof.
  destruct l as [|a l]; [reflexivity|]. intros H. elim (H a). now left.
Qed.

(** The names the effect on [uniforms] marks as changed are keys of the
    snapshot it stores, so the changed-uniform loop of a frame finds the
    uniform of every name it visits. *)
Lemma uniformsEffect_changed_are_keys (props : ShaderCanvasProps) (st : State)
    (name : string) :
  In name (changedUniformsRef (ShaderCanvas_uniformsEffect props st)) ->
  exists u, Map_get (uniformsRef (ShaderCanvas_uniformsEffect props st)) name = Some u.
Proof.
  simpl. intros Hin. apply Map_get_key.
  destruct (previousUniformsRef st) as [previous|].
  - apply getChangedUniforms_In in Hin. unfold isChanged in Hin.
    destruct (Map_get (uniforms props) name) eqn:E; [|discriminate].
    eapply Map_get_Some_key; eauto.
  - now apply getChangedUniforms_first_In.
Qed.

(** ** The claims on the diff engine *)

(** C1 (amended).  [getChangedUniforms current previous] is the set of
    exactly those keys of [current] that are absent from [previous] or
    mapped there to a value [uniformsEqual] rejects: the kind differs, an
    element differs under [===], the numeric values are held in
    different representations, the texture source differs, or a field of
    the options differs (one side being without options included).  With
    no previous snapshot it is the key set of [current]; a name that is
    not a key of [current] is never in it; no name is listed twice. *)
Theorem getChangedUniforms_exact (current previous : Uniforms) (name : string) :
  (In name (getChangedUniforms current (Some previous))
   <-> changedName unequal current previous name) /\
  (In name (getChangedUniforms current None) <-> In name (Map_keys current)) /\
  (forall previous' : option Uniforms,
     ~ In name (Map_keys current) ->
     ~ In name (getChangedUniforms current previous')) /\
  (forall previous' : option Uniforms,
     NoDup (getChangedUniforms current previous')).
Proof.
  split; [|split; [|split]].
  - rewrite getChangedUniforms_In. apply isChanged_changedName.
  - apply getChangedUniforms_first_In.
  - intros [p|] Hnot Hin.
    + apply getChangedUniforms_In in Hin. unfold isChanged in Hin.
      apply Map_get_None in Hnot. rewrite Hnot in Hin. discriminate.
    + apply getChangedUniforms_first_In in Hin. contradiction.
  - intros p. apply getChangedUniforms_NoDup.
Qed.

Lemma getChangedUniforms_exact_witness :
  ~ In "u_old"%string (Map_keys removedCurrent) /\
  ~ In "u_old"%string (getChangedUniforms removedCurrent (Some removedPrevious)).
Proof.
  assert (H : ~ In "u_old"%string (Map_keys removedCurrent)).
  { simpl. intros [H|[]]. discriminate. }
  split; [exact H|].
  exact (proj1 (proj2 (proj2
           (getChangedUniforms_exact removedCurrent removedPrevious "u_old")))
           (Some removedPrevious) H).
Defined.

(** C1 as the specification words it fails: a name whose value is held
    as a plain array in one snapshot and as a [Float32Array] with the
    same elements in the other is reported, though it is a key of both,
    the kinds agree and no element differs. *)
Lemma getChangedUniforms_beyond_spec :
  In "u_m"%string (getChangedUniforms mixedCurrent (Some mixedPrevious)) /\
  ~ changedName spec_unequal mixedCurrent mixedPrevious "u_m".
Proof.
  split.
  - vm_compute. now left.
  - intros [c [Hc [Hp|[p [Hp Hd]]]]].
    + discriminate.
    + injection Hc as <-. injection Hp as <-.
      destruct Hd as [Hd|[i Hd]].
      * apply Hd. reflexivity.
      * destruct i as [|[|[|i]]]; vm_compute in Hd;
          try discriminate; try contradiction.
Qed.

(** C2 (amended).  For a snapshot none of whose numeric values holds a
    NaN, every entry of the clone is [uniformsEqual] to the entry it was
    cloned from, and diffing the snapshot against its clone yields the
    empty set. *)
Theorem clone_diff_empty (A : Uniforms) :
  (forall name u, Map_get A name = Some u -> hasNaN u = false) ->
  getChangedUniforms A (Some (cloneUniforms A)) = [] /\
  (forall name u, Map_get A name = Some u ->
     exists u', Map_get (cloneUniforms A) name = Some u' /\
                uniformsEqual u u' = true).
Proof.
  intros HA. split.
  - apply no_member_nil. intros name Hin.
    apply getChangedUniforms_In in Hin. unfold isChanged in Hin.
    rewrite cloneUniforms_get in Hin.
    destruct (Map_get A name) as [u|] eqn:E; [|discriminate].
    rewrite (uniformsEqual_clone u (HA name u E)) in Hin. discriminate.
  - intros name u E. exists (cloneUniformValue u). split.
    + now rewrite cloneUniforms_get, E.
    + apply uniformsEqual_clone. eapply HA; eauto.
Qed.

Lemma clone_diff_empty_witness :
  getChangedUniforms sampleSnapshot (Some (cloneUniforms sampleSnapshot)) = [].
Proof.
  refine (proj1 (clone_diff_empty sampleSnapshot _)).
  intros name u H. apply Map_get_In in H. simpl in H.
  repeat (destruct H as [H|H]; [injection H as <- <-; reflexivity|]).
  contradiction.
Defined.

(** C2 as stated fails: a snapshot holding a NaN differs from its own
    clone. *)
Lemma clone_diff_nonempty_NaN :
  getChangedUniforms nanSnapshot (Some (cloneUniforms nanSnapshot)) = ["u_nan"%string].
Proof. reflexivity. Qed.

(** C10.  Two numeric uniforms of one kind, one holding a plain array and
    the other a [Float32Array], are never [uniformsEqual], in either
    order and whatever their elements - also when the elements agree
    pairwise, so that no element differs; [getChangedUniforms] then
    reports the name. *)
Theorem uniformsEqual_across_representations (t : NumericType)
    (l l' : list number) :
  uniformsEqual (NumericUniform t (Arr l)) (NumericUniform t (F32 l')) = false /\
  uniformsEqual (NumericUniform t (F32 l)) (NumericUniform t (Arr l')) = false /\
  (pairwise l l' = true ->
   ~ elementDiffers (Arr l) (F32 l') /\ ~ elementDiffers (F32 l) (Arr l')) /\
  (forall (current previous : Uniforms) (name : string),
     (Map_get current name = Some (NumericUniform t (Arr l)) /\
      Map_get previous name = Some (NumericUniform t (F32 l'))) \/
     (Map_get current name = Some (NumericUniform t (F32 l)) /\
      Map_get previous name = Some (NumericUniform t (Arr l'))) ->
     In name (getChangedUniforms current (Some previous))).
Proof.
  assert (H1 : uniformsEqual (NumericUniform t (Arr l)) (NumericUniform t (F32 l')) = false).
  { unfold uniformsEqual. cbn [typeOf].
    destruct (UniformType_eq_dec (T_numeric t) (T_numeric t)); reflexivity. }
  assert (H2 : uniformsEqual (NumericUniform t (F32 l)) (NumericUniform t (Arr l')) = false).
  { unfold uniformsEqual. cbn [typeOf].
    destruct (UniformType_eq_dec (T_numeric t) (T_numeric t)); reflexivity. }
  split; [exact H1|]. split; [exact H2|]. split.
  - intros Hp. split; intros Hd; apply pairwise_false in Hd;
      simpl in Hd; congruence.
  - intros current previous name [[Hc Hp]|[Hc Hp]];
      apply getChangedUniforms_In; unfold isChanged; rewrite Hc, Hp.
    + now rewrite H1.
    + now rewrite H2.
Qed.

Lemma uniformsEqual_across_representations_witness :
  In "u_m"%string (getChangedUniforms mixedCurrent (Some mixedPrevious)) /\
  ~ elementDiffers (Arr [ofZ 1; ofZ 2]) (F32 [ofZ 1; ofZ 2]).
Proof.
  pose proof (uniformsEqual_across_representations T_vec2
                [ofZ 1; ofZ 2] [ofZ 1; ofZ 2]) as [_ [_ [Hel Hin]]].
  split.
  - apply Hin. left. split; reflexivity.
  - apply Hel. reflexivity.
Defined.
(** ** The texture-unit pool *)

Lemma find_seq_Some (P : nat -> bool) (a n i : nat) :
  find P (seq a n) = Some i <->
  a <= i < a + n /\ P i = true /\ forall j, a <= j < i -> P j = false.
Proof.
  revert a. induction n as [|n IH]; intros a; simpl.
  - split; [discriminate|lia].
  - destruct (P a) eqn:E.
    + split.
      * intros [= <-]. repeat split; try lia. exact E.
      * intros [H1 [H2 H3]].
        destruct (Nat.eq_dec a i) as [->|Hne]; [reflexivity|].
        rewrite (H3 a) in E by lia. discriminate.
    + rewrite IH. split.
      * intros [H1 [H2 H3]]. repeat split; try lia; auto.
        intros j Hj. destruct (Nat.eq_dec j a) as [->|]; [exact E|apply H3; lia].
      * intros [H1 [H2 H3]].
        assert (a <> i) by (intros ->; congruence).
        repeat split; try lia; auto. intros j Hj. apply H3. lia.
Qed.

Lemma find_seq_None (P : nat -> bool) (a n : nat) :
  find P (seq a n) = None <-> forall j, a <= j < a + n -> P j = false.
Proof.
  revert a. induction n as [|n IH]; intros a; simpl.
  - split; [intros _ j Hj; lia|reflexivity].
  - destruct (P a) eqn:E.
    + split; [discriminate|]. intros H. rewrite (H a) in E by lia. discriminate.
    + rewrite IH. split.
      * intros H j Hj. destruct (Nat.eq_dec j a) as [->|]; [exact E|apply H; lia].
      * intros H j Hj. apply H. lia.
Qed.

Lemma isFree_true (usedUnits : list nat) (i : nat) :
  isFree usedUnits i = true <-> ~ In i usedUnits.
Proof.
  unfold isFree. rewrite negb_true_iff. split.
  - intros H Hin. assert (existsb (Nat.eqb i) usedUnits = true); [|congruence].
    apply existsb_exists. exists i. split; [exact Hin|apply Nat.eqb_refl].
  - intros H. destruct (existsb (Nat.eqb i) usedUnits) eqn:E; [|reflexivity].
    apply existsb_exists in E. destruct E as [j [Hj E]].
    apply Nat.eqb_eq in E. subst. contradiction.
Qed.

Lemma isFree_false (usedUnits : list nat) (i : nat) :
  isFree usedUnits i = false <-> In i usedUnits.
Proof.
  unfold isFree. rewrite negb_false_iff, existsb_exists. split.
  - intros [j [Hj E]]. apply Nat.eqb_eq in E. now subst.
  - intros H. exists i. split; [exact H|apply Nat.eqb_refl].
Qed.

(** [getAvailableUnit] returns the smallest index below the number of
    units that no binding holds. *)
Lemma getAvailableUnit_Ok (g : GL) (textureUnits : JSMap nat) (i : nat) :
  getAvailableUnit g textureUnits = Ok i <->
  i < GL_maxUnits g /\ ~ In i (Map_values textureUnits) /\
  forall j, j < i -> In j (Map_values textureUnits).
Proof.
  unfold getAvailableUnit.
  change (fun i0 => negb (existsb (Nat.eqb i0) (Map_values textureUnits)))
    with (isFree (Map_values textureUnits)).
  destruct (find (isFree (Map_values textureUnits)) (seq 0 (GL_maxUnits g)))
    as [k|] eqn:E.
  - apply find_seq_Some in E. destruct E as [H1 [H2 H3]]. split.
    + intros [= <-]. split; [lia|]. split; [now apply isFree_true|].
      intros j Hj. apply isFree_false. apply H3. lia.
    + intros [G1 [G2 G3]]. f_equal.
      destruct (Nat.lt_trichotomy k i) as [Hlt|[Heq|Hgt]]; [|exact Heq|].
      * apply isFree_true in H2. elim H2. auto.
      * apply isFree_true in G2. rewrite (H3 i) in G2 by lia. discriminate.
  - split; [discriminate|]. intros [G1 [G2 G3]].
    apply isFree_true in G2.
    rewrite find_seq_None in E. rewrite (E i) in G2 by lia. discriminate.
Qed.

(** It throws exactly when every index below the number of units is
    held. *)
Lemma getAvailableUnit_Throw (g : GL) (textureUnits : JSMap nat) (e : Error) :
  getAvailableUnit g textureUnits = Throw e <->
  e = Error_NoAvailableTextureUnits (GL_maxUnits g) /\
  forall j, j < GL_maxUnits g -> In j (Map_values textureUnits).
Proof.
  unfold getAvailableUnit.
  change (fun i0 => negb (existsb (Nat.eqb i0) (Map_values textureUnits)))
    with (isFree (Map_values textureUnits)).
  destruct (find (isFree (Map_values textureUnits)) (seq 0 (GL_maxUnits g)))
    as [k|] eqn:E.
  - apply find_seq_Some in E. destruct E as [H1 [H2 H3]].
    split; [discriminate|]. intros [_ H].
    apply isFree_true in H2. elim H2. apply H. lia.
  - rewrite find_seq_None in E. split.
    + intros [= <-]. split; [reflexivity|].
      intros j Hj. apply isFree_false. apply E. lia.
    + intros [-> _]. reflexivity.
Qed.

(** ** More on maps *)

Section MapUpdates.
Variable V : Type.
Implicit Types (m : JSMap V) (k : string).

Lemma Map_set_new m k v : ~ In k (Map_keys m) -> Map_set m k v = m ++ [(k, v)].
Proof.
  induction m as [|[k' w] r IH]; simpl; [reflexivity|].
  intros H. destruct (String.eqb k k') eqn:E.
  - apply String.eqb_eq in E. subst. tauto.
  - f_equal. apply IH. tauto.
Qed.

Lemma Map_set_image (B : Type) (g : string * V -> B) m k v v' :
  Map_get m k = Some v -> g (k, v') = g (k, v) ->
  map g (Map_set m k v') = map g m.
Proof.
  induction m as [|[k' w] r IH]; simpl; [discriminate|].
  destruct (String.eqb k k') eqn:E.
  - apply String.eqb_eq in E. subst k'. intros [= ->] Hg. simpl. now rewrite Hg.
  - intros H Hg. simpl. f_equal. auto.
Qed.

Lemma Map_delete_middle (p r : JSMap V) k v :
  ~ In k (Map_keys p) -> Map_delete (p ++ (k, v) :: r) k = p ++ r.
Proof.
  induction p as [|[k' w] p IH]; simpl.
  - intros _. now rewrite String.eqb_refl.
  - intros H. destruct (String.eqb k k') eqn:E.
    + apply String.eqb_eq in E. subst. tauto.
    + f_equal. apply IH. tauto.
Qed.

Lemma Map_delete_image (B : Type) (g : V -> B) m k :
  Map_delete (map (fun e : string * V => (fst e, g (snd e))) m) k
  = map (fun e : string * V => (fst e, g (snd e))) (Map_delete m k).
Proof.
  induction m as [|[k' w] r IH]; simpl; [reflexivity|].
  destruct (String.eqb k k'); simpl; [reflexivity|]. now rewrite IH.
Qed.

Lemma Map_keys_image (B : Type) (g : V -> B) m :
  Map_keys (map (fun e : string * V => (fst e, g (snd e))) m) = Map_keys m.
Proof.
  unfold Map_keys. rewrite map_map. reflexivity.
Qed.

Lemma Map_get_image (B : Type) (g : V -> B) m k :
  Map_get (map (fun e : string * V => (fst e, g (snd e))) m) k
  = match Map_get m k with Some v => Some (g v) | None => None end.
Proof.
  induction m as [|[k' w] r IH]; simpl; [reflexivity|].
  destruct (String.eqb k k'); [reflexivity|exact IH].
Qed.
End MapUpdates.

Lemma NoDup_snoc (A : Type) (l : list A) (x : A) :
  NoDup l -> ~ In x l -> NoDup (l ++ [x]).
Proof.
  induction l as [|a l IH]; simpl; intros H Hx.
  - constructor; [simpl; tauto|constructor].
  - inversion H as [|? ? Ha Hl]; subst. constructor.
    + rewrite in_app_iff. simpl. intros [H1|[H1|[]]]; [tauto|].
      subst. tauto.
    + apply IH; tauto.
Qed.

Lemma NoDup_map_filter (A B : Type) (g : A -> B) (p : A -> bool) (l : list A) :
  NoDup (map g l) -> NoDup (map g (filter p l)).
Proof.
  induction l as [|a l IH]; simpl; intros H; [constructor|].
  inversion H as [|? ? Ha Hl]; subst.
  destruct (p a); simpl; [|auto]. constructor; [|auto].
  intros Hin. apply Ha. apply in_map_iff in Hin. destruct Hin as [x [Hx Hin]].
  apply filter_In in Hin. apply in_map_iff. exists x. tauto.
Qed.

Lemma gl_emit_nil (g : GL) : gl_emit [] g = g.
Proof. destruct g. unfold gl_emit. simpl. now rewrite app_nil_r. Qed.

Lemma gl_emit_app (a b : list GLCall) (g : GL) :
  gl_emit b (gl_emit a g) = gl_emit (a ++ b) g.
Proof. unfold gl_emit. simpl. now rewrite app_assoc. Qed.


(** ** The reconciliation effect *)

Lemma removeStale_fold (textureUniforms : JSMap TextureEntry)
    (rest done : JSMap TextureInfo) (st : State) :
  texturesRef st = done ++ rest ->
  textureUnitsRef st = unitsOf (texturesRef st) ->
  NoDup (Map_keys (done ++ rest)) ->
  let st' := fold_left (removeIfStale textureUniforms) rest st in
  texturesRef st' = done ++ filter (keeps textureUniforms) rest /\
  textureUnitsRef st' = unitsOf (texturesRef st') /\
  gl st' = gl_emit (deletionsOf
                      (filter (fun e => negb (keeps textureUniforms e)) rest))
             (gl st) /\
  console st' = console st.
Proof.
  revert done st. induction rest as [|[name info] rest IH]; intros done st HT HU Hnd.
  - simpl. rewrite gl_emit_nil. auto.
  - cbn [fold_left filter removeIfStale].
    change (keeps textureUniforms (name, info))
      with (Map_has textureUniforms name).
    destruct (Map_has textureUniforms name) eqn:Ek; cbn [negb].
    + assert (HT' : texturesRef st = (done ++ [(name, info)]) ++ rest)
        by (rewrite <- app_assoc; exact HT).
      assert (Hnd' : NoDup (Map_keys ((done ++ [(name, info)]) ++ rest)))
        by (rewrite <- app_assoc; exact Hnd).
      destruct (IH (done ++ [(name, info)]) st HT' HU Hnd') as [H1 [H2 [H3 H4]]].
      rewrite <- app_assoc in H1. repeat split; auto.
    + unfold Map_keys in Hnd. rewrite map_app in Hnd. simpl in Hnd.
      pose proof (NoDup_remove _ _ _ Hnd) as [Hnd' Hnot].
      rewrite <- map_app in Hnd'.
      assert (Hk : ~ In name (Map_keys done)).
      { intros Hin. apply Hnot. apply in_or_app. now left. }
      match goal with |- context [fold_left _ rest ?s] => set (st1 := s) end.
      assert (HT1 : texturesRef st1 = done ++ rest).
      { subst st1. simpl. rewrite HT. now apply Map_delete_middle. }
      assert (HU1 : textureUnitsRef st1 = unitsOf (texturesRef st1)).
      { subst st1. simpl. rewrite HU. unfold unitsOf. apply Map_delete_image. }
      destruct (IH done st1 HT1 HU1 Hnd') as [H1 [H2 [H3 H4]]].
      repeat split; auto.
      rewrite H3. subst st1. simpl. unfold deleteTexture. now rewrite gl_emit_app.
Qed.

Lemma removeStale_spec (textureUniforms : JSMap TextureEntry) (st : State) :
  bindings_wf st ->
  let st' := removeStale textureUniforms st in
  texturesRef st' = filter (keeps textureUniforms) (texturesRef st) /\
  textureUnitsRef st' = unitsOf (texturesRef st') /\
  gl st' = gl_emit (deletionsOf
                      (filter (fun e => negb (keeps textureUniforms e))
                         (texturesRef st)))
             (gl st) /\
  console st' = console st.
Proof.
  intros W. unfold removeStale.
  apply (removeStale_fold textureUniforms (texturesRef st) [] st).
  - reflexivity.
  - apply W.
  - apply W.
Qed.

Lemma removeStale_wf (textureUniforms : JSMap TextureEntry) (st : State) :
  bindings_wf st -> bindings_wf (removeStale textureUniforms st).
Proof.
  intros W. destruct (removeStale_spec textureUniforms W) as [HT [HU [HG _]]].
  constructor.
  - exact HU.
  - rewrite HT. apply NoDup_map_filter. apply W.
  - rewrite HU, HT. unfold Map_values, unitsOf. rewrite map_map. simpl.
    apply NoDup_map_filter.
    pose proof (wf_units W) as Hu. rewrite (wf_mirror W) in Hu.
    unfold Map_values, unitsOf in Hu. rewrite map_map in Hu. exact Hu.
  - rewrite HT. apply NoDup_map_filter. apply W.
  - intros t Ht. rewrite HG. simpl. apply W.
    rewrite HT in Ht. unfold handlesOf in *. apply in_map_iff in Ht.
    destruct Ht as [e [He Hin]]. apply filter_In in Hin.
    apply in_map_iff. exists e. tauto.
Qed.

Lemma createOrUpdate_notReady (dom : Dom) (st : State) (name : string)
    (value : Source) (options : option TextureOptions) :
  isTextureSourceReady dom value = false ->
  createOrUpdate dom st (name, (value, options))
  = log (console_warn
           ("Texture source for " ++ quoted name ++ " is not ready yet")%string) st.
Proof. intros H. unfold createOrUpdate. now rewrite H. Qed.

Lemma createOrUpdate_update (dom : Dom) (st : State) (name : string)
    (value : Source) (options : option TextureOptions) (info : TextureInfo) :
  isTextureSourceReady dom value = true ->
  Map_get (texturesRef st) name = Some info ->
  createOrUpdate dom st (name, (value, options))
  = with_textures
      (Map_set (texturesRef st) name
         {| texture := texture info; source := value; unit := unit info |})
      (textureUnitsRef st)
      (with_gl (updateTexture (gl st) (texture info) value options (unit info)) st).
Proof. intros H E. unfold createOrUpdate. now rewrite H, E. Qed.

Lemma createOrUpdate_exhausted (dom : Dom) (st : State) (name : string)
    (value : Source) (options : option TextureOptions) (error : Error) :
  isTextureSourceReady dom value = true ->
  Map_get (texturesRef st) name = None ->
  getAvailableUnit (gl st) (textureUnitsRef st) = Throw error ->
  createOrUpdate dom st (name, (value, options))
  = log (console_error
           ("Failed to create texture " ++ quoted name ++ ":")%string error) st.
Proof. intros H E Eu. unfold createOrUpdate. now rewrite H, E, Eu. Qed.

Lemma createOrUpdate_created (dom : Dom) (st : State) (name : string)
    (value : Source) (options : option TextureOptions) (u : nat) :
  isTextureSourceReady dom value = true ->
  Map_get (texturesRef st) name = None ->
  getAvailableUnit (gl st) (textureUnitsRef st) = Ok u ->
  contextLost (gl st) = false ->
  createOrUpdate dom st (name, (value, options))
  = with_textures
      (Map_set (texturesRef st) name
         {| texture := nextTexture (gl st); source := value; unit := u |})
      (Map_set (textureUnitsRef st) name u)
      (with_gl
         (gl_emit (createTexture_calls (nextTexture (gl st)) value options u)
            {| contextLost := contextLost (gl st);
               MAX_COMBINED_TEXTURE_IMAGE_UNITS :=
                 MAX_COMBINED_TEXTURE_IMAGE_UNITS (gl st);
               nextTexture := S (nextTexture (gl st));
               calls := calls (gl st) ++ [gl_createTexture] |})
         st).
Proof.
  intros H E Eu Hl. unfold createOrUpdate. rewrite H, E, Eu. cbn [negb].
  unfold createTexture, GL_createTexture. rewrite Hl. reflexivity.
Qed.

Lemma createOrUpdate_lost (dom : Dom) (st : State) (name : string)
    (value : Source) (options : option TextureOptions) (u : nat) :
  isTextureSourceReady dom value = true ->
  Map_get (texturesRef st) name = None ->
  getAvailableUnit (gl st) (textureUnitsRef st) = Ok u ->
  contextLost (gl st) = true ->
  createOrUpdate dom st (name, (value, options))
  = log (console_error
           ("Failed to create texture " ++ quoted name ++ ":")%string
           Error_FailedToCreateWebGLTexture)
      (with_gl (gl_emit [gl_createTexture] (gl st)) st).
Proof.
  intros H E Eu Hl. unfold createOrUpdate. rewrite H, E, Eu. cbn [negb].
  unfold createTexture, GL_createTexture. rewrite Hl. reflexivity.
Qed.

(** States that differ outside the bindings alone. *)
Lemma bindings_wf_same (st st' : State) :
  texturesRef st' = texturesRef st ->
  textureUnitsRef st' = textureUnitsRef st ->
  nextTexture (gl st) <= nextTexture (gl st') ->
  bindings_wf st -> bindings_wf st'.
Proof.
  intros HT HU Hn W. constructor; rewrite ?HT, ?HU; try apply W.
  intros t Ht. pose proof (wf_fresh W t Ht). lia.
Qed.

Lemma keys_unitsOf (textures : JSMap TextureInfo) :
  Map_keys (unitsOf textures) = Map_keys textures.
Proof. unfold unitsOf. apply Map_keys_image. Qed.

Lemma values_unitsOf (textures : JSMap TextureInfo) :
  Map_values (unitsOf textures)
  = map (fun e : string * TextureInfo => unit (snd e)) textures.
Proof. unfold unitsOf, Map_values. now rewrite map_map. Qed.

(** The pool invariant is kept by every round of the create-or-update
    loop. *)
Lemma createOrUpdate_wf (dom : Dom) (st : State) (entry : string * TextureEntry) :
  bindings_wf st -> bindings_wf (createOrUpdate dom st entry).
Proof.
  intros W. destruct entry as [name [value options]].
  destruct (isTextureSourceReady dom value) eqn:Hr.
  2:{ rewrite createOrUpdate_notReady by exact Hr.
      apply bindings_wf_same with (st := st); auto. }
  destruct (Map_get (texturesRef st) name) as [info|] eqn:Eg.
  - rewrite createOrUpdate_update with (info := info) by assumption.
    assert (Hu : unitsOf (Map_set (texturesRef st) name
                   {| texture := texture info; source := value; unit := unit info |})
                 = unitsOf (texturesRef st)).
    { unfold unitsOf. apply Map_set_image with (v := info); [exact Eg|reflexivity]. }
    assert (Hk : Map_keys (Map_set (texturesRef st) name
                   {| texture := texture info; source := value; unit := unit info |})
                 = Map_keys (texturesRef st)).
    { unfold Map_keys. apply Map_set_image with (v := info); [exact Eg|reflexivity]. }
    assert (Hh : handlesOf (Map_set (texturesRef st) name
                   {| texture := texture info; source := value; unit := unit info |})
                 = handlesOf (texturesRef st)).
    { unfold handlesOf. apply Map_set_image with (v := info); [exact Eg|reflexivity]. }
    constructor; cbn [texturesRef textureUnitsRef with_textures with_gl gl];
      rewrite ?Hu, ?Hk, ?Hh; apply W.
  - assert (Hk : ~ In name (Map_keys (texturesRef st))) by now apply Map_get_None.
    assert (Hk' : ~ In name (Map_keys (textureUnitsRef st))).
    { rewrite (wf_mirror W), keys_unitsOf. exact Hk. }
    destruct (getAvailableUnit (gl st) (textureUnitsRef st)) as [u|error] eqn:Eu.
    2:{ rewrite createOrUpdate_exhausted with (error := error) by assumption.
        apply bindings_wf_same with (st := st); auto. }
    destruct (contextLost (gl st)) eqn:Hl.
    { rewrite createOrUpdate_lost with (u := u) by assumption.
      apply bindings_wf_same with (st := st); auto. }
    rewrite createOrUpdate_created with (u := u) by assumption.
    apply getAvailableUnit_Ok in Eu. destruct Eu as [_ [Hfree _]].
    constructor; cbn [texturesRef textureUnitsRef with_textures with_gl gl];
      rewrite !Map_set_new by assumption.
    + rewrite (wf_mirror W). unfold unitsOf. now rewrite map_app.
    + unfold Map_keys. rewrite map_app. simpl. apply NoDup_snoc; [apply W|exact Hk].
    + unfold Map_values. rewrite map_app. simpl.
      apply NoDup_snoc; [apply W|exact Hfree].
    + unfold handlesOf. rewrite map_app. simpl. apply NoDup_snoc; [apply W|].
      intros Hin. apply (wf_fresh W) in Hin. lia.
    + unfold handlesOf. rewrite map_app. simpl. intros t Ht.
      apply in_app_or in Ht. destruct Ht as [Ht|[<-|[]]]; [|lia].
      apply (wf_fresh W) in Ht. lia.
Qed.

Lemma createOrUpdate_fold_wf (dom : Dom) (entries : JSMap TextureEntry)
    (st : State) :
  bindings_wf st -> bindings_wf (fold_left (createOrUpdate dom) entries st).
Proof.
  revert st. induction entries as [|e entries IH]; intros st W; simpl; [exact W|].
  apply IH. now apply createOrUpdate_wf.
Qed.

(** The pool invariant holds of the empty pool and is kept by the
    reconciliation effect. *)
Lemma useTextures_effect_wf (dom : Dom) (glAvailable : bool)
    (textureUniforms : option (JSMap TextureEntry)) (st : State) :
  bindings_wf st ->
  bindings_wf (useTextures_effect dom glAvailable textureUniforms st).
Proof.
  intros W. unfold useTextures_effect.
  destruct glAvailable; [|exact W].
  destruct textureUniforms as [txs|]; [|exact W].
  apply createOrUpdate_fold_wf. now apply removeStale_wf.
Qed.

(** ** A frame of the render loop *)

Lemma refreshDynamicTextures_emit (activeUniforms : Uniforms)
    (currentTextures : JSMap TextureInfo) (g : GL) :
  refreshDynamicTextures activeUniforms currentTextures g
  = gl_emit (flat_map (refreshCallsOf activeUniforms) currentTextures) g.
Proof.
  unfold refreshDynamicTextures.
  revert g. induction currentTextures as [|[name info] r IH]; intros g.
  - simpl. now rewrite gl_emit_nil.
  - cbn [fold_left flat_map]. rewrite IH. unfold refreshCallsOf at 2. cbn [fst snd].
    destruct (Map_get activeUniforms name) as [[t v|source options]|];
      rewrite <- ?gl_emit_app, ?gl_emit_nil; try reflexivity.
    destruct (isDynamicSource source); rewrite <- ?gl_emit_app, ?gl_emit_nil;
      reflexivity.
Qed.

Lemma effects_nil (st : State) : effects [] [] st = st.
Proof.
  destruct st as [g c T U cv u p ch m l o r f]. destruct g.
  unfold effects, emit, with_console, with_gl, gl_emit. simpl.
  now rewrite !app_nil_r.
Qed.

Lemma effects_effects (c1 c2 : list GLCall) (m1 m2 : list ConsoleMsg) (st : State) :
  effects c2 m2 (effects c1 m1 st) = effects (c1 ++ c2) (m1 ++ m2) st.
Proof.
  unfold effects, emit, with_console, with_gl, gl_emit. simpl.
  now rewrite !app_assoc.
Qed.

Lemma emit_effects (cs : list GLCall) (st : State) : emit cs st = effects cs [] st.
Proof.
  destruct st as [g c T U cv u p ch m l o r f].
  unfold effects, emit, with_console, with_gl. simpl. now rewrite app_nil_r.
Qed.

Lemma log_effects (m : ConsoleMsg) (st : State) : log m st = effects [] [m] st.
Proof.
  destruct st as [g c T U cv u p ch mp l o r f]. destruct g.
  unfold effects, log, emit, with_console, with_gl, gl_emit. simpl.
  now rewrite app_nil_r.
Qed.

Lemma applyChanged_effects (locations : JSMap WebGLUniformLocation)
    (activeUniforms : Uniforms) (st : State) (key : string) :
  applyChanged locations activeUniforms st key
  = effects
      (outcomeCalls (uniformOutcome locations activeUniforms (textureUnitsRef st) key))
      (outcomeErrors key
         (uniformOutcome locations activeUniforms (textureUnitsRef st) key))
      st.
Proof.
  unfold applyChanged, uniformOutcome.
  destruct (Map_get locations key) as [loc|]; simpl.
  - destruct (match Map_get activeUniforms key with
              | Some uniform => setUniform loc uniform (Map_get (textureUnitsRef st) key)
              | None => Throw TypeError_undefinedUniform
              end) as [cs|error]; simpl.
    + apply emit_effects.
    + apply log_effects.
  - symmetry. apply effects_nil.
Qed.

Lemma applyChanged_fold (locations : JSMap WebGLUniformLocation)
    (activeUniforms : Uniforms) (keys : list string) (st : State) :
  fold_left (applyChanged locations activeUniforms) keys st
  = effects
      (flat_map
         (fun key =>
            outcomeCalls
              (uniformOutcome locations activeUniforms (textureUnitsRef st) key))
         keys)
      (flat_map
         (fun key =>
            outcomeErrors key
              (uniformOutcome locations activeUniforms (textureUnitsRef st) key))
         keys)
      st.
Proof.
  revert st. induction keys as [|key keys IH]; intros st.
  - simpl. symmetry. apply effects_nil.
  - cbn [fold_left flat_map]. rewrite IH, applyChanged_effects.
    now rewrite effects_effects.
Qed.

(** A frame run with a canvas and a linked program: what it leaves in
    every part of the state. *)
Lemma renderLoop_running (info : WebGLProgramInfo)
    (options : option ShaderCanvasOptions) (time now : number) (st : State)
    (canvas : Canvas) :
  canvasRef st = Some canvas ->
  let st' := renderLoop (Some info) options time now st in
  gl st' = gl_emit (frameCalls info options canvas time st) (gl st) /\
  console st' = console st ++ frameErrors info st /\
  changedUniformsRef st' = [] /\
  texturesRef st' = texturesRef st /\
  textureUnitsRef st' = textureUnitsRef st /\
  uniformsRef st' = uniformsRef st /\
  previousUniformsRef st' = previousUniformsRef st /\
  canvasRef st' = canvasRef st /\
  mousePosition st' = mousePosition st /\
  onFrameRenderRef st' = onFrameRenderRef st /\
  renderFnRef st' = renderFnRef st /\
  lastFrameTimeRef st' =
    (if onFrameRenderRef st then now else lastFrameTimeRef st) /\
  frameTimes st' =
    (if onFrameRenderRef st
     then frameTimes st ++ [sub now (lastFrameTimeRef st)]
     else frameTimes st).
Proof.
  intros Hc. unfold renderLoop. rewrite Hc.
  rewrite applyChanged_fold, refreshDynamicTextures_emit.
  cbn [emit with_gl with_console with_uniforms with_frame effects
       gl console texturesRef textureUnitsRef canvasRef uniformsRef
       previousUniformsRef changedUniformsRef mousePosition lastFrameTimeRef
       onFrameRenderRef renderFnRef frameTimes].
  destruct (onFrameRenderRef st) eqn:Eo;
    cbn [emit with_gl with_console with_uniforms with_frame effects
         gl console texturesRef textureUnitsRef canvasRef uniformsRef
         previousUniformsRef changedUniformsRef mousePosition lastFrameTimeRef
         onFrameRenderRef renderFnRef frameTimes];
    rewrite !gl_emit_app; unfold frameCalls, frameErrors, frameOpening;
    rewrite <- ?app_assoc; repeat split;
    first [reflexivity | exact Hc | exact Eo].
Qed.

Lemma renderLoop_idle (info : option WebGLProgramInfo)
    (options : option ShaderCanvasOptions) (time now : number) (st : State) :
  canvasRef st = None \/ info = None ->
  renderLoop info options time now st = st.
Proof.
  intros [H| ->]; unfold renderLoop.
  - now rewrite H.
  - destruct (canvasRef st); reflexivity.
Qed.


(** ** The claims on the texture manager *)

Lemma NoDup_map_eq (A B : Type) (g : A -> B) (l : list A) (a b : A) :
  NoDup (map g l) -> In a l -> In b l -> g a = g b -> a = b.
Proof.
  induction l as [|x l IH]; simpl; [tauto|].
  intros H Ha Hb E. inversion H as [|? ? Hx Hl]; subst.
  destruct Ha as [->|Ha], Hb as [->|Hb]; auto.
  - elim Hx. rewrite E. now apply in_map.
  - elim Hx. rewrite <- E. now apply in_map.
Qed.

Lemma GL_maxUnits_live (g : GL) :
  contextLost g = false -> GL_maxUnits g = MAX_COMBINED_TEXTURE_IMAGE_UNITS g.
Proof. intros H. unfold GL_maxUnits. now rewrite H. Qed.

(** Creating textures for new names, the pool holding the units
    [0 .. k-1]: they receive [k], [k+1], ... in the order of the
    snapshot. *)
Lemma create_run (dom : Dom) (entries : JSMap TextureEntry) (st : State) (k : nat) :
  bindings_wf st ->
  Map_values (textureUnitsRef st) = seq 0 k ->
  contextLost (gl st) = false ->
  k + List.length entries <= MAX_COMBINED_TEXTURE_IMAGE_UNITS (gl st) ->
  NoDup (Map_keys entries) ->
  (forall name, In name (Map_keys entries) ->
                ~ In name (Map_keys (texturesRef st))) ->
  (forall name value options,
     In (name, (value, options)) entries ->
     isTextureSourceReady dom value = true) ->
  textureUnitsRef (fold_left (createOrUpdate dom) entries st)
  = textureUnitsRef st ++ combine (Map_keys entries) (seq k (List.length entries)).
Proof.
  revert st k.
  induction entries as [|[name [value options]] entries IH];
    intros st k W Hv Hl Hmax Hnd Hnew Hready.
  - simpl. now rewrite app_nil_r.
  - cbn [fold_left]. simpl in Hnd, Hmax.
    inversion Hnd as [|? ? Hname Hnd']; subst.
    assert (Hr : isTextureSourceReady dom value = true).
    { apply (Hready name value options). now left. }
    assert (Eg : Map_get (texturesRef st) name = None).
    { apply Map_get_None. apply Hnew. now left. }
    assert (Eu : getAvailableUnit (gl st) (textureUnitsRef st) = Ok k).
    { apply getAvailableUnit_Ok. rewrite Hv, GL_maxUnits_live by exact Hl.
      split; [lia|]. split.
      - rewrite in_seq. lia.
      - intros j Hj. apply in_seq. lia. }
    assert (Hk' : ~ In name (Map_keys (textureUnitsRef st))).
    { rewrite (wf_mirror W), keys_unitsOf. apply Hnew. now left. }
    pose proof (@createOrUpdate_wf dom st (name, (value, options)) W) as W1.
    rewrite createOrUpdate_created with (u := k) in * by assumption.
    match goal with |- context [fold_left _ entries ?s] => set (st1 := s) in * end.
    assert (HU1 : textureUnitsRef st1 = textureUnitsRef st ++ [(name, k)]).
    { subst st1. simpl. now apply Map_set_new. }
    rewrite (IH st1 (S k)); try assumption.
    + rewrite HU1, <- app_assoc. reflexivity.
    + rewrite HU1. unfold Map_values. rewrite map_app. simpl.
      fold (Map_values (textureUnitsRef st)). rewrite Hv.
      exact (eq_sym (seq_S k 0)).
    + subst st1. simpl. lia.
    + intros n Hn. subst st1. cbn [texturesRef with_textures].
      rewrite Map_set_new by (apply Map_get_None; exact Eg).
      unfold Map_keys. rewrite map_app, in_app_iff. simpl.
      intros [Hin|[<-|[]]].
      * apply (Hnew n); [now right|exact Hin].
      * contradiction.
    + intros n v o Hin. apply (Hready n v o). now right.
Qed.

Lemma bindings_wf_empty (st : State) :
  texturesRef st = [] -> textureUnitsRef st = [] -> bindings_wf st.
Proof.
  intros HT HU. constructor; rewrite ?HT, ?HU; simpl;
    try constructor; try reflexivity. intros t [].
Qed.

Lemma removeStale_empty (textureUniforms : JSMap TextureEntry) (st : State) :
  texturesRef st = [] -> removeStale textureUniforms st = st.
Proof. intros H. unfold removeStale. now rewrite H. Qed.

Lemma useTextures_cleanup_wf (glAvailable : bool) (st : State) :
  bindings_wf st -> bindings_wf (useTextures_cleanup glAvailable st).
Proof.
  intros W. unfold useTextures_cleanup. destruct glAvailable; [|exact W].
  now apply bindings_wf_empty.
Qed.

(** A frame leaves the bindings alone. *)
Lemma renderLoop_wf (programInfo : option WebGLProgramInfo)
    (options : option ShaderCanvasOptions) (time now : number) (st : State) :
  bindings_wf st -> bindings_wf (renderLoop programInfo options time now st).
Proof.
  intros W. destruct programInfo as [info|].
  2:{ rewrite renderLoop_idle by now right. exact W. }
  destruct (canvasRef st) as [canvas|] eqn:Hc.
  2:{ rewrite renderLoop_idle by now left. exact W. }
  destruct (@renderLoop_running info options time now st canvas Hc)
    as [HG [_ [_ [HT [HU _]]]]].
  apply bindings_wf_same with (st := st); auto.
  rewrite HG. simpl. lia.
Qed.

(** Once the stale bindings are removed, a unit held only by a removed
    binding is free again. *)
Lemma removeStale_frees (textureUniforms : JSMap TextureEntry) (st : State)
    (name : string) (k : nat) :
  bindings_wf st ->
  Map_get (textureUnitsRef st) name = Some k ->
  Map_has textureUniforms name = false ->
  Map_get (textureUnitsRef (removeStale textureUniforms st)) name = None /\
  ~ In k (Map_values (textureUnitsRef (removeStale textureUniforms st))).
Proof.
  intros W Hk Hgone.
  destruct (@removeStale_spec textureUniforms st W) as [HT [HU _]].
  rewrite HU, HT.
  rewrite (wf_mirror W) in Hk. unfold unitsOf in Hk.
  rewrite Map_get_image in Hk.
  destruct (Map_get (texturesRef st) name) as [info|] eqn:Eg; [|discriminate].
  injection Hk as Hk. apply Map_get_In in Eg. split.
  - apply Map_get_None. rewrite keys_unitsOf. unfold Map_keys.
    intros Hin. apply in_map_iff in Hin. destruct Hin as [[n i] [Hn Hin]].
    apply filter_In in Hin. destruct Hin as [_ Hkeep].
    simpl in Hn. subst n. unfold keeps in Hkeep. simpl in Hkeep. congruence.
  - rewrite values_unitsOf. intros Hin. apply in_map_iff in Hin.
    destruct Hin as [[n i] [Hu Hin]]. apply filter_In in Hin.
    destruct Hin as [Hin Hkeep]. simpl in Hu.
    pose proof (wf_units W) as Hnd. rewrite (wf_mirror W), values_unitsOf in Hnd.
    assert (E : (n, i) = (name, info)).
    { apply (@NoDup_map_eq _ _ (fun e : string * TextureInfo => unit (snd e))
               (texturesRef st) (n, i) (name, info) Hnd Hin Eg).
      simpl. congruence. }
    injection E as -> ->. unfold keeps in Hkeep. simpl in Hkeep. congruence.
Qed.

Lemma Map_has_true (V : Type) (m : JSMap V) (k : string) :
  Map_has m k = true <-> In k (Map_keys m).
Proof.
  unfold Map_has. destruct (Map_get m k) eqn:E.
  - split; [intros _; eapply Map_get_Some_key; eauto|reflexivity].
  - apply Map_get_None in E. split; [discriminate|contradiction].
Qed.

Lemma Map_get_filter (V : Type) (p : string -> bool) (m : JSMap V) (k : string) :
  Map_get (filter (fun e => p (fst e)) m) k
  = if p k then Map_get m k else None.
Proof.
  induction m as [|[k' v] r IH]; simpl.
  - now destruct (p k).
  - destruct (p k') eqn:Ep; simpl.
    + destruct (String.eqb k k') eqn:E; [|exact IH].
      apply String.eqb_eq in E. subst. now rewrite Ep.
    + rewrite IH. destruct (String.eqb k k') eqn:E; [|reflexivity].
      apply String.eqb_eq in E. subst. now rewrite Ep.
Qed.

(** A round of the loop for a name that has a binding leaves the
    name-to-unit map, the names of the bindings and the limits of the
    context as they are. *)
Lemma createOrUpdate_bound (dom : Dom) (st : State) (name : string)
    (entry : TextureEntry) :
  Map_has (texturesRef st) name = true ->
  let st' := createOrUpdate dom st (name, entry) in
  textureUnitsRef st' = textureUnitsRef st /\
  Map_keys (texturesRef st') = Map_keys (texturesRef st) /\
  contextLost (gl st') = contextLost (gl st) /\
  MAX_COMBINED_TEXTURE_IMAGE_UNITS (gl st')
  = MAX_COMBINED_TEXTURE_IMAGE_UNITS (gl st).
Proof.
  intros Hhas. destruct entry as [value options]. unfold Map_has in Hhas.
  destruct (Map_get (texturesRef st) name) as [info|] eqn:Eg; [|discriminate].
  destruct (isTextureSourceReady dom value) eqn:Hr.
  - rewrite createOrUpdate_update with (info := info) by assumption.
    cbn [texturesRef textureUnitsRef with_textures with_gl gl].
    repeat split.
    unfold Map_keys. apply Map_set_image with (v := info); [exact Eg|reflexivity].
  - rewrite createOrUpdate_notReady by exact Hr. repeat split.
Qed.

Lemma createOrUpdate_bound_fold (dom : Dom) (entries : JSMap TextureEntry)
    (st : State) :
  (forall name, In name (Map_keys entries) ->
                Map_has (texturesRef st) name = true) ->
  let st' := fold_left (createOrUpdate dom) entries st in
  textureUnitsRef st' = textureUnitsRef st /\
  Map_keys (texturesRef st') = Map_keys (texturesRef st) /\
  contextLost (gl st') = contextLost (gl st) /\
  MAX_COMBINED_TEXTURE_IMAGE_UNITS (gl st')
  = MAX_COMBINED_TEXTURE_IMAGE_UNITS (gl st).
Proof.
  revert st. induction entries as [|[name entry] entries IH]; intros st Hall.
  - simpl. auto.
  - cbn [fold_left].
    destruct (@createOrUpdate_bound dom st name entry (Hall name (or_introl eq_refl)))
      as [HU [HK [HL HM]]].
    destruct (IH (createOrUpdate dom st (name, entry))) as [HU' [HK' [HL' HM']]].
    + intros n Hn. apply Map_has_true. rewrite HK. apply Map_has_true.
      apply Hall. now right.
    + cbv zeta. rewrite HU', HK', HL', HM'. auto.
Qed.

(** A round of the loop never takes a unit away from a name. *)
Lemma createOrUpdate_keeps_unit (dom : Dom) (st : State)
    (entry : string * TextureEntry) (name : string) (u : nat) :
  bindings_wf st ->
  Map_get (textureUnitsRef st) name = Some u ->
  Map_get (textureUnitsRef (createOrUpdate dom st entry)) name = Some u.
Proof.
  intros W Hu. destruct entry as [n [value options]].
  destruct (isTextureSourceReady dom value) eqn:Hr.
  2:{ now rewrite createOrUpdate_notReady by exact Hr. }
  destruct (Map_get (texturesRef st) n) as [info|] eqn:Eg.
  { now rewrite createOrUpdate_update with (info := info) by assumption. }
  destruct (getAvailableUnit (gl st) (textureUnitsRef st)) as [unit'|error] eqn:Eu.
  2:{ now rewrite createOrUpdate_exhausted with (error := error) by assumption. }
  destruct (contextLost (gl st)) eqn:Hl.
  { now rewrite createOrUpdate_lost with (u := unit') by assumption. }
  rewrite createOrUpdate_created with (u := unit') by assumption.
  cbn [textureUnitsRef with_textures]. rewrite Map_get_set.
  destruct (String.eqb name n) eqn:E; [|exact Hu].
  apply String.eqb_eq in E. subst n.
  rewrite (wf_mirror W) in Hu. unfold unitsOf in Hu.
  rewrite Map_get_image, Eg in Hu. discriminate.
Qed.

Lemma createOrUpdate_fold_keeps_unit (dom : Dom) (entries : JSMap TextureEntry)
    (st : State) (name : string) (u : nat) :
  bindings_wf st ->
  Map_get (textureUnitsRef st) name = Some u ->
  Map_get (textureUnitsRef (fold_left (createOrUpdate dom) entries st)) name
  = Some u.
Proof.
  revert st. induction entries as [|e entries IH]; intros st W Hu; [exact Hu|].
  cbn [fold_left]. apply IH.
  - now apply createOrUpdate_wf.
  - now apply createOrUpdate_keeps_unit.
Qed.

(** The effect, for a snapshot that dropped the name holding unit [k]
    and brings a new name: the new name is bound to [k] when the
    uniforms before it already have bindings and every smaller unit is
    held by a binding that stays. *)
Lemma useTextures_effect_reuse (dom : Dom) (before after : JSMap TextureEntry)
    (st : State) (removed : string) (k : nat) (added : string) (value : Source)
    (options : option TextureOptions) :
  bindings_wf st ->
  Map_get (textureUnitsRef st) removed = Some k ->
  Map_has (before ++ (added, (value, options)) :: after) removed = false ->
  (forall name, In name (Map_keys before) ->
                Map_has (texturesRef st) name = true) ->
  Map_get (texturesRef st) added = None ->
  isTextureSourceReady dom value = true ->
  contextLost (gl st) = false ->
  k < MAX_COMBINED_TEXTURE_IMAGE_UNITS (gl st) ->
  (forall j, j < k ->
     exists name,
       Map_has (before ++ (added, (value, options)) :: after) name = true /\
       Map_get (textureUnitsRef st) name = Some j) ->
  Map_get
    (textureUnitsRef
       (useTextures_effect dom true
          (Some (before ++ (added, (value, options)) :: after)) st)) added
  = Some k.
Proof.
  intros W Hk Hgone Hbefore Hadded Hr Hl Hmax Hbelow.
  set (txs := before ++ (added, (value, options)) :: after) in *.
  unfold useTextures_effect.
  destruct (@removeStale_spec txs st W) as [HT [HU [HG _]]].
  pose proof (@removeStale_wf txs st W) as W1.
  destruct (@removeStale_frees txs st removed k W Hk Hgone) as [_ Hfree].
  set (st1 := removeStale txs st) in *.
  assert (Hget1 : forall name,
            Map_get (texturesRef st1) name
            = if Map_has txs name then Map_get (texturesRef st) name else None).
  { intros name. rewrite HT. unfold keeps.
    apply (Map_get_filter (fun n => Map_has txs n)). }
  assert (Hbefore1 : forall name, In name (Map_keys before) ->
                       Map_has (texturesRef st1) name = true).
  { intros name Hin. unfold Map_has. rewrite Hget1.
    assert (Hin' : Map_has txs name = true).
    { apply Map_has_true. subst txs. unfold Map_keys. rewrite map_app.
      apply in_or_app. now left. }
    rewrite Hin'. apply (Hbefore name Hin). }
  assert (Hbelow1 : forall j, j < k -> In j (Map_values (textureUnitsRef st1))).
  { intros j Hj. destruct (Hbelow j Hj) as [name [Hkept Hunit]].
    rewrite HU, values_unitsOf. rewrite (wf_mirror W) in Hunit.
    unfold unitsOf in Hunit. rewrite Map_get_image in Hunit.
    destruct (Map_get (texturesRef st) name) as [info|] eqn:Eg; [|discriminate].
    injection Hunit as Hunit.
    assert (Eg1 : Map_get (texturesRef st1) name = Some info)
      by now rewrite Hget1, Hkept.
    apply Map_get_In in Eg1. apply in_map_iff. exists (name, info). auto. }
  subst txs. rewrite fold_left_app. cbn [fold_left].
  destruct (@createOrUpdate_bound_fold dom before st1 Hbefore1)
    as [HU2 [HK2 [HL2 HM2]]].
  pose proof (@createOrUpdate_fold_wf dom before st1 W1) as W2.
  set (st2 := fold_left (createOrUpdate dom) before st1) in *.
  assert (Hl2 : contextLost (gl st2) = false).
  { rewrite HL2, HG. exact Hl. }
  assert (Eg2 : Map_get (texturesRef st2) added = None).
  { apply Map_get_None. rewrite HK2. apply Map_get_None.
    rewrite Hget1, Hadded. now destruct (Map_has _ added). }
  assert (Eu2 : getAvailableUnit (gl st2) (textureUnitsRef st2) = Ok k).
  { apply getAvailableUnit_Ok. rewrite GL_maxUnits_live by exact Hl2.
    rewrite HM2, HU2, HG. simpl. auto. }
  apply createOrUpdate_fold_keeps_unit.
  - now apply createOrUpdate_wf.
  - rewrite createOrUpdate_created with (u := k) by assumption.
    cbn [textureUnitsRef with_textures]. now rewrite Map_get_set, String.eqb_refl.
Qed.

(** C3.  [getAvailableUnit] returns the smallest index of
    [0 .. maxUnits-1] that is not a unit of the name-to-unit map, and the
    units of that map are those of the live bindings.  Reconciling N
    ready texture uniforms against an empty pool, N at most the number
    of units, binds
    them to [0 .. N-1] in the order of the snapshot.  When a snapshot
    drops the name that held [k] and brings a new name, the effect frees
    [k] in its removal loop and gives it to the new name, provided [k]
    is then the smallest free index (every smaller unit is held by a
    binding that stays) and the new name is the first one to need a
    texture. *)
Theorem texture_unit_allocation :
  (forall (g : GL) (textureUnits : JSMap nat) (i : nat),
     getAvailableUnit g textureUnits = Ok i <->
     i < GL_maxUnits g /\ ~ In i (Map_values textureUnits) /\
     forall j, j < i -> In j (Map_values textureUnits)) /\
  (forall (st : State) (i : nat),
     bindings_wf st ->
     (In i (Map_values (textureUnitsRef st)) <->
      exists name binding,
        In (name, binding) (texturesRef st) /\ unit binding = i)) /\
  (forall (dom : Dom) (textureUniforms : JSMap TextureEntry) (st : State),
     texturesRef st = [] -> textureUnitsRef st = [] ->
     contextLost (gl st) = false ->
     NoDup (Map_keys textureUniforms) ->
     List.length textureUniforms <= MAX_COMBINED_TEXTURE_IMAGE_UNITS (gl st) ->
     (forall name value options,
        In (name, (value, options)) textureUniforms ->
        isTextureSourceReady dom value = true) ->
     textureUnitsRef (useTextures_effect dom true (Some textureUniforms) st)
     = combine (Map_keys textureUniforms) (seq 0 (List.length textureUniforms))) /\
  (forall (dom : Dom) (before after : JSMap TextureEntry) (st : State)
          (removed : string) (k : nat)
          (added : string) (value : Source) (options : option TextureOptions),
     let textureUniforms := before ++ (added, (value, options)) :: after in
     bindings_wf st ->
     Map_get (textureUnitsRef st) removed = Some k ->
     Map_has textureUniforms removed = false ->
     (forall name, In name (Map_keys before) ->
                   Map_has (texturesRef st) name = true) ->
     Map_get (texturesRef st) added = None ->
     isTextureSourceReady dom value = true ->
     contextLost (gl st) = false ->
     k < MAX_COMBINED_TEXTURE_IMAGE_UNITS (gl st) ->
     (forall j, j < k ->
        exists name,
          Map_has textureUniforms name = true /\
          Map_get (textureUnitsRef st) name = Some j) ->
     Map_get (textureUnitsRef (removeStale textureUniforms st)) removed = None /\
     Map_get
       (textureUnitsRef
          (useTextures_effect dom true (Some textureUniforms) st)) added
     = Some k).
Proof.
  split; [|split; [|split]].
  - apply getAvailableUnit_Ok.
  - intros st i W. rewrite (wf_mirror W), values_unitsOf, in_map_iff. split.
    + intros [[name binding] [Hu Hin]]. exists name, binding. auto.
    + intros [name [binding [Hin Hu]]]. exists (name, binding). auto.
  - intros dom txs st HT HU Hl Hnd Hmax Hready.
    unfold useTextures_effect. rewrite removeStale_empty by exact HT.
    rewrite create_run with (k := 0); try assumption.
    + now rewrite HU.
    + now apply bindings_wf_empty.
    + now rewrite HU.
    + intros name _. rewrite HT. simpl. tauto.
  - intros dom before after st removed k added value options txs
           W Hk Hgone Hbefore Hadded Hr Hl Hmax Hbelow.
    split.
    + apply (@removeStale_frees txs st removed k W Hk Hgone).
    + now apply useTextures_effect_reuse with (removed := removed).
Qed.

Lemma texture_unit_allocation_witness :
  textureUnitsRef (useTextures_effect readyDom true (Some threeTextures) state0)
  = [("u_tex1", 0); ("u_tex2", 1); ("u_tex3", 2)]%string /\
  Map_get
    (textureUnitsRef
       (useTextures_effect readyDom true (Some firstAndThird)
          (useTextures_effect readyDom true (Some twoTextures) state0)))
    "u_tex3" = Some 1.
Proof.
  destruct texture_unit_allocation as [_ [_ [Hcreate Hreuse]]]. split.
  - apply (Hcreate readyDom threeTextures state0); try reflexivity.
    + repeat constructor; simpl; intuition discriminate.
    + simpl. lia.
    + intros name [kind id] o _. destruct kind; reflexivity.
  - apply (Hreuse readyDom [("u_tex1"%string, (image1, None))] []
             (useTextures_effect readyDom true (Some twoTextures) state0)
             "u_tex2"%string 1 "u_tex3"%string image3 None);
      try reflexivity.
    + apply useTextures_effect_wf. now apply bindings_wf_empty.
    + intros name [<-|[]]. reflexivity.
    + simpl. lia.
    + intros j Hj. assert (j = 0) as -> by lia.
      exists "u_tex1"%string. split; reflexivity.
Defined.




(** ** Counting calls *)

Lemma countCalls_app (p : GLCall -> bool) (l1 l2 : list GLCall) :
  countCalls p (l1 ++ l2) = countCalls p l1 + countCalls p l2.
Proof. unfold countCalls. now rewrite filter_app, length_app. Qed.

Lemma countCalls_lacks (p : GLCall -> bool) (cs : list GLCall) :
  lacks p cs -> countCalls p cs = 0.
Proof.
  unfold countCalls. induction 1 as [|c cs Hc _ IH]; simpl; [reflexivity|].
  now rewrite Hc.
Qed.

Lemma lacks_app (p : GLCall -> bool) (q r : list GLCall) :
  lacks p q -> lacks p r -> lacks p (q ++ r).
Proof. intros Hq Hr. apply Forall_app. tauto. Qed.

Lemma lacks_flat_map (p : GLCall -> bool) (A : Type) (f : A -> list GLCall)
    (l : list A) :
  (forall a, lacks p (f a)) -> lacks p (flat_map f l).
Proof.
  intros H. induction l as [|a l IH]; simpl; [constructor|].
  apply lacks_app; auto.
Qed.

Ltac lacks_cases :=
  repeat first
    [ apply lacks_app
    | match goal with
      | |- context [match ?x with _ => _ end] => destruct x
      end ];
  repeat constructor.

(** ** Uploads in a trace *)

Lemma uploadsFrom_app (b : option WebGLTexture) (t : WebGLTexture)
    (l1 l2 : list GLCall) :
  uploadsFrom b t (l1 ++ l2)
  = uploadsFrom b t l1 + uploadsFrom (boundAfter b l1) t l2.
Proof.
  revert b. induction l1 as [|c l1 IH]; intros b; [reflexivity|].
  destruct c; simpl; rewrite ?IH; try reflexivity. lia.
Qed.

Lemma boundAfter_app (b : option WebGLTexture) (l1 l2 : list GLCall) :
  boundAfter b (l1 ++ l2) = boundAfter (boundAfter b l1) l2.
Proof.
  revert b. induction l1 as [|c l1 IH]; intros b; [reflexivity|].
  destruct c; simpl; rewrite ?IH; reflexivity.
Qed.

Lemma quiet_uploads (b : option WebGLTexture) (t : WebGLTexture) (cs : list GLCall) :
  quiet cs -> uploadsFrom b t cs = 0 /\ boundAfter b cs = b.
Proof.
  unfold quiet, lacks. induction 1 as [|c cs Hc _ IH]; [auto|].
  destruct c; simpl in *; try discriminate; exact IH.
Qed.

Lemma quiet_skip (b : option WebGLTexture) (t : WebGLTexture) (q r : list GLCall) :
  quiet q ->
  uploadsFrom b t (q ++ r) = uploadsFrom b t r /\
  boundAfter b (q ++ r) = boundAfter b r.
Proof.
  intros Hq. destruct (quiet_uploads b t Hq) as [H1 H2].
  now rewrite uploadsFrom_app, boundAfter_app, H1, H2.
Qed.

(** One [updateTexture] uploads once, into the texture it was given, and
    leaves that texture bound. *)
Lemma updateTexture_calls_uploads (b : option WebGLTexture) (t tex : WebGLTexture)
    (src : Source) (opts : option TextureOptions) (u : nat) :
  uploadsFrom b t (updateTexture_calls tex src opts u)
  = (if Nat.eqb tex t then 1 else 0) /\
  boundAfter b (updateTexture_calls tex src opts u) = Some tex.
Proof.
  unfold updateTexture_calls. cbv zeta.
  cbn [app uploadsFrom boundAfter].
  repeat match goal with
         | |- uploadsFrom _ _ (?q ++ ?r) = _ /\ _ =>
             let H := fresh in
             assert (H : quiet q) by (unfold quiet; lacks_cases);
             destruct (@quiet_skip (Some tex) t q r H) as [-> ->]; clear H
         end.
  cbn [app uploadsFrom boundAfter].
  match goal with
  | |- _ + uploadsFrom _ _ ?q = _ /\ _ =>
      assert (H : quiet q) by (unfold quiet; lacks_cases);
      destruct (@quiet_uploads (Some tex) t q H) as [-> ->]
  end.
  split; [lia|reflexivity].
Qed.

Lemma count_one (A : Type) (g : A -> nat) (p : A -> bool) (l : list A) (a : A) :
  NoDup (map g l) -> In a l ->
  List.length (filter (fun e => p e && Nat.eqb (g e) (g a)) l)
  = if p a then 1 else 0.
Proof.
  induction l as [|x l IH]; simpl; [tauto|].
  intros H Hin. inversion H as [|? ? Hx Hl]; subst.
  assert (Hrest : ~ In (g x) (map g l) ->
                  List.length (filter (fun e => p e && Nat.eqb (g e) (g x)) l) = 0).
  { clear. induction l as [|y l IH]; simpl; [reflexivity|].
    intros Hn. destruct (Nat.eqb (g y) (g x)) eqn:E.
    - apply Nat.eqb_eq in E. elim Hn. now left.
    - rewrite andb_false_r. apply IH. tauto. }
  destruct Hin as [->|Hin].
  - rewrite Nat.eqb_refl, andb_true_r. destruct (p a); simpl; rewrite Hrest; auto.
  - destruct (Nat.eqb (g x) (g a)) eqn:E.
    + apply Nat.eqb_eq in E. elim Hx. rewrite E. now apply in_map.
    + rewrite andb_false_r. auto.
Qed.

(** The refresh loop uploads once into the texture of each refreshed
    binding. *)
Lemma refresh_uploads (activeUniforms : Uniforms) (textures : JSMap TextureInfo)
    (b : option WebGLTexture) (t : WebGLTexture) :
  uploadsFrom b t (flat_map (refreshCallsOf activeUniforms) textures)
  = List.length
      (filter (fun e => isRefreshed activeUniforms e && Nat.eqb (texture (snd e)) t)
         textures).
Proof.
  revert b. induction textures as [|e r IH]; intros b; [reflexivity|].
  cbn [flat_map filter]. rewrite uploadsFrom_app, IH.
  assert (Hre : isRefreshed activeUniforms e
                = match Map_get activeUniforms (fst e) with
                  | Some (TextureUniform source _) => isDynamicSource source
                  | _ => false
                  end) by reflexivity.
  rewrite Hre. clear Hre. unfold refreshCallsOf.
  destruct (Map_get activeUniforms (fst e)) as [[ty v|source options]|];
    try reflexivity.
  destruct (isDynamicSource source); [|reflexivity].
  destruct (updateTexture_calls_uploads b t (texture (snd e)) source options
              (unit (snd e))) as [-> _].
  cbn [andb]. destruct (Nat.eqb (texture (snd e)) t); reflexivity.
Qed.

Lemma setUniform_quiet (loc : WebGLUniformLocation) (u : UniformValue)
    (textureUnit : option nat) (cs : list GLCall) :
  setUniform loc u textureUnit = Ok cs -> quiet cs.
Proof.
  unfold setUniform. destruct u as [ty v|s o].
  - destruct ty; try (intros [= <-]; repeat constructor);
      destruct (asFloat32Array v); intros [= <-]; repeat constructor.
  - destruct textureUnit; intros [= <-]. repeat constructor.
Qed.

Lemma outcomeCalls_quiet (locations : JSMap WebGLUniformLocation)
    (activeUniforms : Uniforms) (textureUnits : JSMap nat) (key : string) :
  quiet (outcomeCalls (uniformOutcome locations activeUniforms textureUnits key)).
Proof.
  unfold uniformOutcome, outcomeCalls.
  destruct (Map_get locations key) as [loc|]; [|constructor].
  destruct (Map_get activeUniforms key) as [u|]; [|constructor].
  destruct (setUniform loc u (Map_get textureUnits key)) eqn:E; [|constructor].
  eapply setUniform_quiet; eauto.
Qed.

Lemma frameOpening_quiet (info : WebGLProgramInfo)
    (options : option ShaderCanvasOptions) (canvas : Canvas)
    (mouse : number * number) (time : number) :
  quiet (frameOpening info options canvas mouse time).
Proof. unfold frameOpening. cbv zeta. cbn [app]. repeat constructor; (unfold quiet; lacks_cases). Qed.

(** The uploads of one frame are those of its refresh loop. *)
Lemma frameCalls_uploads (info : WebGLProgramInfo)
    (options : option ShaderCanvasOptions) (canvas : Canvas) (time : number)
    (st : State) (b : option WebGLTexture) (t : WebGLTexture) :
  uploadsFrom b t (frameCalls info options canvas time st)
  = List.length
      (filter (fun e => isRefreshed (uniformsRef st) e && Nat.eqb (texture (snd e)) t)
         (texturesRef st)).
Proof.
  unfold frameCalls.
  destruct (quiet_skip b t
              (flat_map (refreshCallsOf (uniformsRef st)) (texturesRef st) ++
               flat_map
                 (fun key =>
                    outcomeCalls
                      (uniformOutcome (uniformLocations info) (uniformsRef st)
                         (textureUnitsRef st) key))
                 (changedUniformsRef st) ++ [gl_drawArrays 0 6])
              (frameOpening_quiet info options canvas (mousePosition st) time))
    as [-> _].
  rewrite uploadsFrom_app, refresh_uploads.
  match goal with
  | |- _ + uploadsFrom ?b' _ ?q = _ =>
      assert (H : quiet q);
      [|destruct (quiet_uploads b' t H) as [-> _]; lia]
  end.
  apply lacks_app; [|repeat constructor].
  apply lacks_flat_map. intros key. apply outcomeCalls_quiet.
Qed.

(** A run of frames: the trace grows, and each frame uploads once into
    the texture of each refreshed binding. *)
Lemma runTicks_uploads (info : WebGLProgramInfo)
    (options : option ShaderCanvasOptions) (ticks : list (number * number))
    (st : State) (canvas : Canvas) :
  canvasRef st = Some canvas ->
  exists delta,
    calls (gl (runTicks (Some info) options ticks st)) = calls (gl st) ++ delta /\
    forall b t,
      uploadsFrom b t delta
      = List.length ticks *
        List.length
          (filter (fun e => isRefreshed (uniformsRef st) e
                            && Nat.eqb (texture (snd e)) t)
             (texturesRef st)).
Proof.
  unfold runTicks. revert st.
  induction ticks as [|[time now] ticks IH]; intros st Hc.
  - exists []. split; [now rewrite app_nil_r|reflexivity].
  - cbn [fold_left fst snd].
    destruct (@renderLoop_running info options time now st canvas Hc)
      as [HG [_ [_ [HT [_ [HU [_ [Hc' _]]]]]]]].
    rewrite Hc in Hc'.
    destruct (IH _ Hc') as [delta [Hd Hup]].
    exists (frameCalls info options canvas time st ++ delta). split.
    + rewrite Hd, HG. cbn [gl_emit calls]. symmetry. apply app_assoc.
    + intros b t. rewrite uploadsFrom_app, frameCalls_uploads, Hup, HT, HU.
      cbn [List.length]. lia.
Qed.

(** ** The claim on the per-frame refresh *)

(** C5.  In a frame rendered with a canvas and a linked program, the
    refresh loop calls [updateTexture] for a binding whose uniform has a
    video or a canvas as its source, and over any run of frames with the
    snapshot and the bindings unchanged the texture of such a binding
    receives one upload per frame, while the texture of a binding whose
    source is an image or a bitmap receives none. *)
Theorem dynamic_refresh (info : WebGLProgramInfo)
    (options : option ShaderCanvasOptions) (ticks : list (number * number))
    (st : State) (canvas : Canvas) (name : string) (binding : TextureInfo)
    (source : Source) (textureOptions : option TextureOptions) :
  canvasRef st = Some canvas ->
  bindings_wf st ->
  In (name, binding) (texturesRef st) ->
  Map_get (uniformsRef st) name = Some (TextureUniform source textureOptions) ->
  (isDynamicSource source = true <->
   src_kind source = HTMLVideoElement \/ src_kind source = HTMLCanvasElement) /\
  (forall time now,
     isDynamicSource source = true ->
     exists before after,
       calls (gl (renderLoop (Some info) options time now st))
       = calls (gl st) ++ before
         ++ updateTexture_calls (texture binding) source textureOptions (unit binding)
         ++ after) /\
  (exists delta,
     calls (gl (runTicks (Some info) options ticks st)) = calls (gl st) ++ delta /\
     forall bound,
       uploadsFrom bound (texture binding) delta
       = if isDynamicSource source then List.length ticks else 0).
Proof.
  intros Hc W Hin Hu. split; [|split].
  - unfold isDynamicSource. destruct (src_kind source); split;
      intros H; try discriminate; auto; destruct H; discriminate.
  - intros time now Hdyn.
    destruct (@renderLoop_running info options time now st canvas Hc) as [HG _].
    rewrite HG. cbn [gl_emit calls]. unfold frameCalls.
    apply in_split in Hin. destruct Hin as [l1 [l2 Hsplit]].
    exists (frameOpening info options canvas (mousePosition st) time
            ++ flat_map (refreshCallsOf (uniformsRef st)) l1).
    exists (flat_map (refreshCallsOf (uniformsRef st)) l2
            ++ flat_map
                 (fun key =>
                    outcomeCalls
                      (uniformOutcome (uniformLocations info) (uniformsRef st)
                         (textureUnitsRef st) key))
                 (changedUniformsRef st)
            ++ [gl_drawArrays 0 6]).
    rewrite Hsplit, flat_map_app. cbn [flat_map].
    assert (Hblock : refreshCallsOf (uniformsRef st) (name, binding)
                     = updateTexture_calls (texture binding) source
                         textureOptions (unit binding)).
    { unfold refreshCallsOf. cbn [fst snd]. now rewrite Hu, Hdyn. }
    rewrite Hblock, <- !app_assoc. reflexivity.
  - destruct (@runTicks_uploads info options ticks st canvas Hc) as [delta [Hd Hup]].
    exists delta. split; [exact Hd|]. intros bound. rewrite Hup.
    pose proof (@count_one _ (fun e : string * TextureInfo => texture (snd e))
                  (isRefreshed (uniformsRef st)) (texturesRef st) (name, binding)
                  (wf_handles W) Hin) as Hone.
    cbn [snd] in Hone. rewrite Hone.
    unfold isRefreshed. cbn [fst]. rewrite Hu.
    destruct (isDynamicSource source); lia.
Qed.


Lemma dynamic_refresh_witness :
  (exists delta,
     calls (gl (runTicks (Some bareProgram) None tenTicks mediaState))
     = calls (gl mediaState) ++ delta /\
     forall bound, uploadsFrom bound 1 delta = 10) /\
  (exists delta,
     calls (gl (runTicks (Some bareProgram) None tenTicks mediaState))
     = calls (gl mediaState) ++ delta /\
     forall bound, uploadsFrom bound 0 delta = 0).
Proof.
  assert (W : bindings_wf mediaState).
  { apply useTextures_effect_wf. now apply bindings_wf_empty. }
  split.
  - exact (proj2 (proj2
      (@dynamic_refresh bareProgram None tenTicks mediaState canvas0
         "u_video" {| texture := 1; source := video1; unit := 1 |} video1 None
         eq_refl W (or_intror (or_introl eq_refl)) eq_refl))).
  - exact (proj2 (proj2
      (@dynamic_refresh bareProgram None tenTicks mediaState canvas0
         "u_image" {| texture := 0; source := image1; unit := 0 |} image1 None
         eq_refl W (or_introl eq_refl) eq_refl))).
Defined.

(** ** Viewport and draw calls in a frame

    Between its opening and its draw call a frame issues neither a
    viewport call nor a draw call. *)
Section FrameInterior.
Variable p : GLCall -> bool.
Hypothesis p_uniform :
  forall c, (p c = true -> isViewport c = true \/ isDraw c = true).

Lemma p_false (c : GLCall) : isViewport c = false -> isDraw c = false -> p c = false.
Proof.
  intros Hv Hd. destruct (p c) eqn:E; [|reflexivity].
  destruct (p_uniform E); congruence.
Qed.

Lemma lacks_interior (cs : list GLCall) :
  lacks isViewport cs -> lacks isDraw cs -> lacks p cs.
Proof.
  intros Hv Hd. unfold lacks in *. rewrite Forall_forall in *.
  intros c Hc. apply p_false; auto.
Qed.

Lemma updateTexture_calls_interior (tex : WebGLTexture) (src : Source)
    (opts : option TextureOptions) (u : nat) :
  lacks p (updateTexture_calls tex src opts u).
Proof.
  apply lacks_interior; unfold updateTexture_calls; cbv zeta; cbn [app];
    repeat constructor; lacks_cases.
Qed.

Lemma refreshCallsOf_interior (activeUniforms : Uniforms)
    (entry : string * TextureInfo) :
  lacks p (refreshCallsOf activeUniforms entry).
Proof.
  unfold refreshCallsOf.
  destruct (Map_get activeUniforms (fst entry)) as [[ty v|s o]|]; try constructor.
  destruct (isDynamicSource s); [apply updateTexture_calls_interior|constructor].
Qed.

Lemma setUniform_interior (loc : WebGLUniformLocation) (u : UniformValue)
    (textureUnit : option nat) (cs : list GLCall) :
  setUniform loc u textureUnit = Ok cs -> lacks p cs.
Proof.
  intros H. apply lacks_interior; revert H; unfold setUniform;
    destruct u as [ty v|s o].
  - destruct ty; try (intros [= <-]; repeat constructor);
      destruct (asFloat32Array v); intros [= <-]; repeat constructor.
  - destruct textureUnit; intros [= <-]. repeat constructor.
  - destruct ty; try (intros [= <-]; repeat constructor);
      destruct (asFloat32Array v); intros [= <-]; repeat constructor.
  - destruct textureUnit; intros [= <-]. repeat constructor.
Qed.

Lemma outcomeCalls_interior (locations : JSMap WebGLUniformLocation)
    (activeUniforms : Uniforms) (textureUnits : JSMap nat) (key : string) :
  lacks p (outcomeCalls (uniformOutcome locations activeUniforms textureUnits key)).
Proof.
  unfold uniformOutcome, outcomeCalls.
  destruct (Map_get locations key) as [loc|]; [|constructor].
  destruct (Map_get activeUniforms key) as [u|]; [|constructor].
  destruct (setUniform loc u (Map_get textureUnits key)) eqn:E; [|constructor].
  eapply setUniform_interior; eauto.
Qed.

Lemma frameOpening_interior (info : WebGLProgramInfo)
    (options : option ShaderCanvasOptions) (canvas : Canvas)
    (mouse : number * number) (time : number) :
  lacks p (frameOpening info options canvas mouse time).
Proof.
  apply lacks_interior; unfold frameOpening; cbv zeta; cbn [app];
    repeat constructor; lacks_cases.
Qed.

Lemma frameCalls_count (info : WebGLProgramInfo)
    (options : option ShaderCanvasOptions) (canvas : Canvas) (time : number)
    (st : State) :
  countCalls p (frameCalls info options canvas time st)
  = if p (gl_drawArrays 0 6) then 1 else 0.
Proof.
  unfold frameCalls. rewrite !countCalls_app.
  rewrite (countCalls_lacks (frameOpening_interior info options canvas
                               (mousePosition st) time)).
  rewrite (countCalls_lacks
             (lacks_flat_map (refreshCallsOf (uniformsRef st)) (texturesRef st)
                (refreshCallsOf_interior (uniformsRef st)))).
  rewrite (countCalls_lacks
             (lacks_flat_map _ (changedUniformsRef st)
                (outcomeCalls_interior (uniformLocations info) (uniformsRef st)
                   (textureUnitsRef st)))).
  unfold countCalls. simpl. destruct (p (gl_drawArrays 0 6)); reflexivity.
Qed.
End FrameInterior.

Lemma frameCalls_viewports (info : WebGLProgramInfo)
    (options : option ShaderCanvasOptions) (canvas : Canvas) (time : number)
    (st : State) :
  countCalls isViewport (frameCalls info options canvas time st) = 0.
Proof.
  apply (@frameCalls_count isViewport); auto.
Qed.

Lemma frameCalls_draws (info : WebGLProgramInfo)
    (options : option ShaderCanvasOptions) (canvas : Canvas) (time : number)
    (st : State) :
  countCalls isDraw (frameCalls info options canvas time st) = 1.
Proof.
  apply (@frameCalls_count isDraw); auto.
Qed.

(** ** The claims on the component *)

(** C6, evaluated.  The component hands [useTextures] the context and the
    uniforms only, so the textures it creates are the same whatever the
    [options] prop holds; with [defaultTextureOptions] asking for
    [REPEAT] and a texture uniform without options, the texture is
    created with the built-in [CLAMP_TO_EDGE] (33071), not with
    [REPEAT] (10497). *)
Theorem defaultTextureOptions_unused :
  (forall (u : Uniforms) (ratio : number) (o o' : option ShaderCanvasOptions)
          (f : bool) (programInfo : option WebGLProgramInfo) (dom : Dom)
          (st : State),
     ShaderCanvas_useTextures
       {| uniforms := u; pixelRatio := ratio; options := o; onFrameRender := f |}
       programInfo dom st
     = ShaderCanvas_useTextures
         {| uniforms := u; pixelRatio := ratio; options := o'; onFrameRender := f |}
         programInfo dom st) /\
  calls (gl (ShaderCanvas_useTextures fallbackProps (Some bareProgram) readyDom state0))
  = [ gl_createTexture; gl_activeTexture 0; gl_bindTexture 0;
      gl_texParameteri TEXTURE_WRAP_S (TextureWrap_code CLAMP_TO_EDGE);
      gl_texParameteri TEXTURE_WRAP_T (TextureWrap_code CLAMP_TO_EDGE);
      gl_texParameteri TEXTURE_MIN_FILTER (TextureFilter_code LINEAR);
      gl_texParameteri TEXTURE_MAG_FILTER (TextureFilter_code LINEAR);
      gl_pixelStorei_UNPACK_FLIP_Y true;
      gl_texImage2D image1 ].
Proof. split; [reflexivity|vm_compute; reflexivity]. Qed.

Lemma canvasDimension_kept (default : Z) (x : number) :
  isCanvasSize x = true -> strictEq (canvasDimension default x) x = true.
Proof.
  intros H. destruct x as [s|s| |s m e]; try discriminate.
  - destruct s; reflexivity.
  - unfold canvasDimension. rewrite H. destruct s; [discriminate|].
    unfold strictEq, SFeqb, SFcompare. rewrite Z.compare_refl.
    now rewrite Pos.compare_cont_refl.
Qed.

Lemma zero_times_assigned (default : Z) (x : number) :
  isFiniteNumber x = true ->
  canvasDimension default (Math_floor (mul x (ofZ 0))) = ofZ 0.
Proof.
  destruct x as [s|s| |s m e]; simpl; try discriminate; intros _; reflexivity.
Qed.

Lemma zero_times_floor (x : number) :
  isFiniteNumber x = true ->
  strictEq (Math_floor (mul x (ofZ 0))) (ofZ 0) = true.
Proof.
  destruct x as [s|s| |s m e]; simpl; try discriminate; intros _; reflexivity.
Qed.

(** C7 (amended).  Without a canvas or a linked program the resize
    handler does nothing.  With both, it computes the target backing
    store as [Math.floor(clientSize * pixelRatio)] per axis; when the
    target is [===] to the current backing store on both axes the state
    is left as it is; otherwise the two targets are assigned to the
    canvas, one viewport call [(0, 0, width, height)] is issued with the
    targets, and the render function, when one is registered, is run once
    at once - which draws one frame when that function holds a linked
    program.  After the assignment the canvas holds the target on every
    axis whose target is an integer from 0 to 2147483647, the numbers a
    canvas keeps.  A pixel ratio of zero is accepted and makes the target
    and the backing store zero on both axes. *)
Theorem handleResize_behaviour (programInfo : option WebGLProgramInfo)
    (ratio now now' : number) (st : State) :
  (canvasRef st = None \/ programInfo = None ->
   handleResize programInfo ratio now now' st = st) /\
  (forall canvas info,
     canvasRef st = Some canvas -> programInfo = Some info ->
     let displayWidth := Math_floor (mul (clientWidth canvas) ratio) in
     let displayHeight := Math_floor (mul (clientHeight canvas) ratio) in
     let st' := handleResize programInfo ratio now now' st in
     let assigned :=
       resizedCanvas canvas (canvasDimension 300 displayWidth)
         (canvasDimension 150 displayHeight) in
     let resized :=
       emit [gl_viewport (ofZ 0) (ofZ 0) displayWidth displayHeight]
         (with_canvas (Some assigned) st) in
     (strictEq (width canvas) displayWidth = true ->
      strictEq (height canvas) displayHeight = true -> st' = st) /\
     (strictEq (width canvas) displayWidth = false \/
      strictEq (height canvas) displayHeight = false ->
      st' = match renderFnRef st with
            | Some fn => renderLoop (rf_programInfo fn) (rf_options fn) now now' resized
            | None => resized
            end /\
      canvasRef st' = Some assigned /\
      (isCanvasSize displayWidth = true ->
       strictEq (width assigned) displayWidth = true) /\
      (isCanvasSize displayHeight = true ->
       strictEq (height assigned) displayHeight = true) /\
      exists frame,
        calls (gl st')
        = calls (gl st)
          ++ gl_viewport (ofZ 0) (ofZ 0) displayWidth displayHeight :: frame /\
        countCalls isViewport frame = 0 /\
        countCalls isDraw frame
        = match renderFnRef st with
          | Some {| rf_programInfo := Some _ |} => 1
          | _ => 0
          end) /\
     (ratio = ofZ 0 ->
      isFiniteNumber (clientWidth canvas) = true ->
      isFiniteNumber (clientHeight canvas) = true ->
      strictEq displayWidth (ofZ 0) = true /\
      strictEq displayHeight (ofZ 0) = true /\
      width assigned = ofZ 0 /\ height assigned = ofZ 0)).
Proof.
  split.
  - intros [H| ->]; unfold handleResize.
    + now rewrite H.
    + destruct (canvasRef st); reflexivity.
  - intros canvas info Hc -> displayWidth displayHeight st' assigned resized.
    assert (Est : st' = if negb (strictEq (width canvas) displayWidth)
                           || negb (strictEq (height canvas) displayHeight)
                        then match renderFnRef st with
                             | Some fn =>
                                 renderLoop (rf_programInfo fn) (rf_options fn)
                                   now now' resized
                             | None => resized
                             end
                        else st).
    { subst st'. unfold handleResize. rewrite Hc. reflexivity. }
    split; [|split].
    + intros Hw Hh. rewrite Est, Hw, Hh. reflexivity.
    + intros Hdiff.
      assert (Hcond : negb (strictEq (width canvas) displayWidth)
                      || negb (strictEq (height canvas) displayHeight) = true).
      { destruct Hdiff as [-> | ->]; simpl; [reflexivity|apply orb_true_r]. }
      rewrite Hcond in Est. split; [exact Est|].
      split; [|split; [|split]].
      2:{ intros Hw. exact (canvasDimension_kept 300 _ Hw). }
      2:{ intros Hh. exact (canvasDimension_kept 150 _ Hh). }
      * rewrite Est.
        assert (Hcr : canvasRef resized = Some assigned) by reflexivity.
        destruct (renderFnRef st) as [[[info'|] opts]|];
          cbn [rf_programInfo rf_options]; [|now rewrite renderLoop_idle by now right|reflexivity].
        destruct (@renderLoop_running info' opts now now' resized _ Hcr)
          as [_ [_ [_ [_ [_ [_ [_ [Hc' _]]]]]]]].
        now rewrite Hc'.
      * rewrite Est.
        assert (Hcr : canvasRef resized = Some assigned) by reflexivity.
        destruct (renderFnRef st) as [[[info'|] opts]|]; cbn [rf_programInfo rf_options].
        -- destruct (@renderLoop_running info' opts now now' resized _ Hcr)
             as [HG _].
           exists (frameCalls info' opts assigned now resized).
           rewrite HG. split; [|split].
           ++ cbn [gl_emit calls resized emit with_gl gl]. now rewrite <- app_assoc.
           ++ apply frameCalls_viewports.
           ++ apply frameCalls_draws.
        -- rewrite renderLoop_idle by now right.
           exists []. repeat split.
        -- exists []. repeat split.
    + intros -> Hw Hh.
      split; [now apply zero_times_floor|].
      split; [now apply zero_times_floor|].
      split; [exact (zero_times_assigned 300 _ Hw)|exact (zero_times_assigned 150 _ Hh)].
Qed.

Lemma handleResize_behaviour_witness :
  canvasRef (handleResize (Some bareProgram) (ofZ 2) (ofZ 100) (ofZ 100) loopState)
  = Some (resizedCanvas canvas0 (ofZ 800) (ofZ 600)) /\
  exists frame,
    calls (gl (handleResize (Some bareProgram) (ofZ 2) (ofZ 100) (ofZ 100) loopState))
    = calls (gl loopState)
      ++ gl_viewport (ofZ 0) (ofZ 0) (ofZ 800) (ofZ 600) :: frame /\
    countCalls isViewport frame = 0 /\
    countCalls isDraw frame = 1.
Proof.
  destruct (proj2 (handleResize_behaviour (Some bareProgram) (ofZ 2) (ofZ 100)
                     (ofZ 100) loopState)
              canvas0 bareProgram eq_refl eq_refl) as [_ [H _]].
  destruct (H (or_introl eq_refl)) as [_ [Hc [_ [_ Hframe]]]].
  split; [exact Hc|exact Hframe].
Defined.

(** C7 as stated fails: with no render function registered - as when
    the handler runs in the commit that first delivers the linked
    program, after the cleanup of the render-loop effect - the backing
    store changes and the viewport call is issued, but no frame is
    rendered. *)
Lemma handleResize_without_frame :
  canvasRef (handleResize (Some bareProgram) (ofZ 1) (ofZ 100) (ofZ 100) state0)
  = Some (resizedCanvas canvas0 (ofZ 400) (ofZ 300)) /\
  calls (gl (handleResize (Some bareProgram) (ofZ 1) (ofZ 100) (ofZ 100) state0))
  = [gl_viewport (ofZ 0) (ofZ 0) (ofZ 400) (ofZ 300)] /\
  countCalls isDraw
    (calls (gl (handleResize (Some bareProgram) (ofZ 1) (ofZ 100) (ofZ 100) state0)))
  = 0.
Proof. vm_compute. repeat split. Qed.

(** A target outside the range of a canvas: with a pixel ratio of -1.5
    on a 333 x 201 layout the target is -500 x -302, the viewport call
    gets these numbers, and the canvas falls back to 300 x 150; as the
    canvas never holds the target, the next run resizes again. *)
Example handleResize_out_of_range :
  let wide :=
    with_canvas
      (Some {| clientWidth := ofZ 333; clientHeight := ofZ 201;
               width := ofZ 640; height := ofZ 480 |}) state0 in
  let st1 := handleResize (Some bareProgram) negThreeHalves (ofZ 100) (ofZ 100) wide in
  let st2 := handleResize (Some bareProgram) negThreeHalves (ofZ 200) (ofZ 200) st1 in
  canvasRef st1
  = Some {| clientWidth := ofZ 333; clientHeight := ofZ 201;
            width := ofZ 300; height := ofZ 150 |} /\
  calls (gl st1) = [gl_viewport (ofZ 0) (ofZ 0) (ofZ (-500)) (ofZ (-302))] /\
  calls (gl st2)
  = [gl_viewport (ofZ 0) (ofZ 0) (ofZ (-500)) (ofZ (-302));
     gl_viewport (ofZ 0) (ofZ 0) (ofZ (-500)) (ofZ (-302))].
Proof. vm_compute. repeat split. Qed.

(** C8 (amended).  In every frame rendered with a canvas and a linked
    program that declares the time uniform under its configured name,
    the value pushed for that uniform is the timestamp handed to
    [renderLoop] times [0.001], whatever the refs of the component hold:
    the frame opens with the clear, the resolution when the program
    declares it, and then [uniform1f(timeLoc, time * 0.001)].  No time
    of a start is subtracted. *)
Theorem u_time_is_timestamp (info : WebGLProgramInfo)
    (options : option ShaderCanvasOptions) (time now : number) (st : State)
    (canvas : Canvas) (timeLoc : WebGLUniformLocation) :
  canvasRef st = Some canvas ->
  Map_get (program info) (builtInName options u_time "u_time") = Some timeLoc ->
  let st' := renderLoop (Some info) options time now st in
  exists rest,
    calls (gl st')
    = calls (gl st)
      ++ [ gl_clearColor (ofZ 0) (ofZ 0) (ofZ 0) (ofZ 1); gl_clear ]
      ++ match Map_get (program info)
                 (builtInName options u_resolution "u_resolution") with
         | Some loc =>
             [gl_uniform2f loc (JSnumber (width canvas)) (JSnumber (height canvas))]
         | None => []
         end
      ++ gl_uniform1f timeLoc (JSnumber (mul time milli)) :: rest.
Proof.
  intros Hc Hloc st'.
  destruct (@renderLoop_running info options time now st canvas Hc) as [HG _].
  fold st' in HG. rewrite HG. cbn [gl_emit calls].
  unfold frameCalls, frameOpening. rewrite Hloc.
  eexists. rewrite <- !app_assoc. cbn [app]. reflexivity.
Qed.

Lemma u_time_is_timestamp_witness :
  exists rest,
    calls (gl (renderLoop (Some timedProgram) None (ofZ 5000) (ofZ 5016) state0))
    = [ gl_clearColor (ofZ 0) (ofZ 0) (ofZ 0) (ofZ 1); gl_clear;
        gl_uniform1f 7 (JSnumber (mul (ofZ 5000) milli)) ] ++ rest.
Proof.
  exact (@u_time_is_timestamp timedProgram None (ofZ 5000) (ofZ 5016) state0
           canvas0 7 eq_refl eq_refl).
Defined.

(** C8 as stated fails: a component mounted at 2000 ms, whose render
    loop gets its first tick at 2000 ms, pushes 2 on that tick and 5 on
    the tick at 5000 ms, where the time elapsed since the loop began is
    0 and 3 seconds. *)
Lemma u_time_not_elapsed :
  calls (gl (runTicks (Some timedProgram) None
               [(ofZ 2000, ofZ 2000); (ofZ 5000, ofZ 5000)]
               (with_frame (ofZ 2000) [] state0)))
  = [ gl_clearColor (ofZ 0) (ofZ 0) (ofZ 0) (ofZ 1); gl_clear;
      gl_uniform1f 7 (JSnumber (ofZ 2)); gl_drawArrays 0 6;
      gl_clearColor (ofZ 0) (ofZ 0) (ofZ 0) (ofZ 1); gl_clear;
      gl_uniform1f 7 (JSnumber (ofZ 5)); gl_drawArrays 0 6 ] /\
  strictEq (ofZ 2) (mul (sub (ofZ 2000) (ofZ 2000)) milli) = false /\
  strictEq (ofZ 5) (mul (sub (ofZ 5000) (ofZ 2000)) milli) = false.
Proof. vm_compute. repeat split. Qed.

(** C9.  In a frame rendered with a canvas and a linked program, every
    name of the changed set that has a location is dealt with on its
    own: when [setUniform] returns, its calls are in the trace of the
    frame; when it throws, the error is logged; whichever happens to the
    other names.  The changed set is empty afterwards and the frame ends
    with its one draw call. *)
Theorem uniform_failure_contained (info : WebGLProgramInfo)
    (options : option ShaderCanvasOptions) (time now : number) (st : State)
    (canvas : Canvas) :
  canvasRef st = Some canvas ->
  let st' := renderLoop (Some info) options time now st in
  changedUniformsRef st' = [] /\
  (exists frame,
     calls (gl st') = calls (gl st) ++ frame ++ [gl_drawArrays 0 6] /\
     countCalls isDraw frame = 0) /\
  (forall key loc,
     In key (changedUniformsRef st) ->
     Map_get (uniformLocations info) key = Some loc ->
     match
       match Map_get (uniformsRef st) key with
       | Some uniform => setUniform loc uniform (Map_get (textureUnitsRef st) key)
       | None => Throw TypeError_undefinedUniform
       end
     with
     | Ok cs =>
         exists before after,
           calls (gl st') = calls (gl st) ++ before ++ cs ++ after
     | Throw error =>
         In (console_error ("Failed to set uniform " ++ quoted key ++ ":")%string
               error)
            (console st')
     end).
Proof.
  intros Hc st'.
  destruct (@renderLoop_running info options time now st canvas Hc)
    as [HG [HC [Hch _]]].
  fold st' in HG, HC, Hch.
  split; [exact Hch|]. split.
  - exists (frameOpening info options canvas (mousePosition st) time
            ++ flat_map (refreshCallsOf (uniformsRef st)) (texturesRef st)
            ++ flat_map
                 (fun key =>
                    outcomeCalls
                      (uniformOutcome (uniformLocations info) (uniformsRef st)
                         (textureUnitsRef st) key))
                 (changedUniformsRef st)).
    split.
    + rewrite HG. cbn [gl_emit calls]. unfold frameCalls.
      now rewrite <- !app_assoc.
    + rewrite !countCalls_app.
      rewrite (countCalls_lacks
                 (@frameOpening_interior isDraw (fun c H => or_intror H)
                    info options canvas (mousePosition st) time)).
      rewrite (countCalls_lacks
                 (lacks_flat_map (refreshCallsOf (uniformsRef st)) (texturesRef st)
                    (@refreshCallsOf_interior isDraw (fun c H => or_intror H)
                       (uniformsRef st)))).
      rewrite (countCalls_lacks
                 (lacks_flat_map _ (changedUniformsRef st)
                    (@outcomeCalls_interior isDraw (fun c H => or_intror H)
                       (uniformLocations info) (uniformsRef st)
                       (textureUnitsRef st)))).
      reflexivity.
  - intros key loc Hin Hloc.
    apply in_split in Hin. destruct Hin as [l1 [l2 Hsplit]].
    assert (Ho : uniformOutcome (uniformLocations info) (uniformsRef st)
                   (textureUnitsRef st) key
                 = Some match Map_get (uniformsRef st) key with
                        | Some uniform =>
                            setUniform loc uniform (Map_get (textureUnitsRef st) key)
                        | None => Throw TypeError_undefinedUniform
                        end).
    { unfold uniformOutcome. now rewrite Hloc. }
    destruct (match Map_get (uniformsRef st) key with
              | Some uniform =>
                  setUniform loc uniform (Map_get (textureUnitsRef st) key)
              | None => Throw TypeError_undefinedUniform
              end) as [cs|error].
    + rewrite HG. cbn [gl_emit calls]. unfold frameCalls.
      rewrite Hsplit, flat_map_app. cbn [flat_map]. rewrite Ho. cbn [outcomeCalls].
      exists (frameOpening info options canvas (mousePosition st) time
              ++ flat_map (refreshCallsOf (uniformsRef st)) (texturesRef st)
              ++ flat_map
                   (fun key =>
                      outcomeCalls
                        (uniformOutcome (uniformLocations info) (uniformsRef st)
                           (textureUnitsRef st) key)) l1).
      exists (flat_map
                (fun key =>
                   outcomeCalls
                     (uniformOutcome (uniformLocations info) (uniformsRef st)
                        (textureUnitsRef st) key)) l2
              ++ [gl_drawArrays 0 6]).
      rewrite <- !app_assoc. reflexivity.
    + rewrite HC. unfold frameErrors.
      rewrite Hsplit, flat_map_app. cbn [flat_map]. rewrite Ho. cbn [outcomeErrors].
      apply in_or_app. right. apply in_or_app. right. now left.
Qed.

Lemma uniform_failure_contained_witness :
  changedUniformsRef
    (renderLoop (Some failingProgram) None (ofZ 16) (ofZ 16) failingState) = [] /\
  In (console_error ("Failed to set uniform " ++ quoted "u_bad" ++ ":")%string
        Error_TextureUnitMustBeProvided)
     (console (renderLoop (Some failingProgram) None (ofZ 16) (ofZ 16) failingState)) /\
  exists before after,
    calls (gl (renderLoop (Some failingProgram) None (ofZ 16) (ofZ 16) failingState))
    = calls (gl failingState) ++ before
      ++ [gl_uniform1f 2 (JSnumber (ofZ 1))] ++ after.
Proof.
  destruct (@uniform_failure_contained failingProgram None (ofZ 16) (ofZ 16)
              failingState canvas0 eq_refl) as [Hch [_ Hkeys]].
  split; [exact Hch|]. split.
  - exact (Hkeys "u_bad"%string 1 (or_introl eq_refl) eq_refl).
  - exact (Hkeys "u_ok"%string 2 (or_intror (or_introl eq_refl)) eq_refl).
Defined.

(** ** More on the diff engine *)

Lemma strictEq_sym (x y : number) : strictEq x y = strictEq y x.
Proof.
  unfold strictEq, SFeqb.
  destruct x as [sx|sx| |sx mx ex], y as [sy|sy| |sy my ey]; cbn [SFcompare];
    try reflexivity;
    try (destruct sx; reflexivity); try (destruct sy; reflexivity);
    try (destruct sx, sy; reflexivity).
  pose proof (Pos.compare_cont_antisym mx my Eq) as H. cbn [CompOpp] in H.
  rewrite (Z.compare_antisym ex ey), <- H.
  destruct sx, sy, (ex ?= ey)%Z, (Pos.compare_cont Eq mx my); reflexivity.
Qed.

Lemma strictEq_self (x : number) : strictEq x x = negb (isNaN x).
Proof.
  destruct (isNaN x) eqn:E.
  - destruct x; try discriminate. reflexivity.
  - now apply strictEq_refl.
Qed.

Lemma pairwise_sym (x y : list number) : pairwise x y = pairwise y x.
Proof.
  revert y. induction x as [|a x IH]; intros [|b y]; simpl; try reflexivity.
  now rewrite strictEq_sym, IH.
Qed.

Lemma pairwise_self (x : list number) : pairwise x x = negb (existsb isNaN x).
Proof.
  induction x as [|a x IH]; simpl; [reflexivity|].
  now rewrite strictEq_self, IH, negb_orb.
Qed.

Lemma opt_eqb_sym (A : Type) (dec : forall a b : A, {a = b} + {a <> b})
    (x y : option A) : opt_eqb dec x y = opt_eqb dec y x.
Proof.
  destruct x as [a|], y as [b|]; simpl; try reflexivity.
  destruct (dec a b), (dec b a); congruence.
Qed.

Lemma optionsFieldsEqual_sym (a b : TextureOptions) :
  optionsFieldsEqual a b = optionsFieldsEqual b a.
Proof.
  unfold optionsFieldsEqual.
  now rewrite (opt_eqb_sym _ (wrapS a)), (opt_eqb_sym _ (wrapT a)),
    (opt_eqb_sym _ (minFilter a)), (opt_eqb_sym _ (magFilter a)),
    (opt_eqb_sym _ (flipY a)).
Qed.

Lemma uniformsEqual_sym (a b : UniformValue) :
  uniformsEqual a b = uniformsEqual b a.
Proof.
  unfold uniformsEqual.
  destruct (UniformType_eq_dec (typeOf a) (typeOf b)) as [E|E],
           (UniformType_eq_dec (typeOf b) (typeOf a)) as [E'|E'];
    try congruence.
  destruct a as [ta va|sa oa], b as [tb vb|sb ob]; try reflexivity.
  - destruct va as [x|x|x], vb as [y|y|y]; try reflexivity;
      rewrite ?arrayBranch_pairwise.
    + apply strictEq_sym.
    + apply pairwise_sym.
    + apply pairwise_sym.
  - destruct (Source_eq_dec sa sb), (Source_eq_dec sb sa); try congruence.
    destruct oa, ob; try reflexivity. apply optionsFieldsEqual_sym.
Qed.

Lemma uniformsEqual_self (u : UniformValue) :
  uniformsEqual u u = negb (hasNaN u).
Proof.
  unfold uniformsEqual.
  destruct (UniformType_eq_dec (typeOf u) (typeOf u)); [|congruence].
  destruct u as [t v|s o]; cbn [hasNaN].
  - destruct v as [x|x|x]; cbn [elements existsb];
      rewrite ?arrayBranch_pairwise, ?orb_false_r.
    + apply strictEq_self.
    + apply pairwise_self.
    + apply pairwise_self.
  - destruct (Source_eq_dec s s); [|congruence].
    destruct o as [o|]; [|reflexivity].
    unfold optionsFieldsEqual. now rewrite !opt_eqb_refl.
Qed.

Lemma strictEq_true (x y : number) :
  strictEq x y = true ->
  match x with
  | S754_zero _ => exists s, y = S754_zero s
  | S754_nan => False
  | _ => y = x
  end.
Proof.
  unfold strictEq, SFeqb.
  destruct x as [sx|sx| |sx mx ex], y as [sy|sy| |sy my ey]; cbn [SFcompare];
    try discriminate;
    try (destruct sx; discriminate); try (destruct sy; discriminate).
  - intros _. now exists sy.
  - destruct sx, sy; try discriminate; reflexivity.
  - destruct sx, sy; try discriminate;
      destruct (ex ?= ey)%Z eqn:Ee; try discriminate;
      destruct (Pos.compare_cont Eq mx my) eqn:Em; try discriminate;
      apply Z.compare_eq in Ee; apply Pos.compare_eq in Em; now subst.
Qed.

Lemma strictEq_trans (x y z : number) :
  strictEq x y = true -> strictEq y z = true -> strictEq x z = true.
Proof.
  intros Hxy Hyz. apply strictEq_true in Hxy.
  destruct x as [sx|sx| |sx mx ex]; try contradiction; try (now subst y).
  destruct Hxy as [s ->]. apply strictEq_true in Hyz. destruct Hyz as [s' ->].
  reflexivity.
Qed.

Lemma pairwise_trans (x y z : list number) :
  pairwise x y = true -> pairwise y z = true -> pairwise x z = true.
Proof.
  revert y z. induction x as [|a x IH]; intros [|b y] [|c z]; simpl;
    try discriminate; try reflexivity.
  rewrite !andb_true_iff. intros [H1 H2] [H3 H4]. split.
  - eapply strictEq_trans; eauto.
  - eapply IH; eauto.
Qed.

Lemma opt_eqb_true (A : Type) (dec : forall a b : A, {a = b} + {a <> b})
    (x y : option A) : opt_eqb dec x y = true <-> x = y.
Proof.
  destruct x as [a|], y as [b|]; simpl; try (split; congruence).
  destruct (dec a b); split; congruence.
Qed.

Lemma optionsFieldsEqual_true (a b : TextureOptions) :
  optionsFieldsEqual a b = true <-> a = b.
Proof.
  unfold optionsFieldsEqual. rewrite !andb_true_iff, !opt_eqb_true.
  destruct a, b; simpl. split.
  - intros [[[[-> ->] ->] ->] ->]. reflexivity.
  - intros [= -> -> -> -> ->]. tauto.
Qed.

Lemma uniformsEqual_trans (a b c : UniformValue) :
  uniformsEqual a b = true -> uniformsEqual b c = true ->
  uniformsEqual a c = true.
Proof.
  unfold uniformsEqual.
  destruct (UniformType_eq_dec (typeOf a) (typeOf b)) as [E1|E1]; [|discriminate].
  destruct (UniformType_eq_dec (typeOf b) (typeOf c)) as [E2|E2]; [|discriminate].
  destruct (UniformType_eq_dec (typeOf a) (typeOf c)) as [E3|E3]; [|congruence].
  destruct a as [ta va|sa oa], b as [tb vb|sb ob], c as [tc vc|sc oc];
    try discriminate.
  - destruct va as [x|x|x], vb as [y|y|y], vc as [z|z|z]; try discriminate;
      rewrite ?arrayBranch_pairwise.
    + apply strictEq_trans.
    + apply pairwise_trans.
    + apply pairwise_trans.
  - destruct (Source_eq_dec sa sb), (Source_eq_dec sb sc); try discriminate.
    destruct (Source_eq_dec sa sc); [|congruence].
    destruct oa as [oa|], ob as [ob|], oc as [oc|]; try discriminate;
      try reflexivity.
    rewrite !optionsFieldsEqual_true. congruence.
Qed.

(** X1.  [uniformsEqual] is a partial equivalence on uniform values: it
    does not depend on the order of its arguments, it is transitive, and a
    value is equal to itself exactly when none of its elements is NaN. *)
Theorem uniformsEqual_partial_equivalence (a b c : UniformValue) :
  uniformsEqual a b = uniformsEqual b a /\
  (uniformsEqual a b = true -> uniformsEqual b c = true ->
   uniformsEqual a c = true) /\
  uniformsEqual a a = negb (hasNaN a).
Proof.
  split; [apply uniformsEqual_sym|].
  split; [apply uniformsEqual_trans|apply uniformsEqual_self].
Qed.

Lemma uniformsEqual_partial_equivalence_witness :
  uniformsEqual (NumericUniform T_vec2 (Arr [plusZero; ofZ 1]))
                (NumericUniform T_vec2 (Arr [minusZero; ofZ 1])) = true /\
  uniformsEqual (NumericUniform T_vec2 (Arr [minusZero; ofZ 1]))
                (NumericUniform T_vec2 (Arr [plusZero; ofZ 1])) = true /\
  uniformsEqual (NumericUniform T_vec2 (Arr [plusZero; ofZ 1]))
                (NumericUniform T_vec2 (Arr [plusZero; ofZ 1])) = true.
Proof.
  split; [reflexivity|]. split; [reflexivity|].
  apply (uniformsEqual_partial_equivalence
           (NumericUniform T_vec2 (Arr [plusZero; ofZ 1]))
           (NumericUniform T_vec2 (Arr [minusZero; ofZ 1]))
           (NumericUniform T_vec2 (Arr [plusZero; ofZ 1]))); reflexivity.
Defined.

Section CollectInOrder.
Variable P : string -> bool.
Variable f : StrSet -> string -> StrSet.
Hypothesis Hf : forall s k, f s k = if P k then Set_add s k else s.

Lemma collect_filter (l : list string) (acc : StrSet) :
  NoDup (acc ++ l) -> fold_left f l acc = acc ++ filter P l.
Proof.
  revert acc. induction l as [|k l IH]; intros acc Hnd; simpl.
  - now rewrite app_nil_r.
  - rewrite Hf. destruct (P k).
    + assert (Hk : ~ In k acc).
      { apply NoDup_remove_2 in Hnd. intros Hin. apply Hnd.
        apply in_or_app. now left. }
      unfold Set_add.
      assert (Hh : Set_has acc k = false).
      { destruct (Set_has acc k) eqn:E; [|reflexivity].
        apply Set_has_In in E. contradiction. }
      rewrite Hh, IH.
      * now rewrite <- app_assoc.
      * now rewrite <- app_assoc.
    + apply IH. now apply NoDup_remove_1 in Hnd.
Qed.
End CollectInOrder.

(** X2.  The result of [getChangedUniforms] lists the changed names in the
    order in which the current snapshot enumerates them; without a
    previous snapshot it is the list of all its names. *)
Theorem getChangedUniforms_in_order (current previous : Uniforms) :
  NoDup (Map_keys current) ->
  getChangedUniforms current (Some previous)
  = filter (isChanged current previous) (Map_keys current) /\
  getChangedUniforms current None = Map_keys current.
Proof.
  intros Hnd. unfold getChangedUniforms, Set_of. split.
  - now rewrite (collect_filter (isChanged current previous) _
                   (diffStep_isChanged current previous)).
  - rewrite (collect_filter (fun _ => true) Set_add (fun s k => eq_refl));
      [|exact Hnd].
    simpl. clear Hnd. induction (Map_keys current) as [|k l IH]; simpl; congruence.
Qed.

Lemma getChangedUniforms_in_order_witness :
  NoDup (Map_keys editedSnapshot) /\
  getChangedUniforms editedSnapshot (Some sampleSnapshot)
  = ["u_b"; "u_new"]%string.
Proof.
  assert (H : NoDup (Map_keys editedSnapshot)).
  { repeat constructor; simpl; intuition discriminate. }
  split; [exact H|].
  exact (eq_trans
           (proj1 (getChangedUniforms_in_order editedSnapshot sampleSnapshot H))
           eq_refl).
Defined.

Lemma cloneUniformValue_id (u : UniformValue) : cloneUniformValue u = u.
Proof.
  destruct u as [t v|s o]; cbn [cloneUniformValue].
  - destruct v; now rewrite ?map_id.
  - destruct o as [o|]; [|reflexivity]. now destruct o.
Qed.

Lemma Map_get_NoDup_In (V : Type) (m : JSMap V) (k : string) (v : V) :
  NoDup (Map_keys m) -> In (k, v) m -> Map_get m k = Some v.
Proof.
  induction m as [|[k' v'] m IH]; simpl; [contradiction|].
  intros Hnd [H|H].
  - injection H as -> ->. now rewrite String.eqb_refl.
  - apply NoDup_cons_iff in Hnd. destruct Hnd as [Hk Hnd].
    destruct (String.eqb k k') eqn:E.
    + apply String.eqb_eq in E. subst k'. elim Hk.
      change k with (fst (k, v)). now apply in_map.
    + auto.
Qed.

Lemma cloneFold_list (A : Uniforms) (l acc : Uniforms) :
  NoDup (Map_keys (acc ++ l)) ->
  (forall k v, In (k, v) l -> Map_get A k = Some v) ->
  fold_left
    (fun cloned k =>
       match Map_get A k with
       | Some u => Map_set cloned k (cloneUniformValue u)
       | None => cloned
       end) (Map_keys l) acc
  = acc ++ l.
Proof.
  revert acc. induction l as [|[k v] l IH]; intros acc Hnd HA; simpl.
  - now rewrite app_nil_r.
  - rewrite (HA k v (or_introl eq_refl)), cloneUniformValue_id.
    assert (Hk : ~ In k (Map_keys acc)).
    { unfold Map_keys in Hnd. rewrite map_app in Hnd. simpl in Hnd.
      apply NoDup_remove_2 in Hnd. intros Hin. apply Hnd.
      apply in_or_app. now left. }
    rewrite (@Map_set_new _ acc k v Hk), IH.
    + now rewrite <- app_assoc.
    + now rewrite <- app_assoc.
    + intros k' v' Hin. apply HA. now right.
Qed.

(** X3.  For a snapshot in which no uniform is named [__proto__] (a
    name that the assignment [cloned[key] = ...] reads as the prototype
    of the clone, not as a key): a clone holds the same names in the
    same order, each with a value equal to the original in kind,
    elements, source and options; looking a name up in the clone gives
    what the original holds. *)
Theorem cloneUniforms_structural (A : Uniforms) :
  ~ In "__proto__"%string (Map_keys A) ->
  (forall key u, Map_get A key = Some u -> cloneUniformValue u = u) /\
  (forall key, Map_get (cloneUniforms A) key = Map_get A key) /\
  (NoDup (Map_keys A) -> cloneUniforms A = A).
Proof.
  intros _. split; [intros key u _; apply cloneUniformValue_id|]. split.
  - intros key. rewrite cloneUniforms_get.
    destruct (Map_get A key); [now rewrite cloneUniformValue_id|reflexivity].
  - intros Hnd. unfold cloneUniforms.
    apply (cloneFold_list A A []); [exact Hnd|].
    intros k v Hin. now apply Map_get_NoDup_In.
Qed.

Lemma cloneUniforms_structural_witness :
  ~ In "__proto__"%string (Map_keys sampleSnapshot) /\
  NoDup (Map_keys sampleSnapshot) /\ cloneUniforms sampleSnapshot = sampleSnapshot.
Proof.
  assert (P : ~ In "__proto__"%string (Map_keys sampleSnapshot)).
  { simpl. intuition discriminate. }
  assert (H : NoDup (Map_keys sampleSnapshot)).
  { repeat constructor; simpl; intuition discriminate. }
  split; [exact P|]. split; [exact H|].
  exact (proj2 (proj2 (cloneUniforms_structural sampleSnapshot P)) H).
Defined.

Lemma isChanged_self (A : Uniforms) (name : string) :
  isChanged A A name = true <->
  exists u, Map_get A name = Some u /\ hasNaN u = true.
Proof.
  unfold isChanged. destruct (Map_get A name) as [u|].
  - rewrite uniformsEqual_self, negb_involutive. split.
    + intros H. now exists u.
    + now intros [u' [[= <-] H]].
  - split; [discriminate|]. now intros [u [H _]].
Qed.

(** X4.  Diffing a snapshot against its own clone reports exactly the
    names whose value holds a NaN; so when the effect on [uniforms] runs
    again with the same snapshot, these names, and no others, are marked
    as changed once more. *)
Theorem NaN_uniforms_always_changed (A : Uniforms) (name : string) :
  (In name (getChangedUniforms A (Some (cloneUniforms A)))
   <-> exists u, Map_get A name = Some u /\ hasNaN u = true) /\
  (forall (props : ShaderCanvasProps) (st : State),
     uniforms props = A ->
     (In name
        (changedUniformsRef
           (ShaderCanvas_uniformsEffect props
              (ShaderCanvas_uniformsEffect props st)))
      <-> exists u, Map_get A name = Some u /\ hasNaN u = true)).
Proof.
  assert (H : In name (getChangedUniforms A (Some (cloneUniforms A)))
              <-> exists u, Map_get A name = Some u /\ hasNaN u = true).
  { rewrite getChangedUniforms_In, <- isChanged_self. unfold isChanged.
    now rewrite cloneUniforms_get; destruct (Map_get A name) as [u|];
      rewrite ?cloneUniformValue_id. }
  split; [exact H|].
  intros props st <-. exact H.
Qed.

Lemma NaN_uniforms_always_changed_witness :
  In "u_nan"%string
    (changedUniformsRef
       (ShaderCanvas_uniformsEffect nanProps
          (ShaderCanvas_uniformsEffect nanProps state0))).
Proof.
  apply (proj2 (NaN_uniforms_always_changed nanSnapshot "u_nan") nanProps state0
           eq_refl).
  exists (NumericUniform T_float (Num NaN)). split; reflexivity.
Defined.

(** X5.  The effect on [uniforms] replaces the set of changed names
    instead of adding to it.  When it runs twice before a frame is drawn,
    the set holds the difference between the second snapshot and the
    first only: a name whose value is the same in both is not in it,
    whether or not the first run had marked it. *)
Theorem uniformsEffect_replaces_changed (first second : ShaderCanvasProps)
    (st : State) :
  changedUniformsRef
    (ShaderCanvas_uniformsEffect second (ShaderCanvas_uniformsEffect first st))
  = getChangedUniforms (uniforms second) (Some (cloneUniforms (uniforms first))) /\
  (forall name u,
     Map_get (uniforms first) name = Some u ->
     Map_get (uniforms second) name = Some u ->
     hasNaN u = false ->
     ~ In name
         (changedUniformsRef
            (ShaderCanvas_uniformsEffect second
               (ShaderCanvas_uniformsEffect first st)))).
Proof.
  split; [reflexivity|].
  intros name u H1 H2 Hn. cbn [ShaderCanvas_uniformsEffect with_uniforms
    changedUniformsRef previousUniformsRef].
  rewrite getChangedUniforms_In. unfold isChanged.
  rewrite H2, cloneUniforms_get, H1, cloneUniformValue_id, uniformsEqual_self, Hn.
  discriminate.
Qed.

Lemma uniformsEffect_replaces_changed_witness :
  In "u_gain"%string
    (changedUniformsRef (ShaderCanvas_uniformsEffect firstUpdate state0)) /\
  ~ In "u_gain"%string
      (changedUniformsRef
         (ShaderCanvas_uniformsEffect secondUpdate
            (ShaderCanvas_uniformsEffect firstUpdate state0))).
Proof.
  split; [now left|].
  apply (proj2 (uniformsEffect_replaces_changed firstUpdate secondUpdate state0)
           "u_gain"%string (NumericUniform T_float (Num (ofZ 2))));
    reflexivity.
Defined.

(** ** [setUniform]: what it calls and when it throws *)

(** X6.  A successful [setUniform] makes exactly one call, at the
    location it was given; it throws only for a texture uniform without
    a texture unit and for a matrix whose value is a plain number; the
    texture unit is ignored for numeric uniforms and is what a texture
    uniform is set to. *)
Theorem setUniform_outcomes (location : WebGLUniformLocation)
    (uniform : UniformValue) (textureUnit : option nat) :
  (forall cs, setUniform location uniform textureUnit = Ok cs ->
     exists c, cs = [c] /\ callLocation c = Some location) /\
  (forall e, setUniform location uniform textureUnit = Throw e ->
     (typeOf uniform = T_texture /\ textureUnit = None /\
      e = Error_TextureUnitMustBeProvided) \/
     (exists t x, uniform = NumericUniform t (Num x) /\ isMatrixType t = true /\
                  e = RangeError_invalidTypedArrayLength)) /\
  (typeOf uniform <> T_texture ->
   setUniform location uniform textureUnit = setUniform location uniform None) /\
  (forall unit, typeOf uniform = T_texture -> textureUnit = Some unit ->
     setUniform location uniform textureUnit
     = Ok [gl_uniform1i location (JSnumber (ofZ (Z.of_nat unit)))]).
Proof.
  destruct uniform as [t v|s o]; cbn [typeOf].
  - repeat split.
    + intros cs H. destruct t; cbn [setUniform] in H;
        try (injection H as <-; eexists; split; reflexivity);
        destruct (asFloat32Array v); try discriminate;
        injection H as <-; eexists; split; reflexivity.
    + intros e H. right. destruct t; cbn [setUniform] in H; try discriminate;
        destruct v as [x|l|l]; cbn [asFloat32Array] in H; try discriminate.
      * exists T_mat3, x. repeat split.
        destruct (toInteger x) as [k|]; [|congruence].
        destruct ((k <? 0)%Z || (2 ^ 53 - 1 <? k)%Z); congruence.
      * exists T_mat4, x. repeat split.
        destruct (toInteger x) as [k|]; [|congruence].
        destruct ((k <? 0)%Z || (2 ^ 53 - 1 <? k)%Z); congruence.
    + discriminate.
  - repeat split.
    + intros cs H. destruct textureUnit; cbn [setUniform] in H; try discriminate.
      injection H as <-. eexists. split; reflexivity.
    + intros e H. left. destruct textureUnit; cbn [setUniform] in H;
        try discriminate. repeat split. congruence.
    + congruence.
    + intros unit _ ->. reflexivity.
Qed.

Lemma setUniform_outcomes_witness :
  exists c,
    [gl_uniform3f 4 (JSnumber (ofZ 1)) (JSnumber (ofZ 2)) JSundefined] = [c] /\
    callLocation c = Some 4.
Proof.
  apply (proj1 (setUniform_outcomes 4
                  (NumericUniform T_vec3 (Arr [ofZ 1; ofZ 2])) None)).
  reflexivity.
Defined.

(** ** The pixel-store state of an upload *)

Lemma uploadFlips_skip (flip : bool) (q r : list GLCall) :
  lacks isPixelOp q -> uploadFlips flip (q ++ r) = uploadFlips flip r.
Proof.
  induction 1 as [|c q Hc _ IH]; simpl; [reflexivity|].
  destruct c; try discriminate; exact IH.
Qed.

Lemma updateTexture_calls_flip (flip : bool) (texture : WebGLTexture)
    (source : Source) (options : option TextureOptions) (unit : nat) :
  uploadFlips flip (updateTexture_calls texture source options unit)
  = [orDefault (flipY (orDefault options emptyOptions)) flip].
Proof.
  unfold updateTexture_calls. cbv zeta.
  generalize (orDefault options emptyOptions). intros o.
  change ([gl_activeTexture unit; gl_bindTexture texture] ++ ?x)
    with (gl_activeTexture unit :: gl_bindTexture texture :: x).
  cbn [uploadFlips].
  do 4 (rewrite uploadFlips_skip;
        [|repeat match goal with
                 | |- context [match ?x with _ => _ end] => destruct x
                 end; repeat constructor]).
  destruct (flipY o) as [b|];
    (destruct (minFilter o) as [f|]; [destruct (_ && _)|]); reflexivity.
Qed.

(** X7.  [createTexture] uploads the image with the flip it resolved from
    its options ([true] by default), whatever the pixel-store state was
    before.  [updateTexture] sets the flip only when [flipY] is given:
    without it the image is uploaded with the flip that the last
    [pixelStorei] of any earlier call left in force, for instance the
    one of a texture created just before. *)
Theorem upload_flip_state (flip : bool) (texture : WebGLTexture)
    (source : Source) (options : option TextureOptions) (unit : nat) :
  let created := orDefault (flipY (orDefault options emptyOptions)) true in
  uploadFlips flip (createTexture_calls texture source options unit)
  = [created] /\
  uploadFlips flip (updateTexture_calls texture source options unit)
  = [orDefault (flipY (orDefault options emptyOptions)) flip] /\
  (forall texture' source' options' unit',
     uploadFlips flip
       (createTexture_calls texture source options unit
        ++ updateTexture_calls texture' source' options' unit')
     = [created; orDefault (flipY (orDefault options' emptyOptions)) created]).
Proof.
  cbv zeta. split; [|split; [apply updateTexture_calls_flip|]].
  - unfold createTexture_calls. cbv zeta.
    destruct (isMipmapFilter _); reflexivity.
  - intros texture' source' options' unit'.
    unfold createTexture_calls. cbv zeta.
    destruct (isMipmapFilter _); cbn [app uploadFlips];
      now rewrite updateTexture_calls_flip.
Qed.

(** ** The bindings of the hook and the texture units of the context *)

Lemma unitBinding_app (u a : nat) (cur : option WebGLTexture) (l1 l2 : list GLCall) :
  unitBinding u a cur (l1 ++ l2)
  = unitBinding u (activeAfter a l1) (unitBinding u a cur l1) l2.
Proof.
  revert a cur. induction l1 as [|c l1 IH]; intros a cur; [reflexivity|].
  destruct c; simpl; apply IH.
Qed.

Lemma activeAfter_app (a : nat) (l1 l2 : list GLCall) :
  activeAfter a (l1 ++ l2) = activeAfter (activeAfter a l1) l2.
Proof.
  revert a. induction l1 as [|c l1 IH]; intros a; [reflexivity|].
  destruct c; simpl; apply IH.
Qed.

Lemma unitBinding_inert (u a : nat) (cur : option WebGLTexture) (cs : list GLCall) :
  lacks isBindingOp cs ->
  unitBinding u a cur cs = cur /\ activeAfter a cs = a.
Proof.
  induction 1 as [|c cs Hc _ IH]; [now split|].
  destruct c; try discriminate; exact IH.
Qed.

Lemma updateTexture_calls_binding (u a : nat) (cur : option WebGLTexture)
    (tex : WebGLTexture) (src : Source) (opts : option TextureOptions) (k : nat) :
  unitBinding u a cur (updateTexture_calls tex src opts k)
  = (if Nat.eqb k u then Some tex else cur) /\
  activeAfter a (updateTexture_calls tex src opts k) = k.
Proof.
  unfold updateTexture_calls. cbv zeta.
  change ([gl_activeTexture k; gl_bindTexture tex] ++ ?x)
    with (gl_activeTexture k :: gl_bindTexture tex :: x).
  cbn [unitBinding activeAfter].
  apply unitBinding_inert. unfold lacks.
  repeat (apply Forall_app; split);
    repeat match goal with
           | |- context [match ?x with _ => _ end] => destruct x
           end; repeat constructor.
Qed.

Lemma createTexture_calls_binding (u a : nat) (cur : option WebGLTexture)
    (tex : WebGLTexture) (src : Source) (opts : option TextureOptions) (k : nat) :
  unitBinding u a cur (createTexture_calls tex src opts k)
  = (if Nat.eqb k u then Some tex else cur) /\
  activeAfter a (createTexture_calls tex src opts k) = k.
Proof.
  unfold createTexture_calls. cbv zeta.
  destruct (isMipmapFilter _); cbn [app unitBinding activeAfter]; now split.
Qed.

Lemma deletions_binding (u a : nat) (t : WebGLTexture) (l : JSMap TextureInfo) :
  ~ In t (handlesOf l) ->
  unitBinding u a (Some t) (deletionsOf l) = Some t /\
  activeAfter a (deletionsOf l) = a.
Proof.
  induction l as [|[n i] l IH]; intros Hin; [now split|].
  simpl in *. destruct (Nat.eqb t (texture i)) eqn:E.
  - apply Nat.eqb_eq in E. elim Hin. now left.
  - apply IH. tauto.
Qed.

Lemma setUniform_single (loc : WebGLUniformLocation) (u : UniformValue)
    (textureUnit : option nat) (cs : list GLCall) :
  setUniform loc u textureUnit = Ok cs ->
  exists c, cs = [c] /\ callLocation c = Some loc.
Proof.
  destruct u as [t v|s o]; intros H.
  - destruct t; cbn [setUniform] in H;
      try (injection H as <-; eexists; split; reflexivity);
      destruct (asFloat32Array v); try discriminate;
      injection H as <-; eexists; split; reflexivity.
  - destruct textureUnit; cbn [setUniform] in H; try discriminate.
    injection H as <-. eexists. split; reflexivity.
Qed.

Lemma outcomeCalls_plain (locations : JSMap WebGLUniformLocation)
    (activeUniforms : Uniforms) (textureUnits : JSMap nat) (key : string) :
  Forall (fun c => isPlainCall c = true)
    (outcomeCalls (uniformOutcome locations activeUniforms textureUnits key)).
Proof.
  unfold uniformOutcome, outcomeCalls.
  destruct (Map_get locations key) as [loc|]; [|constructor].
  destruct (Map_get activeUniforms key) as [u|]; [|constructor].
  destruct (setUniform loc u (Map_get textureUnits key)) as [cs|] eqn:E;
    [|constructor].
  apply setUniform_single in E. destruct E as [c [-> Hc]].
  constructor; [|constructor]. destruct c; try discriminate; reflexivity.
Qed.

Lemma frameOpening_plain (info : WebGLProgramInfo)
    (options : option ShaderCanvasOptions) (canvas : Canvas)
    (mouse : number * number) (time : number) :
  Forall (fun c => isPlainCall c = true)
    (frameOpening info options canvas mouse time).
Proof.
  unfold frameOpening. cbv zeta.
  repeat (apply Forall_app; split);
    repeat match goal with
           | |- context [match ?x with _ => _ end] => destruct x
           end; repeat constructor.
Qed.

Lemma plain_flat_map (A : Type) (f : A -> list GLCall) (l : list A) :
  (forall a, Forall (fun c => isPlainCall c = true) (f a)) ->
  Forall (fun c => isPlainCall c = true) (flat_map f l).
Proof.
  intros H. induction l as [|a l IH]; simpl; [constructor|].
  apply Forall_app. auto.
Qed.

Lemma plain_lacks (p : GLCall -> bool) (cs : list GLCall) :
  (forall c, isPlainCall c = true -> p c = false) ->
  Forall (fun c => isPlainCall c = true) cs -> lacks p cs.
Proof. intros Hp H. unfold lacks. eapply Forall_impl; [|exact H]. exact Hp. Qed.

Lemma plain_not_binding (c : GLCall) : isPlainCall c = true -> isBindingOp c = false.
Proof. destruct c; simpl; congruence. Qed.

Lemma plain_binding (u a : nat) (cur : option WebGLTexture) (cs : list GLCall) :
  Forall (fun c => isPlainCall c = true) cs ->
  unitBinding u a cur cs = cur /\ activeAfter a cs = a.
Proof.
  intros H. apply unitBinding_inert. eapply plain_lacks; [|exact H].
  exact plain_not_binding.
Qed.

(** The textures of a well-formed pool: two bindings on one unit are one
    binding. *)
Lemma wf_same_unit (st : State) (n n' : string) (i i' : TextureInfo) :
  bindings_wf st ->
  In (n, i) (texturesRef st) -> In (n', i') (texturesRef st) ->
  unit i = unit i' -> (n, i) = (n', i').
Proof.
  intros W H H' E.
  pose proof (wf_units W) as Hu. rewrite (wf_mirror W), values_unitsOf in Hu.
  exact (NoDup_map_eq _ _ _ _ Hu H H' E).
Qed.

Lemma wf_same_handle (st : State) (n n' : string) (i i' : TextureInfo) :
  bindings_wf st ->
  In (n, i) (texturesRef st) -> In (n', i') (texturesRef st) ->
  texture i = texture i' -> (n, i) = (n', i').
Proof.
  intros W H H' E.
  exact (NoDup_map_eq _ _ _ _ (wf_handles W) H H' E).
Qed.

Lemma refresh_binding (activeUniforms : Uniforms) (textures : JSMap TextureInfo)
    (u a : nat) (t : WebGLTexture) :
  (forall n i, In (n, i) textures -> unit i = u -> texture i = t) ->
  unitBinding u a (Some t) (flat_map (refreshCallsOf activeUniforms) textures)
  = Some t.
Proof.
  revert a. induction textures as [|[n i] l IH]; intros a H; [reflexivity|].
  cbn [flat_map]. rewrite unitBinding_app.
  assert (H1 : unitBinding u a (Some t) (refreshCallsOf activeUniforms (n, i))
               = Some t).
  { unfold refreshCallsOf. cbn [fst snd].
    destruct (Map_get activeUniforms n) as [[ty v|s o]|]; try reflexivity.
    destruct (isDynamicSource s); [|reflexivity].
    rewrite (proj1 (updateTexture_calls_binding u a (Some t) _ _ _ _)).
    destruct (Nat.eqb (unit i) u) eqn:E; [|reflexivity].
    apply Nat.eqb_eq in E. f_equal. apply (H n i); [now left|exact E]. }
  rewrite H1. apply IH. intros n' i' Hin. apply (H n' i'). now right.
Qed.

Lemma frameCalls_binding (info : WebGLProgramInfo)
    (options : option ShaderCanvasOptions) (canvas : Canvas) (time : number)
    (st : State) (u a : nat) (t : WebGLTexture) :
  (forall n i, In (n, i) (texturesRef st) -> unit i = u -> texture i = t) ->
  unitBinding u a (Some t) (frameCalls info options canvas time st) = Some t.
Proof.
  intros H. unfold frameCalls.
  rewrite unitBinding_app.
  rewrite (proj1 (plain_binding u a (Some t) (frameOpening_plain _ _ _ _ _))).
  rewrite unitBinding_app, refresh_binding by exact H.
  rewrite unitBinding_app.
  match goal with
  | |- context [unitBinding u ?a' (Some t) (flat_map ?f ?l)] =>
      rewrite (proj1 (plain_binding u a' (Some t)
                        (@plain_flat_map _ f l
                           (fun key => outcomeCalls_plain _ _ _ key))))
  end.
  reflexivity.
Qed.

Lemma renderLoop_bound (programInfo : option WebGLProgramInfo)
    (options : option ShaderCanvasOptions) (time now : number) (st : State) :
  bindings_wf st -> bound_in_gl st ->
  bound_in_gl (renderLoop programInfo options time now st).
Proof.
  intros W B. destruct programInfo as [info|].
  2:{ rewrite renderLoop_idle by now right. exact B. }
  destruct (canvasRef st) as [canvas|] eqn:Hc.
  2:{ rewrite renderLoop_idle by now left. exact B. }
  destruct (@renderLoop_running info options time now st canvas Hc)
    as [HG [_ [_ [HT _]]]].
  intros name i Hin. rewrite HT in Hin. unfold boundAt. rewrite HG.
  cbn [gl_emit calls]. rewrite unitBinding_app.
  pose proof (B name i Hin) as Hb. unfold boundAt in Hb. rewrite Hb.
  apply frameCalls_binding. intros n' i' Hin' E.
  now injection (wf_same_unit _ _ _ _ W Hin' Hin E) as _ ->.
Qed.

Lemma In_Map_set (V : Type) (m : JSMap V) (k k' : string) (v v' : V) :
  In (k', v') (Map_set m k v) -> (k', v') = (k, v) \/ In (k', v') m.
Proof.
  induction m as [|[k0 v0] m IH]; simpl.
  - intros [H|[]]. now left.
  - destruct (String.eqb k k0) eqn:E.
    + apply String.eqb_eq in E. subst k0. intros [H|H]; [now left|right; now right].
    + intros [H|H]; [right; now left|]. destruct (IH H); [now left|right; now right].
Qed.

Lemma removeStale_ok (textureUniforms : JSMap TextureEntry) (st : State) :
  pool_ok st -> pool_ok (removeStale textureUniforms st).
Proof.
  intros [W B R].
  destruct (removeStale_spec textureUniforms W) as [HT [HU [HG _]]].
  constructor.
  - now apply removeStale_wf.
  - intros name i Hin. rewrite HT in Hin. apply filter_In in Hin.
    destruct Hin as [Hin Hk].
    unfold boundAt. rewrite HG. cbn [gl_emit calls]. rewrite unitBinding_app.
    pose proof (B name i Hin) as Hb. unfold boundAt in Hb. rewrite Hb.
    apply deletions_binding. unfold handlesOf. rewrite in_map_iff.
    intros [[n' i'] [E Hin']]. apply filter_In in Hin'. destruct Hin' as [Hin' Hk'].
    cbn [snd] in E.
    injection (wf_same_handle _ _ _ _ W Hin' Hin E) as -> ->.
    rewrite Hk in Hk'. discriminate.
  - intros u Hu. rewrite HU, HT, values_unitsOf in Hu. rewrite HG.
    cbn [gl_emit MAX_COMBINED_TEXTURE_IMAGE_UNITS].
    apply R. rewrite (wf_mirror W), values_unitsOf.
    apply in_map_iff in Hu. destruct Hu as [e [<- He]].
    apply filter_In in He.
    apply (in_map (fun e : string * TextureInfo => unit (snd e))). tauto.
Qed.

Lemma GL_maxUnits_le (g : GL) : GL_maxUnits g <= MAX_COMBINED_TEXTURE_IMAGE_UNITS g.
Proof. unfold GL_maxUnits. destruct (contextLost g); lia. Qed.

Lemma createOrUpdate_ok (dom : Dom) (st : State) (entry : string * TextureEntry) :
  pool_ok st -> pool_ok (createOrUpdate dom st entry).
Proof.
  intros [W B R]. constructor; [now apply createOrUpdate_wf| |];
    destruct entry as [name [value options]].
  - destruct (isTextureSourceReady dom value) eqn:Hr.
    2:{ rewrite createOrUpdate_notReady by exact Hr. exact B. }
    destruct (Map_get (texturesRef st) name) as [info|] eqn:Eg.
    + rewrite createOrUpdate_update with (info := info) by assumption.
      apply Map_get_In in Eg.
      intros n i Hin. unfold boundAt.
      cbn [texturesRef with_textures with_gl gl updateTexture gl_emit calls] in *.
      rewrite unitBinding_app,
        (proj1 (updateTexture_calls_binding _ _ _ _ _ _ _)).
      apply In_Map_set in Hin. destruct Hin as [[= -> ->]|Hin].
      * cbn [unit texture]. now rewrite Nat.eqb_refl.
      * destruct (Nat.eqb (unit info) (unit i)) eqn:E.
        -- apply Nat.eqb_eq in E.
           now injection (wf_same_unit _ _ _ _ W Eg Hin E) as _ ->.
        -- exact (B n i Hin).
    + assert (Hk : ~ In name (Map_keys (texturesRef st))) by now apply Map_get_None.
      destruct (getAvailableUnit (gl st) (textureUnitsRef st)) as [u|error] eqn:Eu.
      2:{ rewrite createOrUpdate_exhausted with (error := error) by assumption.
          exact B. }
      destruct (contextLost (gl st)) eqn:Hl.
      { rewrite createOrUpdate_lost with (u := u) by assumption.
        intros n i Hin. unfold boundAt.
        cbn [texturesRef log with_console with_gl gl gl_emit calls] in *.
        rewrite unitBinding_app. exact (B n i Hin). }
      rewrite createOrUpdate_created with (u := u) by assumption.
      apply getAvailableUnit_Ok in Eu. destruct Eu as [_ [Hfree _]].
      intros n i Hin. unfold boundAt.
      cbn [texturesRef with_textures with_gl gl gl_emit calls] in *.
      rewrite unitBinding_app, unitBinding_app,
        (proj1 (createTexture_calls_binding _ _ _ _ _ _ _)).
      cbn [unitBinding].
      rewrite Map_set_new in Hin by exact Hk.
      apply in_app_or in Hin. destruct Hin as [Hin|[[= <- <-]|[]]].
      * destruct (Nat.eqb u (unit i)) eqn:E; [|exact (B n i Hin)].
        apply Nat.eqb_eq in E. elim Hfree.
        rewrite (wf_mirror W), values_unitsOf, E.
        now apply (in_map (fun e : string * TextureInfo => unit (snd e)) _ (n, i)).
      * cbn [unit texture]. now rewrite Nat.eqb_refl.
  - destruct (isTextureSourceReady dom value) eqn:Hr.
    2:{ rewrite createOrUpdate_notReady by exact Hr. exact R. }
    destruct (Map_get (texturesRef st) name) as [info|] eqn:Eg.
    + rewrite createOrUpdate_update with (info := info) by assumption. exact R.
    + assert (Hk : ~ In name (Map_keys (textureUnitsRef st))).
      { rewrite (wf_mirror W), keys_unitsOf. now apply Map_get_None. }
      destruct (getAvailableUnit (gl st) (textureUnitsRef st)) as [u|error] eqn:Eu.
      2:{ rewrite createOrUpdate_exhausted with (error := error) by assumption.
          exact R. }
      destruct (contextLost (gl st)) eqn:Hl.
      { rewrite createOrUpdate_lost with (u := u) by assumption. exact R. }
      rewrite createOrUpdate_created with (u := u) by assumption.
      apply getAvailableUnit_Ok in Eu. destruct Eu as [Hlt _].
      pose proof (GL_maxUnits_le (gl st)).
      intros v Hv.
      cbn [textureUnitsRef with_textures with_gl gl gl_emit
           MAX_COMBINED_TEXTURE_IMAGE_UNITS] in *.
      rewrite Map_set_new in Hv by exact Hk.
      unfold Map_values in Hv. rewrite map_app in Hv.
      apply in_app_or in Hv. destruct Hv as [Hv|[<-|[]]]; [now apply R|simpl; lia].
Qed.

Lemma createOrUpdate_fold_ok (dom : Dom) (entries : JSMap TextureEntry)
    (st : State) :
  pool_ok st -> pool_ok (fold_left (createOrUpdate dom) entries st).
Proof.
  revert st. induction entries as [|e entries IH]; intros st H; simpl; [exact H|].
  apply IH. now apply createOrUpdate_ok.
Qed.

Lemma useTextures_effect_ok (dom : Dom) (glAvailable : bool)
    (textureUniforms : option (JSMap TextureEntry)) (st : State) :
  pool_ok st -> pool_ok (useTextures_effect dom glAvailable textureUniforms st).
Proof.
  intros H. unfold useTextures_effect.
  destruct glAvailable; [|exact H].
  destruct textureUniforms as [txs|]; [|exact H].
  apply createOrUpdate_fold_ok. now apply removeStale_ok.
Qed.

Lemma pool_ok_empty (st : State) :
  texturesRef st = [] -> textureUnitsRef st = [] -> pool_ok st.
Proof.
  intros HT HU. constructor.
  - now apply bindings_wf_empty.
  - intros n i Hin. rewrite HT in Hin. destruct Hin.
  - intros u Hu. rewrite HU in Hu. destruct Hu.
Qed.

Lemma useTextures_cleanup_ok (glAvailable : bool) (st : State) :
  pool_ok st -> pool_ok (useTextures_cleanup glAvailable st).
Proof.
  intros H. unfold useTextures_cleanup. destruct glAvailable; [|exact H].
  now apply pool_ok_empty.
Qed.

Lemma renderLoop_ok (programInfo : option WebGLProgramInfo)
    (options : option ShaderCanvasOptions) (time now : number) (st : State) :
  pool_ok st -> pool_ok (renderLoop programInfo options time now st).
Proof.
  intros [W B R]. constructor.
  - now apply renderLoop_wf.
  - now apply renderLoop_bound.
  - destruct programInfo as [info|].
    2:{ rewrite renderLoop_idle by now right. exact R. }
    destruct (canvasRef st) as [canvas|] eqn:Hc.
    2:{ rewrite renderLoop_idle by now left. exact R. }
    destruct (@renderLoop_running info options time now st canvas Hc)
      as [HG [_ [_ [_ [HU _]]]]].
    intros u Hu. rewrite HU in Hu. rewrite HG. now apply R.
Qed.

Lemma pool_ok_plain (cs : list GLCall) (st st' : State) :
  Forall (fun c => isPlainCall c = true) cs ->
  texturesRef st' = texturesRef st ->
  textureUnitsRef st' = textureUnitsRef st ->
  gl st' = gl_emit cs (gl st) ->
  pool_ok st -> pool_ok st'.
Proof.
  intros Hp HT HU HG [W B R]. constructor.
  - apply bindings_wf_same with (st := st); auto. rewrite HG. simpl. lia.
  - intros n i Hin. rewrite HT in Hin. unfold boundAt. rewrite HG.
    cbn [gl_emit calls]. rewrite unitBinding_app.
    rewrite (proj1 (plain_binding _ _ _ Hp)). exact (B n i Hin).
  - intros u Hu. rewrite HU in Hu. rewrite HG. now apply R.
Qed.

Lemma handleResize_ok (programInfo : option WebGLProgramInfo)
    (ratio now now' : number) (st : State) :
  pool_ok st -> pool_ok (handleResize programInfo ratio now now' st).
Proof.
  intros H. unfold handleResize.
  destruct (canvasRef st) as [canvas|]; [|exact H].
  destruct programInfo as [info|]; [|exact H].
  destruct (_ || _); [|exact H].
  match goal with
  | |- pool_ok (match renderFnRef ?s with _ => _ end) =>
      assert (H1 : pool_ok s)
  end.
  { refine (@pool_ok_plain [gl_viewport _ _ _ _] st _ _ _ _ _ H);
      [repeat constructor|reflexivity..]. }
  destruct (renderFnRef _) as [fn|]; [|exact H1].
  now apply renderLoop_ok.
Qed.

Lemma step_ok (st : State) (e : Event) : pool_ok st -> pool_ok (step st e).
Proof.
  intros H. destruct e; cbn [step].
  - now apply useTextures_effect_ok.
  - now apply useTextures_cleanup_ok.
  - destruct H as [W B R]. constructor.
    + apply bindings_wf_same with (st := st); auto.
    + exact B.
    + exact R.
  - destruct H as [W B R]. constructor.
    + apply bindings_wf_same with (st := st); auto.
    + exact B.
    + exact R.
  - now apply renderLoop_ok.
  - now apply handleResize_ok.
Qed.

Lemma run_ok (events : list Event) (st : State) : pool_ok st -> pool_ok (run events st).
Proof.
  unfold run. revert st. induction events as [|e l IH]; intros st H; [exact H|].
  simpl. apply IH. now apply step_ok.
Qed.

Lemma pool_ok_length (st : State) :
  pool_ok st ->
  List.length (texturesRef st) <= MAX_COMBINED_TEXTURE_IMAGE_UNITS (gl st).
Proof.
  intros [W B R].
  assert (E : List.length (texturesRef st)
              = List.length (Map_values (textureUnitsRef st))).
  { rewrite (wf_mirror W), values_unitsOf. now rewrite length_map. }
  rewrite E, <- (length_seq (MAX_COMBINED_TEXTURE_IMAGE_UNITS (gl st)) 0).
  apply NoDup_incl_length; [apply W|].
  intros u Hu. apply in_seq. pose proof (R u Hu). lia.
Qed.

Lemma pool_ok_exhausted (st : State) :
  pool_ok st -> contextLost (gl st) = false ->
  ((exists e, getAvailableUnit (gl st) (textureUnitsRef st) = Throw e)
   <-> List.length (texturesRef st) = MAX_COMBINED_TEXTURE_IMAGE_UNITS (gl st)).
Proof.
  intros H Hl. pose proof (pool_ok_length H) as Hle. destruct H as [W B R].
  assert (E : List.length (texturesRef st)
              = List.length (Map_values (textureUnitsRef st))).
  { rewrite (wf_mirror W), values_unitsOf. now rewrite length_map. }
  rewrite E in *. set (M := MAX_COMBINED_TEXTURE_IMAGE_UNITS (gl st)) in *.
  split.
  - intros [e He]. apply getAvailableUnit_Throw in He. destruct He as [_ He].
    rewrite GL_maxUnits_live in He by exact Hl. fold M in He.
    apply Nat.le_antisymm; [exact Hle|].
    rewrite <- (length_seq M 0) at 1.
    apply NoDup_incl_length; [apply seq_NoDup|].
    intros j Hj. apply in_seq in Hj. apply He. lia.
  - intros Hlen. exists (Error_NoAvailableTextureUnits (GL_maxUnits (gl st))).
    apply getAvailableUnit_Throw. split; [reflexivity|].
    rewrite GL_maxUnits_live by exact Hl. fold M. intros j Hj.
    assert (Hincl : incl (seq 0 M) (Map_values (textureUnitsRef st))).
    { apply NoDup_length_incl.
      - apply W.
      - rewrite length_seq. lia.
      - intros u Hu. apply in_seq. pose proof (R u Hu). fold M in H. lia. }
    apply Hincl. apply in_seq. lia.
Qed.

(** X8.  Starting from an empty pool, after any history of effects,
    frames and resizes the bindings are well formed and every one of
    them is in force in the context: the texture of each binding is the
    texture bound to the unit of the binding, and the name-to-unit map
    gives that unit for its name. *)
Theorem bindings_in_force (events : list Event) (st : State) :
  texturesRef st = [] -> textureUnitsRef st = [] ->
  let st' := run events st in
  bindings_wf st' /\
  forall name info,
    In (name, info) (texturesRef st') ->
    boundAt (gl st') (unit info) = Some (texture info) /\
    Map_get (textureUnitsRef st') name = Some (unit info).
Proof.
  intros HT HU st'.
  destruct (run_ok events (pool_ok_empty st HT HU)) as [W B R]. fold st' in W, B, R.
  split; [exact W|]. intros name info Hin. split; [exact (B name info Hin)|].
  rewrite (wf_mirror W). unfold unitsOf. rewrite Map_get_image.
  now rewrite (Map_get_NoDup_In _ _ _ (wf_names W) Hin).
Qed.

Lemma bindings_in_force_witness :
  texturesRef (run sampleHistory state0)
  = [ ("u_tex2"%string, {| texture := 1; source := image2; unit := 1 |}) ] /\
  boundAt (gl (run sampleHistory state0)) 1 = Some 1 /\
  Map_get (textureUnitsRef (run sampleHistory state0)) "u_tex2" = Some 1.
Proof.
  split; [vm_compute; reflexivity|].
  apply (proj2 (bindings_in_force sampleHistory state0 eq_refl eq_refl)
           "u_tex2"%string {| texture := 1; source := image2; unit := 1 |}).
  vm_compute. now left.
Defined.

(** X9.  Starting from an empty pool, after any history every unit in
    use is one of the units of the context, so there are never more
    bindings than units; and while the context is not lost,
    [getAvailableUnit] throws exactly when every unit holds a binding. *)
Theorem pool_never_overflows (events : list Event) (st : State) :
  texturesRef st = [] -> textureUnitsRef st = [] ->
  let st' := run events st in
  let maxUnits := MAX_COMBINED_TEXTURE_IMAGE_UNITS (gl st') in
  (forall name info, In (name, info) (texturesRef st') -> unit info < maxUnits) /\
  List.length (texturesRef st') <= maxUnits /\
  (contextLost (gl st') = false ->
   ((exists e, getAvailableUnit (gl st') (textureUnitsRef st') = Throw e)
    <-> List.length (texturesRef st') = maxUnits)).
Proof.
  intros HT HU st' maxUnits.
  pose proof (run_ok events (pool_ok_empty st HT HU)) as H. fold st' in H.
  split; [|split].
  - intros name info Hin. apply (ok_range H).
    rewrite (wf_mirror (ok_wf H)), values_unitsOf.
    now apply (in_map (fun e : string * TextureInfo => unit (snd e)) _ (name, info)).
  - now apply pool_ok_length.
  - now apply pool_ok_exhausted.
Qed.

Lemma pool_never_overflows_witness :
  List.length (texturesRef (run sampleHistory state0)) <= 8 /\
  ((exists e,
      getAvailableUnit (gl (run sampleHistory state0))
        (textureUnitsRef (run sampleHistory state0)) = Throw e)
   <-> List.length (texturesRef (run sampleHistory state0)) = 8).
Proof.
  pose proof (pool_never_overflows sampleHistory state0 eq_refl eq_refl) as H.
  cbv zeta in H. destruct H as [_ [H1 H2]].
  split; [exact H1|]. apply H2. vm_compute. reflexivity.
Defined.

(** ** What a reconciliation keeps, removes and creates *)

Ltac lacks_by_cases :=
  unfold lacks;
  repeat (apply Forall_app; split);
  repeat match goal with
         | |- context [match ?x with _ => _ end] => destruct x
         end;
  repeat constructor.

Lemma updateTexture_calls_keep (tex : WebGLTexture) (src : Source)
    (opts : option TextureOptions) (u : nat) :
  lacks isDelete (updateTexture_calls tex src opts u) /\
  lacks isCreate (updateTexture_calls tex src opts u).
Proof. unfold updateTexture_calls. cbv zeta. split; lacks_by_cases. Qed.

Lemma createTexture_calls_keep (tex : WebGLTexture) (src : Source)
    (opts : option TextureOptions) (u : nat) :
  lacks isDelete (createTexture_calls tex src opts u) /\
  lacks isCreate (createTexture_calls tex src opts u).
Proof. unfold createTexture_calls. cbv zeta. split; lacks_by_cases. Qed.

(** One round of the create-or-update loop: the binding of any name
    survives with its texture and its unit, and no texture is deleted. *)
Lemma createOrUpdate_keeps (dom : Dom) (st : State) (entry : string * TextureEntry)
    (name : string) (info : TextureInfo) :
  Map_get (texturesRef st) name = Some info ->
  (exists info',
     Map_get (texturesRef (createOrUpdate dom st entry)) name = Some info' /\
     texture info' = texture info /\ unit info' = unit info) /\
  exists cs,
    calls (gl (createOrUpdate dom st entry)) = calls (gl st) ++ cs /\
    lacks isDelete cs.
Proof.
  intros Hg. destruct entry as [n [value options]].
  destruct (isTextureSourceReady dom value) eqn:Hr.
  2:{ rewrite createOrUpdate_notReady by exact Hr. split.
      - now exists info.
      - exists []. split; [now rewrite app_nil_r|constructor]. }
  destruct (Map_get (texturesRef st) n) as [i|] eqn:Eg.
  - rewrite createOrUpdate_update with (info := i) by assumption.
    cbn [texturesRef with_textures with_gl gl updateTexture gl_emit calls].
    split.
    + rewrite Map_get_set. destruct (String.eqb name n) eqn:E.
      * apply String.eqb_eq in E. subst n. rewrite Hg in Eg. injection Eg as <-.
        eexists. split; [reflexivity|]. now split.
      * now exists info.
    + eexists. split; [reflexivity|]. apply updateTexture_calls_keep.
  - assert (Hne : String.eqb name n = false).
    { destruct (String.eqb name n) eqn:E; [|reflexivity].
      apply String.eqb_eq in E. subst n. congruence. }
    destruct (getAvailableUnit (gl st) (textureUnitsRef st)) as [u|error] eqn:Eu.
    2:{ rewrite createOrUpdate_exhausted with (error := error) by assumption.
        split.
        - now exists info.
        - exists []. split; [now rewrite app_nil_r|constructor]. }
    destruct (contextLost (gl st)) eqn:Hl.
    { rewrite createOrUpdate_lost with (u := u) by assumption. split.
      - now exists info.
      - exists [gl_createTexture]. split; [reflexivity|repeat constructor]. }
    rewrite createOrUpdate_created with (u := u) by assumption.
    cbn [texturesRef with_textures with_gl gl gl_emit calls]. split.
    + rewrite Map_get_set, Hne. now exists info.
    + exists (gl_createTexture
              :: createTexture_calls (nextTexture (gl st)) value options u).
      split; [now rewrite <- app_assoc|].
      constructor; [reflexivity|apply createTexture_calls_keep].
Qed.

Lemma createOrUpdate_fold_keeps (dom : Dom) (entries : JSMap TextureEntry)
    (st : State) (name : string) (info : TextureInfo) :
  Map_get (texturesRef st) name = Some info ->
  (exists info',
     Map_get (texturesRef (fold_left (createOrUpdate dom) entries st)) name
     = Some info' /\
     texture info' = texture info /\ unit info' = unit info) /\
  exists cs,
    calls (gl (fold_left (createOrUpdate dom) entries st)) = calls (gl st) ++ cs /\
    lacks isDelete cs.
Proof.
  revert st info. induction entries as [|e l IH]; intros st info Hg.
  - split; [now exists info|]. exists []. split; [now rewrite app_nil_r|constructor].
  - cbn [fold_left].
    destruct (createOrUpdate_keeps dom st e name Hg)
      as [[i1 [H1 [Ht Hu]]] [cs1 [Hc1 Hd1]]].
    destruct (IH _ _ H1) as [[i2 [H2 [Ht2 Hu2]]] [cs2 [Hc2 Hd2]]].
    split.
    + exists i2. split; [exact H2|]. split; congruence.
    + exists (cs1 ++ cs2). split.
      * now rewrite Hc2, Hc1, <- app_assoc.
      * now apply lacks_app.
Qed.

(** X10.  A binding whose name is still in the snapshot survives a
    reconciliation with the same texture object and the same unit, and
    the reconciliation does not delete that texture. *)
Theorem binding_survives_reconcile (dom : Dom)
    (textureUniforms : JSMap TextureEntry) (st : State) (name : string)
    (info : TextureInfo) :
  bindings_wf st ->
  Map_get (texturesRef st) name = Some info ->
  Map_has textureUniforms name = true ->
  let st' := useTextures_effect dom true (Some textureUniforms) st in
  (exists info',
     Map_get (texturesRef st') name = Some info' /\
     texture info' = texture info /\ unit info' = unit info) /\
  Map_get (textureUnitsRef st') name = Some (unit info) /\
  exists cs,
    calls (gl st') = calls (gl st) ++ cs /\
    ~ In (gl_deleteTexture (texture info)) cs.
Proof.
  intros W Hg Hk st'. unfold st', useTextures_effect.
  destruct (removeStale_spec textureUniforms W) as [HT [HU [HG _]]].
  pose proof (removeStale_wf textureUniforms W) as W1.
  set (st1 := removeStale textureUniforms st) in *.
  assert (Hg1 : Map_get (texturesRef st1) name = Some info).
  { rewrite HT. unfold keeps.
    rewrite (Map_get_filter (Map_has textureUniforms)), Hk. exact Hg. }
  destruct (createOrUpdate_fold_keeps dom textureUniforms st1 name Hg1)
    as [Hkeep [cs [Hc Hd]]].
  split; [exact Hkeep|]. split.
  - apply createOrUpdate_fold_keeps_unit; [exact W1|].
    rewrite (wf_mirror W1). unfold unitsOf. now rewrite Map_get_image, Hg1.
  - eexists. split.
    + rewrite Hc, HG. cbn [gl_emit calls]. rewrite <- app_assoc. reflexivity.
    + intros Hin. apply in_app_or in Hin. destruct Hin as [Hin|Hin].
      * unfold deletionsOf in Hin. apply in_map_iff in Hin.
        destruct Hin as [[n' i'] [E Hin]]. cbn [snd] in E. injection E as E.
        apply filter_In in Hin. destruct Hin as [Hin Hs].
        apply Map_get_In in Hg.
        injection (wf_same_handle _ _ _ _ W Hin Hg E) as -> ->.
        unfold keeps in Hs. cbn [fst] in Hs. rewrite Hk in Hs. discriminate.
      * unfold lacks in Hd. rewrite Forall_forall in Hd.
        apply Hd in Hin. discriminate.
Qed.

Lemma binding_survives_reconcile_witness :
  Map_get
    (textureUnitsRef
       (useTextures_effect readyDom true (Some firstAndThird)
          (useTextures_effect readyDom true (Some twoTextures) state0)))
    "u_tex1" = Some 0.
Proof.
  refine (proj1 (proj2
    (@binding_survives_reconcile readyDom firstAndThird
       (useTextures_effect readyDom true (Some twoTextures) state0)
       "u_tex1"%string {| texture := 0; source := image1; unit := 0 |} _ _ _))).
  - apply useTextures_effect_wf. now apply bindings_wf_empty.
  - reflexivity.
  - reflexivity.
Defined.

Lemma Map_has_set (V : Type) (m : JSMap V) (k k' : string) (v : V) :
  Map_has (Map_set m k v) k' = (String.eqb k' k || Map_has m k').
Proof.
  unfold Map_has. rewrite Map_get_set. destruct (String.eqb k' k); reflexivity.
Qed.

(** One round of the create-or-update loop when the pool has room for
    the name at hand: afterwards the name is bound if its source is
    ready, and no other name is gained or lost. *)
Lemma createOrUpdate_step (dom : Dom) (st : State) (n : string) (v : Source)
    (o : option TextureOptions) :
  pool_ok st -> contextLost (gl st) = false ->
  List.length (texturesRef st) < MAX_COMBINED_TEXTURE_IMAGE_UNITS (gl st)
  \/ Map_has (texturesRef st) n = true ->
  let st1 := createOrUpdate dom st (n, (v, o)) in
  contextLost (gl st1) = false /\
  MAX_COMBINED_TEXTURE_IMAGE_UNITS (gl st1) = MAX_COMBINED_TEXTURE_IMAGE_UNITS (gl st) /\
  forall name,
    Map_has (texturesRef st1) name = true <->
    Map_has (texturesRef st) name = true \/
    (name = n /\ isTextureSourceReady dom v = true).
Proof.
  intros H Hl Hroom st1. unfold st1. clear st1.
  destruct (isTextureSourceReady dom v) eqn:Hr.
  2:{ rewrite createOrUpdate_notReady by exact Hr.
      cbn [log with_console gl texturesRef]. repeat split; auto.
      intros [Hh|[_ Hh]]; [exact Hh|discriminate]. }
  destruct (Map_get (texturesRef st) n) as [i|] eqn:Eg.
  - rewrite createOrUpdate_update with (info := i) by assumption.
    cbn [texturesRef with_textures with_gl gl updateTexture gl_emit
         contextLost MAX_COMBINED_TEXTURE_IMAGE_UNITS].
    repeat split; auto.
    + rewrite Map_has_set. intros Hh. apply orb_true_iff in Hh.
      destruct Hh as [Hh|Hh]; [|now left].
      apply String.eqb_eq in Hh. now right.
    + rewrite Map_has_set. intros [Hh|[-> _]].
      * rewrite Hh. apply orb_true_r.
      * now rewrite String.eqb_refl.
  - assert (Hlt : List.length (texturesRef st)
                  < MAX_COMBINED_TEXTURE_IMAGE_UNITS (gl st)).
    { destruct Hroom as [Hroom|Hroom]; [exact Hroom|].
      unfold Map_has in Hroom. rewrite Eg in Hroom. discriminate. }
    destruct (getAvailableUnit (gl st) (textureUnitsRef st)) as [u|error] eqn:Eu.
    2:{ assert (Hex : exists e, getAvailableUnit (gl st) (textureUnitsRef st)
                                = Throw e) by now exists error.
        apply (pool_ok_exhausted H Hl) in Hex. lia. }
    rewrite createOrUpdate_created with (u := u) by assumption.
    cbn [texturesRef with_textures with_gl gl gl_emit
         contextLost MAX_COMBINED_TEXTURE_IMAGE_UNITS].
    repeat split; auto.
    + rewrite Map_has_set. intros Hh. apply orb_true_iff in Hh.
      destruct Hh as [Hh|Hh]; [|now left].
      apply String.eqb_eq in Hh. now right.
    + rewrite Map_has_set. intros [Hh|[-> _]].
      * rewrite Hh. apply orb_true_r.
      * now rewrite String.eqb_refl.
Qed.

Lemma createOrUpdate_fold_exact (dom : Dom) (rest done : JSMap TextureEntry)
    (st : State) :
  pool_ok st -> contextLost (gl st) = false ->
  NoDup (Map_keys (done ++ rest)) ->
  List.length (done ++ rest) <= MAX_COMBINED_TEXTURE_IMAGE_UNITS (gl st) ->
  (forall name, Map_has (texturesRef st) name = true ->
                In name (Map_keys (done ++ rest))) ->
  forall name,
    Map_has (texturesRef (fold_left (createOrUpdate dom) rest st)) name = true <->
    Map_has (texturesRef st) name = true \/
    exists v o, In (name, (v, o)) rest /\ isTextureSourceReady dom v = true.
Proof.
  revert done st. induction rest as [|[n [v o]] rest IH];
    intros done st H Hl Hnd Hlen Hsub name.
  - simpl. split; [now left|]. intros [Hh|[v [o [[] _]]]]. exact Hh.
  - cbn [fold_left].
    assert (Hroom : List.length (texturesRef st)
                    < MAX_COMBINED_TEXTURE_IMAGE_UNITS (gl st)
                    \/ Map_has (texturesRef st) n = true).
    { destruct (Map_has (texturesRef st) n) eqn:Hn; [now right|left].
      assert (Hin : ~ In n (Map_keys (texturesRef st))).
      { rewrite <- Map_has_true. congruence. }
      assert (Hle : List.length (n :: Map_keys (texturesRef st))
                    <= List.length (Map_keys (done ++ (n, (v, o)) :: rest))).
      { apply NoDup_incl_length.
        - constructor; [exact Hin|apply (wf_names (ok_wf H))].
        - intros k [<-|Hk].
          + unfold Map_keys. rewrite map_app. apply in_or_app. right. now left.
          + apply Hsub. now apply Map_has_true. }
      unfold Map_keys in Hle. simpl in Hle. rewrite !length_map in Hle.
      exact (Nat.le_trans _ _ _ Hle Hlen). }
    destruct (createOrUpdate_step dom n v o H Hl Hroom) as [Hl1 [HM1 Hk1]].
    assert (E : done ++ (n, (v, o)) :: rest = (done ++ [(n, (v, o))]) ++ rest)
      by now rewrite <- app_assoc.
    assert (IH1 := fun A B C D => IH (done ++ [(n, (v, o))])
                     (createOrUpdate dom st (n, (v, o))) A Hl1 B C D name).
    etransitivity; [apply IH1|].
    + now apply createOrUpdate_ok.
    + now rewrite <- E.
    + rewrite HM1, <- E. exact Hlen.
    + intros k Hk. rewrite <- E. apply Hk1 in Hk. destruct Hk as [Hk|[-> _]].
      * now apply Hsub.
      * unfold Map_keys. rewrite map_app. apply in_or_app. right. now left.
    + rewrite Hk1. split.
      * intros [[Hh|[-> Hr]]|[v' [o' [Hin Hr]]]].
        -- now left.
        -- right. exists v, o. split; [now left|exact Hr].
        -- right. exists v', o'. split; [now right|exact Hr].
      * intros [Hh|[v' [o' [[Hin|Hin] Hr]]]].
        -- left. now left.
        -- injection Hin as <- <- <-. left. right. now split.
        -- right. now exists v', o'.
Qed.

(** X11.  While the context is live and the snapshot names no more
    textures than there are units, a reconciliation leaves bound exactly
    the names of the snapshot that were bound before or whose source is
    ready: bindings of other names are gone, and no ready texture is
    left without one. *)
Theorem reconcile_exact (dom : Dom) (textureUniforms : JSMap TextureEntry)
    (st : State) (name : string) :
  pool_ok st -> contextLost (gl st) = false ->
  NoDup (Map_keys textureUniforms) ->
  List.length textureUniforms <= MAX_COMBINED_TEXTURE_IMAGE_UNITS (gl st) ->
  (Map_has
     (texturesRef (useTextures_effect dom true (Some textureUniforms) st)) name
   = true
   <-> exists value options,
         Map_get textureUniforms name = Some (value, options) /\
         (Map_has (texturesRef st) name = true \/
          isTextureSourceReady dom value = true)).
Proof.
  intros H Hl Hnd Hlen. unfold useTextures_effect.
  destruct (removeStale_spec textureUniforms (ok_wf H)) as [HT [_ [HG _]]].
  pose proof (removeStale_ok textureUniforms H) as H1.
  set (st1 := removeStale textureUniforms st) in *.
  assert (Hh1 : forall k, Map_has (texturesRef st1) k
                          = Map_has textureUniforms k && Map_has (texturesRef st) k).
  { intros k. unfold Map_has at 1. rewrite HT. unfold keeps.
    rewrite (Map_get_filter (Map_has textureUniforms)).
    destruct (Map_has textureUniforms k); reflexivity. }
  rewrite (createOrUpdate_fold_exact dom textureUniforms [] (st := st1)).
  - rewrite Hh1, andb_true_iff. split.
    + intros [[Hk Hb]|[v [o [Hin Hr]]]].
      * unfold Map_has in Hk.
        destruct (Map_get textureUniforms name) as [[v o]|]; [|discriminate].
        exists v, o. split; [reflexivity|now left].
      * exists v, o. split; [|now right].
        now apply Map_get_NoDup_In.
    + intros [v [o [Hg [Hb|Hr]]]].
      * left. split; [|exact Hb]. unfold Map_has. now rewrite Hg.
      * right. exists v, o. split; [|exact Hr]. now apply Map_get_In.
  - exact H1.
  - rewrite HG. exact Hl.
  - exact Hnd.
  - rewrite HG. exact Hlen.
  - intros k Hk. rewrite Hh1 in Hk. apply andb_true_iff in Hk.
    apply Map_has_true. tauto.
Qed.

Lemma reconcile_exact_witness :
  Map_has
    (texturesRef
       (useTextures_effect readyDom true (Some firstAndThird)
          (useTextures_effect readyDom true (Some twoTextures) state0))) "u_tex3"
  = true /\
  Map_has
    (texturesRef
       (useTextures_effect readyDom true (Some firstAndThird)
          (useTextures_effect readyDom true (Some twoTextures) state0))) "u_tex2"
  = false.
Proof.
  assert (H : pool_ok (useTextures_effect readyDom true (Some twoTextures) state0)).
  { apply useTextures_effect_ok. now apply pool_ok_empty. }
  assert (Hnd : NoDup (Map_keys firstAndThird)).
  { repeat constructor; simpl; intuition discriminate. }
  assert (Hlen : List.length firstAndThird
                 <= MAX_COMBINED_TEXTURE_IMAGE_UNITS
                      (gl (useTextures_effect readyDom true (Some twoTextures) state0))).
  { vm_compute. repeat constructor. }
  split.
  - apply (proj2 (@reconcile_exact readyDom firstAndThird _ "u_tex3"%string H eq_refl Hnd Hlen)).
    exists image3, None. split; [reflexivity|now right].
  - destruct (Map_has _ "u_tex2") eqn:E; [|reflexivity].
    apply (proj1 (@reconcile_exact readyDom firstAndThird _ "u_tex2"%string H eq_refl Hnd Hlen)) in E.
    destruct E as [v [o [E _]]]. discriminate.
Defined.

(** ** The texture uniforms of a snapshot *)

Lemma textureFold_list (l : Uniforms) (acc : JSMap TextureEntry) :
  NoDup (Map_keys acc ++ Map_keys l) ->
  fold_left
    (fun textures (entry : string * UniformValue) =>
       match snd entry with
       | TextureUniform value options =>
           Map_set textures (fst entry) (value, options)
       | NumericUniform _ _ => textures
       end) l acc
  = acc ++ textureEntries l.
Proof.
  revert acc. induction l as [|[k u] l IH]; intros acc Hnd.
  - simpl. now rewrite app_nil_r.
  - destruct u as [t v|s o]; cbn [fold_left snd fst].
    + change (textureEntries ((k, NumericUniform t v) :: l))
        with (textureEntries l).
      apply IH. simpl in Hnd. now apply NoDup_remove_1 in Hnd.
    + change (textureEntries ((k, TextureUniform s o) :: l))
        with ((k, (s, o)) :: textureEntries l).
      assert (Hk : ~ In k (Map_keys acc)).
      { simpl in Hnd. apply NoDup_remove_2 in Hnd. intros Hin. apply Hnd.
        apply in_or_app. now left. }
      rewrite (@Map_set_new (Source * option TextureOptions) acc k (s, o) Hk), IH.
      * now rewrite <- app_assoc.
      * unfold Map_keys at 1. rewrite map_app, <- app_assoc. exact Hnd.
Qed.

Lemma textureFold_none (l : Uniforms) (acc : JSMap TextureEntry) :
  (forall name u, In (name, u) l -> typeOf u <> T_texture) ->
  fold_left
    (fun textures (entry : string * UniformValue) =>
       match snd entry with
       | TextureUniform value options =>
           Map_set textures (fst entry) (value, options)
       | NumericUniform _ _ => textures
       end) l acc
  = acc.
Proof.
  revert acc. induction l as [|[k u] l IH]; intros acc H; [reflexivity|].
  destruct u as [t v|s o]; cbn [fold_left snd fst].
  - apply IH. intros name u Hin. apply (H name). now right.
  - elim (H k (TextureUniform s o)); [now left|reflexivity].
Qed.

Lemma textureEntries_In (uniforms : Uniforms) (name : string) (value : Source)
    (options : option TextureOptions) :
  In (name, (value, options)) (textureEntries uniforms)
  <-> In (name, TextureUniform value options) uniforms.
Proof.
  unfold textureEntries. rewrite in_flat_map. split.
  - intros [[k u] [Hin H]]. cbn [fst snd] in H. destruct u as [t v|s o]; [destruct H|].
    destruct H as [[= -> -> ->]|[]]. exact Hin.
  - intros Hin. exists (name, TextureUniform value options). split; [exact Hin|].
    now left.
Qed.

(** X12.  The map of texture uniforms that [useTextures] derives from a
    snapshot holds the texture uniforms of the snapshot, in its order,
    each under its name with its source and its options; it is [null]
    exactly when the snapshot has no texture uniform. *)
Theorem textureUniformsOf_exact (uniforms : Uniforms) :
  NoDup (Map_keys uniforms) ->
  textureUniformsOf (Some uniforms)
  = match textureEntries uniforms with
    | [] => None
    | entries => Some entries
    end /\
  (forall name value options,
     In (name, (value, options)) (textureEntries uniforms)
     <-> Map_get uniforms name = Some (TextureUniform value options)) /\
  (textureUniformsOf (Some uniforms) = None
   <-> forall name u, Map_get uniforms name = Some u -> typeOf u <> T_texture).
Proof.
  intros Hnd.
  assert (E : textureUniformsOf (Some uniforms)
              = match textureEntries uniforms with
                | [] => None
                | entries => Some entries
                end).
  { pose proof (textureFold_list uniforms [] Hnd) as E0.
    unfold textureUniformsOf. cbv zeta.
    match goal with
    | |- context [fold_left ?f uniforms ?a] =>
        assert (E1 : fold_left f uniforms a = textureEntries uniforms) by exact E0;
        rewrite E1
    end.
    now destruct (textureEntries uniforms). }
  assert (HIn : forall name value options,
            In (name, (value, options)) (textureEntries uniforms)
            <-> Map_get uniforms name = Some (TextureUniform value options)).
  { intros name value options. rewrite textureEntries_In. split.
    - now apply Map_get_NoDup_In.
    - apply Map_get_In. }
  split; [exact E|]. split; [exact HIn|].
  rewrite E. split.
  - intros H name u Hg Ht. destruct u as [t v|s o]; [discriminate|].
    apply HIn in Hg. destruct (textureEntries uniforms); [destruct Hg|discriminate].
  - intros H. destruct (textureEntries uniforms) as [|[name [value options]] l];
      [reflexivity|].
    pose proof (proj1 (HIn name value options) (or_introl eq_refl)) as Hg.
    elim (H _ _ Hg). reflexivity.
Qed.

Lemma textureUniformsOf_exact_witness :
  NoDup (Map_keys sampleSnapshot) /\
  textureUniformsOf (Some sampleSnapshot)
  = Some [ ("u_tex"%string, (image1, Some repeatOptions));
           ("u_vid"%string, (video1, None)) ].
Proof.
  assert (H : NoDup (Map_keys sampleSnapshot)).
  { repeat constructor; simpl; intuition discriminate. }
  split; [exact H|].
  exact (proj1 (textureUniformsOf_exact sampleSnapshot H)).
Defined.

(** X13.  When the snapshot holds no texture uniform, the reconciliation
    effect returns before its removal loop: the state is left as it was,
    so the bindings of an earlier snapshot stay in the maps and their
    textures are not deleted. *)
Theorem no_texture_uniforms_no_reconcile (props : ShaderCanvasProps)
    (programInfo : option WebGLProgramInfo) (dom : Dom) (st : State) :
  (forall name u, In (name, u) (uniforms props) -> typeOf u <> T_texture) ->
  textureUniformsOf (Some (uniforms props)) = None /\
  ShaderCanvas_useTextures props programInfo dom st = st.
Proof.
  intros H.
  assert (E : textureUniformsOf (Some (uniforms props)) = None).
  { pose proof (textureFold_none (uniforms props) [] H) as E0.
    unfold textureUniformsOf. cbv zeta.
    match goal with
    | |- context [fold_left ?f (uniforms props) ?a] =>
        assert (E1 : fold_left f (uniforms props) a = []) by exact E0;
        rewrite E1
    end.
    reflexivity. }
  split; [exact E|].
  unfold ShaderCanvas_useTextures. rewrite E. unfold useTextures_effect.
  now destruct programInfo.
Qed.

Lemma no_texture_uniforms_no_reconcile_witness :
  texturesRef
    (ShaderCanvas_useTextures firstUpdate (Some bareProgram) readyDom mediaState)
  = texturesRef mediaState /\
  List.length (texturesRef mediaState) = 2.
Proof.
  split; [|reflexivity].
  rewrite (proj2 (@no_texture_uniforms_no_reconcile firstUpdate
                    (Some bareProgram) readyDom mediaState
                    ltac:(intros name u [[= _ <-]|[]]; discriminate))).
  reflexivity.
Defined.

(** ** The cleanup of [useTextures] *)

Lemma deleteAll_fold (l : list TextureInfo) (st : State) :
  fold_left (fun st info => with_gl (deleteTexture (gl st) (texture info)) st) l st
  = with_gl (gl_emit (map (fun info => gl_deleteTexture (texture info)) l) (gl st)) st.
Proof.
  revert st. induction l as [|i l IH]; intros st.
  - simpl. rewrite gl_emit_nil. now destruct st.
  - cbn [fold_left map]. rewrite IH. unfold deleteTexture.
    cbn [with_gl gl]. rewrite gl_emit_app. reflexivity.
Qed.

(** X14.  With a context at hand, the cleanup deletes the texture of
    every binding, once and in the order of the map, empties both maps
    and prints nothing; run again, it makes no call at all. *)
Theorem cleanup_releases_everything (st : State) :
  let st' := useTextures_cleanup true st in
  texturesRef st' = [] /\ textureUnitsRef st' = [] /\
  calls (gl st') = calls (gl st) ++ deletionsOf (texturesRef st) /\
  console st' = console st /\
  useTextures_cleanup true st' = st'.
Proof.
  cbv zeta. unfold useTextures_cleanup. rewrite deleteAll_fold.
  cbn [with_textures with_gl texturesRef textureUnitsRef gl console gl_emit calls
       Map_values map fold_left].
  repeat split.
  unfold deletionsOf, Map_values. now rewrite map_map.
Qed.

(** ** Frames that follow one another *)

(** X15.  A frame empties the set of changed names, so the frame after
    it sets no custom uniform and prints nothing: it clears, sets the
    built-in uniforms, refreshes the dynamic textures and draws. *)
Theorem changed_uniforms_pushed_once (info info' : WebGLProgramInfo)
    (options options' : option ShaderCanvasOptions)
    (time now time' now' : number) (st : State) (canvas : Canvas) :
  canvasRef st = Some canvas ->
  let st1 := renderLoop (Some info) options time now st in
  let st2 := renderLoop (Some info') options' time' now' st1 in
  calls (gl st2)
  = calls (gl st1)
    ++ frameOpening info' options' canvas (mousePosition st) time'
    ++ flat_map (refreshCallsOf (uniformsRef st)) (texturesRef st)
    ++ [gl_drawArrays 0 6] /\
  console st2 = console st1 /\
  changedUniformsRef st2 = [].
Proof.
  intros Hc st1 st2.
  destruct (@renderLoop_running info options time now st canvas Hc)
    as [_ [_ [Hch [HT [HU [Hun [_ [Hcv [Hm _]]]]]]]]].
  fold st1 in Hch, HT, HU, Hun, Hcv, Hm.
  assert (Hc1 : canvasRef st1 = Some canvas) by congruence.
  destruct (@renderLoop_running info' options' time' now' st1 canvas Hc1)
    as [HG [HC [Hch2 _]]].
  fold st2 in HG, HC, Hch2.
  split; [|split; [|exact Hch2]].
  - rewrite HG. cbn [gl_emit calls]. unfold frameCalls.
    now rewrite Hch, HT, Hun, Hm.
  - rewrite HC. unfold frameErrors. rewrite Hch. apply app_nil_r.
Qed.

Lemma changed_uniforms_pushed_once_witness :
  calls (gl (renderLoop (Some failingProgram) None (ofZ 32) (ofZ 32)
               (renderLoop (Some failingProgram) None (ofZ 16) (ofZ 16)
                  failingState)))
  = calls (gl (renderLoop (Some failingProgram) None (ofZ 16) (ofZ 16)
                 failingState))
    ++ [ gl_clearColor (ofZ 0) (ofZ 0) (ofZ 0) (ofZ 1); gl_clear;
         gl_drawArrays 0 6 ].
Proof.
  exact (proj1 (@changed_uniforms_pushed_once failingProgram failingProgram
                  None None (ofZ 16) (ofZ 16) (ofZ 32) (ofZ 32)
                  failingState canvas0 eq_refl)).
Defined.

Lemma last_cons_default (A : Type) (l : list A) (x d : A) :
  last (x :: l) d = last l x.
Proof.
  revert x d. induction l as [|y l IH]; intros x d; [reflexivity|].
  change (last (x :: y :: l) d) with (last (y :: l) d).
  now rewrite (IH y d), (IH y x).
Qed.

Lemma runTicks_frameTimes (info : WebGLProgramInfo)
    (options : option ShaderCanvasOptions) (ticks : list (number * number))
    (st : State) (canvas : Canvas) :
  canvasRef st = Some canvas ->
  let st' := runTicks (Some info) options ticks st in
  frameTimes st'
  = (if onFrameRenderRef st
     then frameTimes st ++ frameTimesFrom (lastFrameTimeRef st) (map snd ticks)
     else frameTimes st) /\
  lastFrameTimeRef st'
  = (if onFrameRenderRef st
     then last (map snd ticks) (lastFrameTimeRef st)
     else lastFrameTimeRef st).
Proof.
  revert st. induction ticks as [|[time now] ticks IH]; intros st Hc.
  - simpl. destruct (onFrameRenderRef st); now rewrite ?app_nil_r.
  - unfold runTicks. cbn [fold_left fst snd].
    destruct (@renderLoop_running info options time now st canvas Hc)
      as [_ [_ [_ [_ [_ [_ [_ [Hcv [_ [Ho [_ [Hl Hf]]]]]]]]]]]].
    set (st1 := renderLoop (Some info) options time now st) in *.
    assert (Hc1 : canvasRef st1 = Some canvas) by congruence.
    specialize (IH st1 Hc1). unfold runTicks in IH. cbv zeta in IH.
    destruct IH as [IH1 IH2]. cbv zeta. rewrite IH1, IH2, Ho, Hl, Hf.
    cbn [map snd frameTimesFrom].
    destruct (onFrameRenderRef st); split; try reflexivity.
    + now rewrite <- app_assoc.
    + symmetry. apply last_cons_default.
Qed.

(** X16.  While the [onFrameRender] callback is set, every frame reports
    one frame time: the reading of [performance.now()] it takes minus
    the reading of the frame before, the first one minus the time kept
    since mount.  Without the callback nothing is reported and the kept
    time does not advance; without a program or a canvas there is no
    frame and no report. *)
Theorem frame_times_reported (programInfo : option WebGLProgramInfo)
    (options : option ShaderCanvasOptions) (ticks : list (number * number))
    (st : State) :
  let st' := runTicks programInfo options ticks st in
  (forall info canvas,
     programInfo = Some info -> canvasRef st = Some canvas ->
     onFrameRenderRef st = true ->
     frameTimes st'
     = frameTimes st ++ frameTimesFrom (lastFrameTimeRef st) (map snd ticks) /\
     lastFrameTimeRef st' = last (map snd ticks) (lastFrameTimeRef st)) /\
  (onFrameRenderRef st = false \/ programInfo = None \/ canvasRef st = None ->
   frameTimes st' = frameTimes st /\ lastFrameTimeRef st' = lastFrameTimeRef st).
Proof.
  cbv zeta. split.
  - intros info canvas -> Hc Ho.
    destruct (@runTicks_frameTimes info options ticks st canvas Hc) as [H1 H2].
    now rewrite H1, H2, Ho.
  - intros H.
    assert (Hidle : canvasRef st = None \/ programInfo = None ->
                    runTicks programInfo options ticks st = st).
    { intros Hi. unfold runTicks. induction ticks as [|t ticks IH]; [reflexivity|].
      cbn [fold_left]. now rewrite renderLoop_idle. }
    destruct programInfo as [info|]; [|now rewrite Hidle by now right].
    destruct (canvasRef st) as [canvas|] eqn:Hc; [|now rewrite Hidle by now left].
    destruct H as [Ho|[H|H]]; try discriminate.
    destruct (@runTicks_frameTimes info options ticks st canvas Hc) as [H1 H2].
    now rewrite H1, H2, Ho.
Qed.

Lemma frame_times_reported_witness :
  frameTimes
    (runTicks (Some bareProgram) None
       [(ofZ 16, ofZ 116); (ofZ 32, ofZ 133); (ofZ 48, ofZ 149)] reportingState)
  = [ofZ 16; ofZ 17; ofZ 16].
Proof.
  refine (eq_trans
            (proj1 (proj1 (frame_times_reported (Some bareProgram) None
                             [(ofZ 16, ofZ 116); (ofZ 32, ofZ 133); (ofZ 48, ofZ 149)]
                             reportingState)
                      bareProgram canvas0 eq_refl eq_refl eq_refl)) _).
  vm_compute. reflexivity.
Defined.

(** ** Resizing twice *)

(** X17.  Once [handleResize] has run, running it again with the same
    pixel ratio and an unchanged layout does nothing, provided the target
    size is one a canvas can hold: no viewport call, no frame, no change
    of the canvas. *)
Theorem handleResize_settles (info info' : WebGLProgramInfo)
    (ratio now now' later later' : number) (st : State) (canvas : Canvas) :
  canvasRef st = Some canvas ->
  isCanvasSize (Math_floor (mul (clientWidth canvas) ratio)) = true ->
  isCanvasSize (Math_floor (mul (clientHeight canvas) ratio)) = true ->
  let st1 := handleResize (Some info) ratio now now' st in
  handleResize (Some info') ratio later later' st1 = st1.
Proof.
  intros Hc Hw Hh st1.
  pose proof (canvasDimension_kept 300 _ Hw) as Kw.
  pose proof (canvasDimension_kept 150 _ Hh) as Kh.
  assert (Hcanvas : exists canvas1,
            canvasRef st1 = Some canvas1 /\
            clientWidth canvas1 = clientWidth canvas /\
            clientHeight canvas1 = clientHeight canvas /\
            strictEq (width canvas1) (Math_floor (mul (clientWidth canvas) ratio))
            = true /\
            strictEq (height canvas1) (Math_floor (mul (clientHeight canvas) ratio))
            = true).
  { unfold st1, handleResize. rewrite Hc.
    destruct (negb (strictEq (width canvas) _)
              || negb (strictEq (height canvas) _)) eqn:E.
    - match goal with
      | |- context [match renderFnRef ?s with _ => _ end] => set (s1 := s)
      end.
      assert (Hc1 : canvasRef s1
                    = Some (resizedCanvas canvas
                              (canvasDimension 300
                                 (Math_floor (mul (clientWidth canvas) ratio)))
                              (canvasDimension 150
                                 (Math_floor (mul (clientHeight canvas) ratio)))))
        by reflexivity.
      eexists. split.
      + destruct (renderFnRef s1) as [fn|]; [|exact Hc1].
        destruct (rf_programInfo fn) as [i|].
        * destruct (@renderLoop_running i (rf_options fn) now now' s1 _ Hc1)
            as [_ [_ [_ [_ [_ [_ [_ [Hcv _]]]]]]]].
          rewrite Hcv. exact Hc1.
        * rewrite renderLoop_idle by now right. exact Hc1.
      + cbn [resizedCanvas clientWidth clientHeight width height].
        repeat split; assumption.
    - apply orb_false_iff in E. destruct E as [E1 E2].
      apply negb_false_iff in E1, E2.
      exists canvas. rewrite Hc. auto. }
  destruct Hcanvas as [canvas1 [Hc1 [Ecw [Ech [Ew Eh]]]]].
  unfold handleResize at 1. rewrite Hc1, Ecw, Ech, Ew, Eh. reflexivity.
Qed.

Lemma handleResize_settles_witness :
  handleResize (Some bareProgram) (ofZ 2) (ofZ 200) (ofZ 200)
    (handleResize (Some bareProgram) (ofZ 2) (ofZ 100) (ofZ 100) loopState)
  = handleResize (Some bareProgram) (ofZ 2) (ofZ 100) (ofZ 100) loopState.
Proof.
  apply (@handleResize_settles bareProgram bareProgram (ofZ 2) (ofZ 100) (ofZ 100)
           (ofZ 200) (ofZ 200) loopState canvas0 eq_refl);
    vm_compute; reflexivity.
Defined.

(** ** The mouse position *)

Lemma lessThan_lessEq (x y : number) : lessThan x y = true -> lessEq x y = true.
Proof.
  unfold lessThan, lessEq, SFltb, SFleb.
  destruct (SFcompare x y) as [[| |]|]; congruence.
Qed.

Lemma clamp_unit (x : number) :
  let c := Math_max (ofZ 0) (Math_min (ofZ 1) x) in
  isNaN c = isNaN x /\
  (isNaN x = false -> lessEq (ofZ 0) c = true /\ lessEq c (ofZ 1) = true).
Proof.
  change (ofZ 0) with (S754_zero false).
  change (ofZ 1) with (S754_finite false 4503599627370496 (-52)).
  set (one := S754_finite false 4503599627370496 (-52)).
  assert (H01 : lessEq (S754_zero false) one = true) by reflexivity.
  assert (H00 : lessEq (S754_zero false) (S754_zero false) = true) by reflexivity.
  assert (H11 : lessEq one one = true) by reflexivity.
  cbv zeta.
  destruct x as [s|s| |s m e].
  - (* a zero *)
    split; [reflexivity|]. intros _. now split.
  - (* an infinity *)
    destruct s; split; try reflexivity; intros _; now split.
  - split; [reflexivity|discriminate].
  - set (x := S754_finite s m e).
    assert (Hmin : Math_min one x = if lessThan x one then x else one)
      by reflexivity.
    rewrite Hmin. destruct (lessThan x one) eqn:E1.
    + assert (Hmax : Math_max (S754_zero false) x
                     = if lessThan (S754_zero false) x then x else S754_zero false)
        by reflexivity.
      rewrite Hmax. destruct (lessThan (S754_zero false) x) eqn:E0.
      * split; [reflexivity|]. intros _. split; now apply lessThan_lessEq.
      * split; [reflexivity|]. intros _. now split.
    + split; [reflexivity|]. intros _. now split.
Qed.

(** X18.  After a mouse move over an element, each coordinate the hook
    holds is NaN when the normalised coordinate is NaN (a rectangle
    without width under the pointer, for example) and lies between 0 and
    1 otherwise; without an element the position is left as it was. *)
Theorem mouse_position_clamped (rect : DOMRect) (event : MouseEvent)
    (position : number * number) :
  let x := div (sub (clientX event) (rect_left rect)) (rect_width rect) in
  let y := div (sub (clientY event) (rect_top rect)) (rect_height rect) in
  let p := handleMouseMove (Some rect) event position in
  isNaN (fst p) = isNaN x /\ isNaN (snd p) = isNaN y /\
  (isNaN x = false ->
   lessEq (ofZ 0) (fst p) = true /\ lessEq (fst p) (ofZ 1) = true) /\
  (isNaN y = false ->
   lessEq (ofZ 0) (snd p) = true /\ lessEq (snd p) (ofZ 1) = true) /\
  handleMouseMove None event position = position.
Proof.
  cbv zeta. unfold handleMouseMove. cbn [fst snd].
  destruct (clamp_unit (div (sub (clientX event) (rect_left rect)) (rect_width rect)))
    as [Hx1 Hx2].
  destruct (clamp_unit (div (sub (clientY event) (rect_top rect)) (rect_height rect)))
    as [Hy1 Hy2].
  auto.
Qed.

Lemma mouse_position_clamped_witness :
  handleMouseMove (Some sampleRect) samplePointer initialMousePosition
  = (ofZ 0, half) /\
  lessEq (ofZ 0) (fst (handleMouseMove (Some sampleRect) samplePointer
                         initialMousePosition)) = true /\
  handleMouseMove (Some emptyRect) cornerPointer initialMousePosition = (NaN, NaN).
Proof.
  split; [vm_compute; reflexivity|]. split; [|vm_compute; reflexivity].
  apply (proj1 (proj2 (proj2 (mouse_position_clamped sampleRect samplePointer
                                initialMousePosition)))).
  vm_compute. reflexivity.
Defined.

(** ** The table of uniform locations *)

Lemma getUniformLocations_fold (program : JSMap WebGLUniformLocation)
    (names : list string) (locations : JSMap WebGLUniformLocation)
    (warnings : list ConsoleMsg) (name : string) :
  let result :=
    fold_left
      (fun (acc : JSMap WebGLUniformLocation * list ConsoleMsg) name =>
         let (locations, warnings) := acc in
         match Map_get program name with
         | None =>
             (locations,
              warnings ++
              [console_warn
                 ("Uniform " ++ quoted name ++ " not found in shader program")%string])
         | Some location => (Map_set locations name location, warnings)
         end)
      names (locations, warnings) in
  Map_get (fst result) name
  = (if existsb (String.eqb name) names
     then match Map_get program name with
          | Some location => Some location
          | None => Map_get locations name
          end
     else Map_get locations name) /\
  snd result
  = warnings ++
    map (fun n => console_warn
                    ("Uniform " ++ quoted n ++ " not found in shader program")%string)
      (filter (fun n => negb (Map_has program n)) names).
Proof.
  revert locations warnings. induction names as [|n names IH];
    intros locations warnings.
  - simpl. now rewrite app_nil_r.
  - cbn [fold_left existsb filter]. unfold Map_has at 1.
    destruct (Map_get program n) as [loc|] eqn:En.
    + destruct (IH (Map_set locations n loc) warnings) as [IH1 IH2].
      cbv zeta in IH1, IH2. cbv zeta. rewrite IH1, IH2. clear IH1 IH2.
      split; [|reflexivity]. rewrite Map_get_set.
      destruct (String.eqb name n) eqn:E.
      * apply String.eqb_eq in E. subst n. rewrite En. cbn [orb].
        now destruct (existsb _ names).
      * cbn [orb]. reflexivity.
    + destruct (IH locations
                  (warnings ++
                   [console_warn
                      ("Uniform " ++ quoted n ++ " not found in shader program")%string]))
        as [IH1 IH2].
      cbv zeta in IH1, IH2. cbv zeta. rewrite IH1, IH2. clear IH1 IH2.
      cbn [negb map]. split; [|now rewrite <- app_assoc].
      destruct (String.eqb name n) eqn:E; [|reflexivity].
      apply String.eqb_eq in E. subst n. rewrite En. cbn [orb].
      now destruct (existsb _ names).
Qed.

Lemma getUniformLocations_get (program : JSMap WebGLUniformLocation)
    (names : list string) (name : string) :
  Map_get (fst (getUniformLocations program names)) name
  = if existsb (String.eqb name) names then Map_get program name else None.
Proof.
  etransitivity;
    [exact (proj1 (getUniformLocations_fold program names [] [] name))|].
  destruct (existsb _ names); [|reflexivity].
  now destruct (Map_get program name).
Qed.

(** X19.  [getUniformLocations] returns a location for exactly the
    requested names that the program declares, the one the program gives;
    for every other requested name it prints one warning per request, in
    the order of the requests, and leaves the name out. *)
Theorem getUniformLocations_exact (program : JSMap WebGLUniformLocation)
    (uniformNames : list string) :
  (forall name,
     Map_get (fst (getUniformLocations program uniformNames)) name
     = if existsb (String.eqb name) uniformNames
       then Map_get program name else None) /\
  snd (getUniformLocations program uniformNames)
  = map (fun name =>
           console_warn
             ("Uniform " ++ quoted name ++ " not found in shader program")%string)
      (filter (fun name => negb (Map_has program name)) uniformNames).
Proof.
  split; [apply getUniformLocations_get|].
  exact (proj2 (getUniformLocations_fold program uniformNames [] [] EmptyString)).
Qed.

Lemma existsb_eqb_In (name : string) (names : list string) :
  existsb (String.eqb name) names = true <-> In name names.
Proof.
  rewrite existsb_exists. split.
  - intros [n [Hin E]]. apply String.eqb_eq in E. now subst.
  - intros Hin. exists name. split; [exact Hin|apply String.eqb_refl].
Qed.

(** X20.  The table of locations is filled once, from the names of the
    snapshot at the time the program is linked.  A name of that snapshot
    gets the location the program declares for it.  A uniform that
    enters the snapshot later has no entry, even when the program
    declares it: the loop over the changed names skips it, without a
    call and without a message. *)
Theorem locations_fixed_at_link (linked : JSMap WebGLUniformLocation)
    (initial : Uniforms) (name : string) :
  let info := fst (useWebGL_programInfo linked (Some initial)) in
  program info = linked /\
  (In name (Map_keys initial) ->
   Map_get (uniformLocations info) name = Map_get linked name) /\
  (~ In name (Map_keys initial) ->
   Map_get (uniformLocations info) name = None /\
   forall (activeUniforms : Uniforms) (st : State),
     applyChanged (uniformLocations info) activeUniforms st name = st).
Proof.
  cbv zeta. unfold useWebGL_programInfo.
  destruct (getUniformLocations linked (Map_keys initial)) as [locations warnings] eqn:E.
  cbn [fst program uniformLocations].
  assert (Hg : Map_get locations name
               = if existsb (String.eqb name) (Map_keys initial)
                 then Map_get linked name else None).
  { rewrite <- (getUniformLocations_get linked (Map_keys initial) name).
    now rewrite E. }
  split; [reflexivity|]. split.
  - intros Hin. apply existsb_eqb_In in Hin. now rewrite Hg, Hin.
  - intros Hin.
    assert (Hn : existsb (String.eqb name) (Map_keys initial) = false).
    { destruct (existsb _ _) eqn:Ee; [|reflexivity].
      apply existsb_eqb_In in Ee. contradiction. }
    rewrite Hn in Hg. split; [exact Hg|].
    intros activeUniforms st. unfold applyChanged. now rewrite Hg.
Qed.

Lemma locations_fixed_at_link_witness :
  Map_get gainProgram "u_bias" = Some 4 /\
  Map_get
    (uniformLocations (fst (useWebGL_programInfo gainProgram (Some linkSnapshot))))
    "u_bias" = None /\
  snd (useWebGL_programInfo gainProgram (Some linkSnapshot))
  = [console_warn
       ("Uniform " ++ quoted "u_unused" ++ " not found in shader program")%string].
Proof.
  split; [reflexivity|]. split; [|reflexivity].
  apply (proj2 (proj2 (locations_fixed_at_link gainProgram linkSnapshot
                         "u_bias"%string))).
  simpl. intuition discriminate.
Defined.

(** ** The history of frame times *)

Lemma skipn_tl (A : Type) (l : list A) (k : nat) : skipn (S k) l = skipn k (tl l).
Proof. destruct l as [|a l]; [now destruct k|reflexivity]. Qed.

Lemma onFrameRender_window (s : nat) (t : Telemetry) (frameTime : number) :
  (forall n, lengthExceeds n (graphSamplesRef t) = (s <? n)) ->
  List.length (frameTimeHistory t) <= s ->
  let t' := onFrameRender_callback frameTime t in
  frameTimeHistory t'
  = skipn (List.length (frameTimeHistory t ++ [frameTime]) - s)
      (frameTimeHistory t ++ [frameTime]) /\
  List.length (frameTimeHistory t') <= s /\
  frameCountRef t' = S (frameCountRef t) /\
  graphSamplesRef t' = graphSamplesRef t.
Proof.
  intros Hs Hlen. cbv zeta. unfold onFrameRender_callback.
  cbn [frameTimeHistory frameCountRef graphSamplesRef].
  rewrite Hs, length_app. cbn [List.length].
  destruct (Nat.ltb_spec s (List.length (frameTimeHistory t) + 1)) as [H|H].
  - assert (E : List.length (frameTimeHistory t) + 1 - s = 1) by lia.
    rewrite E. repeat split.
    destruct (frameTimeHistory t) as [|a l]; cbn [app tl List.length] in *.
    + lia.
    + rewrite length_app. cbn [List.length]. lia.
  - assert (E : List.length (frameTimeHistory t) + 1 - s = 0) by lia.
    rewrite E. repeat split. rewrite length_app. cbn [List.length]. lia.
Qed.

Lemma onFrameRender_fold (s : nat) (frames : list number) (t : Telemetry) :
  (forall n, lengthExceeds n (graphSamplesRef t) = (s <? n)) ->
  List.length (frameTimeHistory t) <= s ->
  let t' := fold_left (fun t frameTime => onFrameRender_callback frameTime t) frames t in
  frameTimeHistory t'
  = skipn (List.length (frameTimeHistory t ++ frames) - s)
      (frameTimeHistory t ++ frames) /\
  List.length (frameTimeHistory t') <= s /\
  frameCountRef t' = frameCountRef t + List.length frames.
Proof.
  revert t. induction frames as [|f frames IH]; intros t Hs Hlen.
  - cbv zeta. cbn [fold_left List.length]. rewrite app_nil_r, Nat.add_0_r.
    assert (E : List.length (frameTimeHistory t) - s = 0) by lia.
    rewrite E. now repeat split.
  - cbv zeta. cbn [fold_left].
    destruct (@onFrameRender_window s t f Hs Hlen) as [H1 [H2 [H3 H4]]].
    cbv zeta in H1, H2, H3, H4.
    set (t1 := onFrameRender_callback f t) in *.
    assert (Hs1 : forall n, lengthExceeds n (graphSamplesRef t1) = (s <? n))
      by (intros n; now rewrite H4).
    destruct (IH t1 Hs1 H2) as [I1 [I2 I3]]. cbv zeta in I1, I2, I3.
    split; [|split; [exact I2|]].
    + rewrite I1, H1. clear I1 I2 I3 IH.
      set (h := frameTimeHistory t) in *.
      assert (Ea : h ++ f :: frames = (h ++ [f]) ++ frames)
        by now rewrite <- app_assoc.
      rewrite Ea. set (l := h ++ [f]) in *.
      assert (Hl : List.length l <= S s).
      { unfold l. rewrite length_app. cbn [List.length]. lia. }
      clearbody l. clear Ea.
      destruct (Nat.le_gt_cases (List.length l) s) as [Hle|Hgt].
      * replace (List.length l - s) with 0 by lia. reflexivity.
      * replace (List.length l - s) with 1 by lia.
        destruct l as [|a l]; [simpl in Hgt; lia|].
        cbn [skipn app List.length].
        rewrite !length_app. cbn [List.length] in *.
        replace (S (List.length l + List.length frames) - s)
          with (S (List.length l + List.length frames - s)) by lia.
        reflexivity.
    + rewrite I3, H3. cbn [List.length]. lia.
Qed.

(** X21.  When [graphSamples] is a whole number [s], the history of frame
    times holds the last [s] frame times reported, oldest first, and
    never more than [s] entries; the frame counter counts every report.
    A [graphSamples] that is absent, zero or NaN stands for 60. *)
Theorem telemetry_window (s : nat) (graphSamples : option number)
    (frames : list number) :
  (forall n, lengthExceeds n (graphSamplesOr60 graphSamples) = (s <? n)) ->
  let t' :=
    fold_left (fun t frameTime => onFrameRender_callback frameTime t) frames
      (useShaderTelemetry graphSamples) in
  frameTimeHistory t' = skipn (List.length frames - s) frames /\
  List.length (frameTimeHistory t') <= s /\
  frameCountRef t' = List.length frames.
Proof.
  intros Hs.
  exact (@onFrameRender_fold s frames (useShaderTelemetry graphSamples) Hs
           (Nat.le_0_l s)).
Qed.

Lemma sixty_samples (n : nat) : lengthExceeds n (ofZ 60) = (60 <? n).
Proof.
  change (ofZ 60) with (S754_finite false 8444249301319680 (-47)).
  cbn [lengthExceeds Z.leb Z.compare Z.opp].
  destruct (Nat.ltb_spec 60 n) as [H|H].
  - apply Z.ltb_lt. change (2 ^ 47)%Z with 140737488355328%Z. lia.
  - apply Z.ltb_ge. change (2 ^ 47)%Z with 140737488355328%Z. lia.
Defined.

Lemma telemetry_window_witness :
  graphSamplesOr60 (Some (ofZ 0)) = ofZ 60 /\
  List.length
    (frameTimeHistory
       (fold_left (fun t frameTime => onFrameRender_callback frameTime t)
          (repeat (ofZ 16) 100) (useShaderTelemetry (Some (ofZ 0)))))
  <= 60.
Proof.
  split; [reflexivity|].
  exact (proj1 (proj2 (@telemetry_window 60 (Some (ofZ 0)) (repeat (ofZ 16) 100)
                         sixty_samples))).
Defined.

(** ** The parameters of a texture *)

Lemma paramAfter_one (t : WebGLTexture) (pname : TexParameter) (active : nat)
    (bindings : nat -> option WebGLTexture) (cur : option Z)
    (p : TexParameter) (v : Z) (r : list GLCall) :
  paramAfter t pname active bindings cur (gl_texParameteri p v :: r)
  = paramAfter t pname active bindings
      (if isBound bindings active t && TexParameter_eqb p pname
       then Some v else cur) r.
Proof. reflexivity. Qed.

(** X22.  [createTexture] leaves each of the four parameters of the new
    texture at the value its options give, or at the default
    ([CLAMP_TO_EDGE], [LINEAR]) when they give none.  [updateTexture]
    changes the parameters its options give and leaves the others as
    they were.  Neither touches the parameters of another texture. *)
Theorem texture_parameters (texture other : WebGLTexture) (source : Source)
    (options : option TextureOptions) (unit active : nat)
    (bindings : nat -> option WebGLTexture) (cur : option Z)
    (pname : TexParameter) :
  paramAfter texture pname active bindings cur
    (createTexture_calls texture source options unit)
  = Some (orDefault (optionCode options pname) (defaultCode pname)) /\
  paramAfter texture pname active bindings cur
    (updateTexture_calls texture source options unit)
  = match optionCode options pname with
    | Some code => Some code
    | None => cur
    end /\
  (other <> texture ->
   paramAfter other pname active bindings cur
     (createTexture_calls texture source options unit) = cur /\
   paramAfter other pname active bindings cur
     (updateTexture_calls texture source options unit) = cur).
Proof.
  assert (Hb : forall b : nat -> option WebGLTexture,
            isBound (fun u => if Nat.eqb u unit then Some texture else b u)
              unit texture = true).
  { intros b. unfold isBound. now rewrite !Nat.eqb_refl. }
  assert (Hbo : other <> texture ->
            forall b : nat -> option WebGLTexture,
              isBound (fun u => if Nat.eqb u unit then Some texture else b u)
                unit other = false).
  { intros Hne b. unfold isBound. rewrite Nat.eqb_refl.
    apply Nat.eqb_neq. congruence. }
  split; [|split; [|intros Hne; split]].
  - unfold createTexture_calls. cbv zeta.
    destruct options as [[ws wt mn mg fy]|]; cbn [orDefault emptyOptions
      wrapS wrapT minFilter magFilter flipY optionCode option_map app];
      cbn [paramAfter]; rewrite !Hb.
    + destruct pname, ws, wt, mn, mg; try destruct (isMipmapFilter _);
        reflexivity.
    + destruct pname; reflexivity.
  - unfold updateTexture_calls. cbv zeta.
    destruct options as [[ws wt mn mg fy]|]; cbn [orDefault emptyOptions
      wrapS wrapT minFilter magFilter flipY optionCode option_map app].
    + destruct ws as [[]|], wt as [[]|], mn as [[]|], mg as [[]|], fy as [[]|];
        cbn; rewrite ?Hb; destruct pname; reflexivity.
    + reflexivity.
  - unfold createTexture_calls. cbv zeta.
    destruct options as [[ws wt mn mg fy]|]; cbn [orDefault emptyOptions
      wrapS wrapT minFilter magFilter flipY app];
      cbn [paramAfter]; rewrite !(Hbo Hne);
      try destruct (isMipmapFilter _); reflexivity.
  - unfold updateTexture_calls. cbv zeta.
    destruct options as [[ws wt mn mg fy]|]; cbn [orDefault emptyOptions
      wrapS wrapT minFilter magFilter flipY app].
    + destruct ws as [[]|], wt as [[]|], mn as [[]|], mg as [[]|], fy as [[]|];
        cbn; rewrite ?(Hbo Hne); reflexivity.
    + reflexivity.
Qed.

Lemma texture_parameters_witness :
  paramAfter 1 TEXTURE_WRAP_S 0 (fun _ => None) (Some 10497%Z)
    (updateTexture_calls 0 image1 (Some repeatOptions) 0) = Some 10497%Z /\
  paramAfter 0 TEXTURE_WRAP_T 0 (fun _ => None) None
    (createTexture_calls 0 image1 (Some repeatOptions) 0) = Some 33071%Z.
Proof.
  split.
  - apply (proj2 (proj2 (texture_parameters 0 1 image1 (Some repeatOptions)
                           0 0 (fun _ => None) (Some 10497%Z) TEXTURE_WRAP_S))).
    discriminate.
  - reflexivity.
Defined.

(** ** Setting the program up *)

(** X23.  With a canvas, [useWebGL] stores a program info exactly when
    every step of the set-up succeeds: the canvas gives a context, both
    shaders are created and compile, the program is created and links,
    and the buffer is created.  Then the info holds the locations found
    for the names of the snapshot, and the warnings for the other names
    are all it prints after its opening line.  In every other case the
    program info is [null] and one error is printed. *)
Theorem useWebGL_outcome (d : Driver) (uniformsRef : option Uniforms)
    (vertexShader fragmentShader : string) (h : WebGLHook) :
  let h1 := useWebGL_effect d true uniformsRef vertexShader fragmentShader h in
  let ok := setupSucceeds d (context h) vertexShader fragmentShader in
  (if ok
   then programInfoState h1
        = Some (fst (useWebGL_programInfo
                       (activeUniforms d (S (S (nextObject (context h)))))
                       uniformsRef))
   else programInfoState h1 = None) /\
  (exists messages,
     setupConsole h1
     = setupConsole h ++ setup_log "Initializing WebGL context..." :: messages /\
     if ok
     then messages
          = map setup_warn
              (snd (useWebGL_programInfo
                      (activeUniforms d (S (S (nextObject (context h)))))
                      uniformsRef))
     else exists err, messages = [setup_error "WebGL initialization error:" err]).
Proof.
  cbv zeta.
  unfold setupSucceeds, vertexCompiles, fragmentCompiles, useWebGL_effect,
    useWebGL_try, compileShader, createProgram, createQuadBuffer, setup_create.
  cbn [negb].
  destruct (getContext d); cbn [negb andb programInfoState setupConsole].
  2:{ split; [reflexivity|]. eexists. rewrite <- app_assoc. split; [reflexivity|].
      eexists. reflexivity. }
  destruct (createShaderFails d VERTEX_SHADER);
    cbn [negb andb programInfoState setupConsole nextObject setup_emit].
  { split; [reflexivity|]. eexists. rewrite <- app_assoc. split; [reflexivity|].
    eexists. reflexivity. }
  destruct (COMPILE_STATUS d VERTEX_SHADER vertexShader);
    cbn [negb andb programInfoState setupConsole nextObject setup_emit].
  2:{ split; [reflexivity|]. eexists. rewrite <- app_assoc. split; [reflexivity|].
      eexists. reflexivity. }
  destruct (createShaderFails d FRAGMENT_SHADER);
    cbn [negb andb programInfoState setupConsole nextObject setup_emit].
  { split; [reflexivity|]. eexists. rewrite <- app_assoc. split; [reflexivity|].
    eexists. reflexivity. }
  destruct (COMPILE_STATUS d FRAGMENT_SHADER fragmentShader);
    cbn [negb andb programInfoState setupConsole nextObject setup_emit].
  2:{ split; [reflexivity|]. eexists. rewrite <- app_assoc. split; [reflexivity|].
      eexists. reflexivity. }
  destruct (createProgramFails d);
    cbn [negb andb programInfoState setupConsole nextObject setup_emit].
  { split; [reflexivity|]. eexists. rewrite <- app_assoc. split; [reflexivity|].
    eexists. reflexivity. }
  destruct (LINK_STATUS d (nextObject (context h)) (S (nextObject (context h))));
    cbn [negb andb programInfoState setupConsole nextObject setup_emit].
  2:{ split; [reflexivity|]. eexists. rewrite <- app_assoc. split; [reflexivity|].
      eexists. reflexivity. }
  destruct (createBufferFails d);
    cbn [negb andb programInfoState setupConsole nextObject setup_emit].
  { split; [reflexivity|]. eexists. rewrite <- app_assoc. split; [reflexivity|].
    eexists. reflexivity. }
  destruct (useWebGL_programInfo _ uniformsRef) as [info warnings].
  cbn [programInfoState setupConsole fst snd].
  split; [reflexivity|]. eexists. rewrite <- app_assoc. split; reflexivity.
Qed.

Ltac decide_objects :=
  cbn [undeletedFrom remove app];
  repeat match goal with
         | |- context [Nat.eq_dec ?a ?b] =>
             destruct (Nat.eq_dec a b); try lia; cbn [undeletedFrom remove app]
         end.

(** X24.  A set-up followed by the cleanup deletes everything it created
    only when the set-up succeeded or failed before the vertex shader
    had compiled.  When a later step fails, the catch block deletes
    nothing and the cleanup deletes at most the program: the vertex
    shader stays undeleted, and so does the fragment shader if it had
    compiled. *)
Theorem useWebGL_release (d : Driver) (uniformsRef : option Uniforms)
    (vertexShader fragmentShader : string) (h : WebGLHook) :
  programRef h = None -> quadBufferRef h = None ->
  let h2 :=
    useWebGL_cleanup
      (useWebGL_effect d true uniformsRef vertexShader fragmentShader h) in
  let v := nextObject (context h) in
  exists delta,
    setupCalls (context h2) = setupCalls (context h) ++ delta /\
    undeletedFrom [] delta
    = if setupSucceeds d (context h) vertexShader fragmentShader then []
      else if vertexCompiles d vertexShader
           then if fragmentCompiles d fragmentShader then [v; S v] else [v]
           else [].
Proof.
  intros Hp Hb. cbv zeta.
  unfold setupSucceeds, vertexCompiles, fragmentCompiles, useWebGL_cleanup,
    useWebGL_effect, useWebGL_try, compileShader, createProgram,
    createQuadBuffer, setup_create.
  cbn [negb]. rewrite Hp, Hb.
  destruct (getContext d);
    cbn [negb andb context glRef programRef quadBufferRef nextObject setup_emit
         setupCalls].
  2:{ exists []. split; [|reflexivity]. destruct (glRef h); now rewrite app_nil_r. }
  destruct (createShaderFails d VERTEX_SHADER);
    cbn [negb andb context glRef programRef quadBufferRef nextObject setup_emit
         setupCalls].
  { eexists. split; reflexivity. }
  destruct (COMPILE_STATUS d VERTEX_SHADER vertexShader);
    cbn [negb andb context glRef programRef quadBufferRef nextObject setup_emit
         setupCalls].
  2:{ eexists. rewrite <- !app_assoc. split; [reflexivity|]. decide_objects.
      reflexivity. }
  destruct (createShaderFails d FRAGMENT_SHADER);
    cbn [negb andb context glRef programRef quadBufferRef nextObject setup_emit
         setupCalls].
  { eexists. rewrite <- !app_assoc. split; reflexivity. }
  destruct (COMPILE_STATUS d FRAGMENT_SHADER fragmentShader);
    cbn [negb andb context glRef programRef quadBufferRef nextObject setup_emit
         setupCalls].
  2:{ eexists. rewrite <- !app_assoc. split; [reflexivity|]. decide_objects.
      reflexivity. }
  destruct (createProgramFails d);
    cbn [negb andb context glRef programRef quadBufferRef nextObject setup_emit
         setupCalls].
  { eexists. rewrite <- !app_assoc. split; reflexivity. }
  destruct (LINK_STATUS d (nextObject (context h)) (S (nextObject (context h))));
    cbn [negb andb context glRef programRef quadBufferRef nextObject setup_emit
         setupCalls].
  2:{ eexists. rewrite <- !app_assoc. split; [reflexivity|]. decide_objects.
      reflexivity. }
  destruct (createBufferFails d);
    cbn [negb andb context glRef programRef quadBufferRef nextObject setup_emit
         setupCalls].
  { eexists. rewrite <- !app_assoc. split; [reflexivity|]. decide_objects.
    reflexivity. }
  destruct (useWebGL_programInfo _ uniformsRef) as [info warnings].
  cbn [context glRef programRef quadBufferRef nextObject setup_emit setupCalls].
  eexists. rewrite <- !app_assoc. split; [reflexivity|]. decide_objects.
  reflexivity.
Qed.

Lemma useWebGL_release_witness :
  exists delta,
    setupCalls
      (context
         (useWebGL_cleanup
            (useWebGL_effect badFragmentDriver true (Some linkSnapshot)
               "void main() {}" "void main() {" unmounted)))
    = delta /\
    undeletedFrom [] delta = [0].
Proof.
  destruct (@useWebGL_release badFragmentDriver (Some linkSnapshot)
              "void main() {}" "void main() {" unmounted eq_refl eq_refl)
    as [delta [H1 H2]].
  exists delta. split; [exact H1|exact H2].
Defined.

(** ** Bindings that leave the snapshot *)

Lemma createOrUpdate_other (dom : Dom) (st : State) (entry : string * TextureEntry)
    (name : string) :
  name <> fst entry ->
  Map_get (texturesRef (createOrUpdate dom st entry)) name
  = Map_get (texturesRef st) name /\
  Map_get (textureUnitsRef (createOrUpdate dom st entry)) name
  = Map_get (textureUnitsRef st) name /\
  exists cs,
    calls (gl (createOrUpdate dom st entry)) = calls (gl st) ++ cs /\
    lacks isDelete cs.
Proof.
  destruct entry as [n [value options]]. cbn [fst]. intros Hne.
  assert (E : String.eqb name n = false) by now apply String.eqb_neq.
  destruct (isTextureSourceReady dom value) eqn:Hr.
  2:{ rewrite createOrUpdate_notReady by exact Hr. repeat split.
      exists []. split; [now rewrite app_nil_r|constructor]. }
  destruct (Map_get (texturesRef st) n) as [i|] eqn:Eg.
  - rewrite createOrUpdate_update with (info := i) by assumption.
    cbn [texturesRef textureUnitsRef with_textures with_gl gl updateTexture
         gl_emit calls].
    rewrite Map_get_set, E. repeat split.
    eexists. split; [reflexivity|]. apply updateTexture_calls_keep.
  - destruct (getAvailableUnit (gl st) (textureUnitsRef st)) as [u|error] eqn:Eu.
    2:{ rewrite createOrUpdate_exhausted with (error := error) by assumption.
        repeat split. exists []. split; [now rewrite app_nil_r|constructor]. }
    destruct (contextLost (gl st)) eqn:Hl.
    { rewrite createOrUpdate_lost with (u := u) by assumption. repeat split.
      exists [gl_createTexture]. split; [reflexivity|repeat constructor]. }
    rewrite createOrUpdate_created with (u := u) by assumption.
    cbn [texturesRef textureUnitsRef with_textures with_gl gl gl_emit calls].
    rewrite !Map_get_set, E. repeat split.
    exists (gl_createTexture
            :: createTexture_calls (nextTexture (gl st)) value options u).
    split; [now rewrite <- app_assoc|].
    constructor; [reflexivity|apply createTexture_calls_keep].
Qed.

Lemma createOrUpdate_fold_other (dom : Dom) (entries : JSMap TextureEntry)
    (st : State) (name : string) :
  ~ In name (Map_keys entries) ->
  Map_get (texturesRef (fold_left (createOrUpdate dom) entries st)) name
  = Map_get (texturesRef st) name /\
  Map_get (textureUnitsRef (fold_left (createOrUpdate dom) entries st)) name
  = Map_get (textureUnitsRef st) name /\
  exists cs,
    calls (gl (fold_left (createOrUpdate dom) entries st)) = calls (gl st) ++ cs /\
    lacks isDelete cs.
Proof.
  revert st. induction entries as [|e l IH]; intros st Hin.
  - repeat split. exists []. split; [now rewrite app_nil_r|constructor].
  - cbn [fold_left].
    assert (Hne : name <> fst e) by (intros ->; apply Hin; now left).
    assert (Hl : ~ In name (Map_keys l)) by (intros H; apply Hin; now right).
    destruct (@createOrUpdate_other dom st e name Hne) as [H1 [H2 [cs1 [Hc1 Hd1]]]].
    destruct (IH (createOrUpdate dom st e) Hl) as [I1 [I2 [cs2 [Hc2 Hd2]]]].
    rewrite I1, I2, H1, H2. repeat split.
    exists (cs1 ++ cs2). split.
    + now rewrite Hc2, Hc1, <- app_assoc.
    + now apply lacks_app.
Qed.

Lemma count_deletions (l : JSMap TextureInfo) (t : WebGLTexture) :
  NoDup (handlesOf l) ->
  countCalls (isDeleteOf t) (deletionsOf l)
  = if existsb (Nat.eqb t) (handlesOf l) then 1 else 0.
Proof.
  induction l as [|[n i] l IH]; intros Hnd; [reflexivity|].
  cbn [deletionsOf handlesOf map snd existsb] in *.
  apply NoDup_cons_iff in Hnd. destruct Hnd as [Hin Hnd].
  unfold countCalls in *. cbn [filter isDeleteOf].
  rewrite (Nat.eqb_sym (texture i) t).
  destruct (Nat.eqb t (texture i)) eqn:E.
  - apply Nat.eqb_eq in E. subst t. cbn [List.length orb].
    change (map (fun entry : string * TextureInfo => gl_deleteTexture (texture (snd entry))) l)
      with (deletionsOf l).
    rewrite (IH Hnd).
    destruct (existsb (Nat.eqb (texture i)) _) eqn:Ee; [|reflexivity].
    apply existsb_exists in Ee. destruct Ee as [t' [Ht' Et']].
    apply Nat.eqb_eq in Et'. subst t'. contradiction.
  - cbn [orb]. apply (IH Hnd).
Qed.

Lemma lacks_isDeleteOf (t : WebGLTexture) (cs : list GLCall) :
  lacks isDelete cs -> lacks (isDeleteOf t) cs.
Proof.
  unfold lacks. apply Forall_impl. intros c Hc. destruct c; try reflexivity.
  discriminate.
Qed.

(** X25.  A binding whose name has left the snapshot does not survive a
    reconciliation: its name is gone from both maps, and its texture is
    deleted exactly once. *)
Theorem stale_binding_deleted (dom : Dom) (textureUniforms : JSMap TextureEntry)
    (st : State) (name : string) (info : TextureInfo) :
  bindings_wf st ->
  Map_get (texturesRef st) name = Some info ->
  Map_has textureUniforms name = false ->
  let st' := useTextures_effect dom true (Some textureUniforms) st in
  Map_get (texturesRef st') name = None /\
  Map_get (textureUnitsRef st') name = None /\
  exists cs,
    calls (gl st') = calls (gl st) ++ cs /\
    countCalls (isDeleteOf (texture info)) cs = 1.
Proof.
  intros W Hg Hk st'. unfold st', useTextures_effect.
  destruct (removeStale_spec textureUniforms W) as [HT [HU [HG _]]].
  set (st1 := removeStale textureUniforms st) in *.
  assert (Hin : ~ In name (Map_keys textureUniforms)).
  { rewrite <- Map_has_true. congruence. }
  destruct (@createOrUpdate_fold_other dom textureUniforms st1 name Hin)
    as [H1 [H2 [cs [Hc Hd]]]].
  assert (Hg1 : Map_get (texturesRef st1) name = None).
  { rewrite HT. unfold keeps.
    rewrite (Map_get_filter (Map_has textureUniforms)), Hk. reflexivity. }
  rewrite H1, H2, Hg1, HU. unfold unitsOf at 1. rewrite Map_get_image, Hg1.
  repeat split.
  eexists. split.
  - rewrite Hc, HG. cbn [gl_emit calls]. rewrite <- app_assoc. reflexivity.
  - rewrite countCalls_app, (countCalls_lacks (lacks_isDeleteOf _ Hd)), Nat.add_0_r.
    rewrite count_deletions.
    + assert (He : existsb (Nat.eqb (texture info))
                     (handlesOf
                        (filter (fun e => negb (keeps textureUniforms e))
                           (texturesRef st))) = true).
      { apply existsb_exists. exists (texture info). split; [|apply Nat.eqb_refl].
        unfold handlesOf. apply in_map_iff. exists (name, info). split; [reflexivity|].
        apply filter_In. split; [now apply Map_get_In|].
        unfold keeps. cbn [fst]. now rewrite Hk. }
      now rewrite He.
    + unfold handlesOf. apply NoDup_map_filter. apply (wf_handles W).
Qed.

Lemma stale_binding_deleted_witness :
  Map_get
    (texturesRef
       (useTextures_effect readyDom true (Some firstAndThird)
          (useTextures_effect readyDom true (Some twoTextures) state0)))
    "u_tex2" = None.
Proof.
  refine (proj1
    (@stale_binding_deleted readyDom firstAndThird
       (useTextures_effect readyDom true (Some twoTextures) state0)
       "u_tex2"%string {| texture := 1; source := image2; unit := 1 |} _ _ _)).
  - apply useTextures_effect_wf. now apply bindings_wf_empty.
  - reflexivity.
  - reflexivity.
Defined.

(** ** A texture uniform in a frame *)

(** X26.  After any history that starts with an empty pool, a frame that
    finds a bound texture uniform among the changed names sets its
    sampler to the unit of the binding among its own calls, before its
    draw call, and the texture of the binding is the one bound to that
    unit when the frame ends. *)
Theorem sampler_set_to_bound_unit (events : list Event) (st : State)
    (info : WebGLProgramInfo) (options : option ShaderCanvasOptions)
    (time now : number) (canvas : Canvas) (name : string)
    (binding : TextureInfo) (loc : WebGLUniformLocation) (source : Source)
    (textureOptions : option TextureOptions) :
  texturesRef st = [] -> textureUnitsRef st = [] ->
  let st1 := run events st in
  canvasRef st1 = Some canvas ->
  In (name, binding) (texturesRef st1) ->
  In name (changedUniformsRef st1) ->
  Map_get (uniformLocations info) name = Some loc ->
  Map_get (uniformsRef st1) name = Some (TextureUniform source textureOptions) ->
  let st2 := renderLoop (Some info) options time now st1 in
  (exists before after,
     calls (gl st2)
     = calls (gl st1)
       ++ before
       ++ gl_uniform1i loc (JSnumber (ofZ (Z.of_nat (unit binding)))) :: after
       ++ [gl_drawArrays 0 6]) /\
  boundAt (gl st2) (unit binding) = Some (texture binding).
Proof.
  intros HT HU st1 Hc Hin Hch Hloc Hun st2.
  pose proof (run_ok events (pool_ok_empty st HT HU)) as H. fold st1 in H.
  pose proof (renderLoop_ok (Some info) options time now H) as H2. fold st2 in H2.
  destruct (@renderLoop_running info options time now st1 canvas Hc)
    as [HG [_ [_ [HT2 _]]]]. fold st2 in HG, HT2.
  split.
  - assert (Hu : Map_get (textureUnitsRef st1) name = Some (unit binding)).
    { rewrite (wf_mirror (ok_wf H)). unfold unitsOf. rewrite Map_get_image.
      now rewrite (Map_get_NoDup_In _ _ _ (wf_names (ok_wf H)) Hin). }
    apply in_split in Hch. destruct Hch as [l1 [l2 Hsplit]].
    rewrite HG. cbn [gl_emit calls]. unfold frameCalls.
    rewrite Hsplit, flat_map_app. cbn [flat_map].
    unfold uniformOutcome at 2. rewrite Hloc, Hun, Hu.
    cbn [setUniform outcomeCalls app].
    exists (frameOpening info options canvas (mousePosition st1) time
            ++ flat_map (refreshCallsOf (uniformsRef st1)) (texturesRef st1)
            ++ flat_map
                 (fun key =>
                    outcomeCalls
                      (uniformOutcome (uniformLocations info) (uniformsRef st1)
                         (textureUnitsRef st1) key)) l1).
    exists (flat_map
              (fun key =>
                 outcomeCalls
                   (uniformOutcome (uniformLocations info) (uniformsRef st1)
                      (textureUnitsRef st1) key)) l2).
    now rewrite <- !app_assoc.
  - apply (ok_bound H2 name). now rewrite HT2.
Qed.

Lemma sampler_set_to_bound_unit_witness :
  (exists before after,
     calls (gl (renderLoop (Some samplerProgram) None (ofZ 16) (ofZ 16)
                  (run samplerHistory state0)))
     = calls (gl (run samplerHistory state0))
       ++ before ++ gl_uniform1i 5 (JSnumber (ofZ 0)) :: after
       ++ [gl_drawArrays 0 6]) /\
  boundAt (gl (renderLoop (Some samplerProgram) None (ofZ 16) (ofZ 16)
                 (run samplerHistory state0))) 0 = Some 0.
Proof.
  apply (@sampler_set_to_bound_unit samplerHistory state0 samplerProgram None
           (ofZ 16) (ofZ 16) canvas0 "u_tex"%string
           {| texture := 0; source := image1; unit := 0 |} 5 image1 None
           eq_refl eq_refl eq_refl).
  - vm_compute. now left.
  - vm_compute. now left.
  - reflexivity.
  - reflexivity.
Defined.

(** ** One entry of the snapshot in a reconciliation *)

Lemma createOrUpdate_console (dom : Dom) (st : State) (entry : string * TextureEntry) :
  exists ms, console (createOrUpdate dom st entry) = console st ++ ms.
Proof.
  destruct entry as [n [value options]].
  destruct (isTextureSourceReady dom value) eqn:Hr.
  2:{ rewrite createOrUpdate_notReady by exact Hr. eexists. reflexivity. }
  destruct (Map_get (texturesRef st) n) as [i|] eqn:Eg.
  - rewrite createOrUpdate_update with (info := i) by assumption.
    exists []. now rewrite app_nil_r.
  - destruct (getAvailableUnit (gl st) (textureUnitsRef st)) as [u|error] eqn:Eu.
    2:{ rewrite createOrUpdate_exhausted with (error := error) by assumption.
        eexists. reflexivity. }
    destruct (contextLost (gl st)) eqn:Hl.
    { rewrite createOrUpdate_lost with (u := u) by assumption.
      eexists. reflexivity. }
    rewrite createOrUpdate_created with (u := u) by assumption.
    exists []. now rewrite app_nil_r.
Qed.

Lemma createOrUpdate_fold_console (dom : Dom) (entries : JSMap TextureEntry)
    (st : State) :
  exists ms, console (fold_left (createOrUpdate dom) entries st) = console st ++ ms.
Proof.
  revert st. induction entries as [|e l IH]; intros st.
  - exists []. now rewrite app_nil_r.
  - cbn [fold_left]. destruct (createOrUpdate_console dom st e) as [m1 H1].
    destruct (IH (createOrUpdate dom st e)) as [m2 H2].
    exists (m1 ++ m2). now rewrite H2, H1, <- app_assoc.
Qed.

(** The reconciliation seen from one entry of the snapshot: the rounds
    before it and after it leave the binding of its name alone. *)
Lemma useTextures_effect_at (dom : Dom) (textureUniforms : JSMap TextureEntry)
    (st : State) (name : string) (value : Source)
    (options : option TextureOptions) :
  bindings_wf st ->
  NoDup (Map_keys textureUniforms) ->
  Map_get textureUniforms name = Some (value, options) ->
  exists s1 : State,
    let s2 := createOrUpdate dom s1 (name, (value, options)) in
    let st' := useTextures_effect dom true (Some textureUniforms) st in
    Map_get (texturesRef s1) name = Map_get (texturesRef st) name /\
    Map_get (textureUnitsRef s1) name = Map_get (textureUnitsRef st) name /\
    (exists cs, calls (gl s1) = calls (gl st) ++ cs) /\
    Map_get (texturesRef st') name = Map_get (texturesRef s2) name /\
    Map_get (textureUnitsRef st') name = Map_get (textureUnitsRef s2) name /\
    (exists cs, calls (gl st') = calls (gl s2) ++ cs) /\
    (exists ms, console st' = console s2 ++ ms).
Proof.
  intros W Hnd Hg.
  destruct (in_split _ _ (Map_get_In _ _ Hg)) as [l1 [l2 El]].
  assert (Hn1 : ~ In name (Map_keys l1) /\ ~ In name (Map_keys l2)).
  { rewrite El in Hnd. unfold Map_keys in Hnd. rewrite map_app in Hnd.
    cbn [map fst] in Hnd. split.
    - apply NoDup_remove_2 in Hnd. intros H. apply Hnd. apply in_or_app. now left.
    - apply NoDup_remove_2 in Hnd. intros H. apply Hnd. apply in_or_app. now right. }
  destruct Hn1 as [Hn1 Hn2].
  destruct (removeStale_spec textureUniforms W) as [HT [HU [HG _]]].
  set (st0 := removeStale textureUniforms st) in *.
  assert (Hk : Map_has textureUniforms name = true).
  { unfold Map_has. now rewrite Hg. }
  exists (fold_left (createOrUpdate dom) l1 st0). cbv zeta.
  destruct (@createOrUpdate_fold_other dom l1 st0 name Hn1) as [A1 [A2 [cs1 [A3 _]]]].
  set (s1 := fold_left (createOrUpdate dom) l1 st0) in *.
  destruct (@createOrUpdate_fold_other dom l2
              (createOrUpdate dom s1 (name, (value, options))) name Hn2)
    as [B1 [B2 [cs2 [B3 _]]]].
  destruct (createOrUpdate_fold_console dom l2
              (createOrUpdate dom s1 (name, (value, options)))) as [ms Hms].
  assert (Ee : useTextures_effect dom true (Some textureUniforms) st
               = fold_left (createOrUpdate dom) l2
                   (createOrUpdate dom s1 (name, (value, options)))).
  { unfold useTextures_effect. fold st0. unfold s1.
    generalize st0. intros s. rewrite El. now rewrite fold_left_app. }
  rewrite Ee. repeat split.
  - rewrite A1, HT. unfold keeps.
    now rewrite (Map_get_filter (Map_has textureUniforms)), Hk.
  - rewrite A2, HU, HT, (wf_mirror W). unfold unitsOf, keeps.
    rewrite !Map_get_image, (Map_get_filter (Map_has textureUniforms)), Hk.
    reflexivity.
  - eexists. rewrite A3, HG. cbn [gl_emit calls]. rewrite <- app_assoc. reflexivity.
  - exact B1.
  - exact B2.
  - now exists cs2.
  - now exists ms.
Qed.

(** X27.  A reconciliation uploads the image of every bound texture of
    the snapshot whose source is ready, whether or not the source is the
    one the binding already holds; the binding keeps its texture and its
    unit and records the source of the snapshot. *)
Theorem bound_texture_reuploaded (dom : Dom)
    (textureUniforms : JSMap TextureEntry) (st : State) (name : string)
    (value : Source) (options : option TextureOptions) (info : TextureInfo) :
  bindings_wf st ->
  NoDup (Map_keys textureUniforms) ->
  Map_get textureUniforms name = Some (value, options) ->
  Map_get (texturesRef st) name = Some info ->
  isTextureSourceReady dom value = true ->
  let st' := useTextures_effect dom true (Some textureUniforms) st in
  Map_get (texturesRef st') name
  = Some {| texture := texture info; source := value; unit := unit info |} /\
  exists before after,
    calls (gl st')
    = calls (gl st) ++ before
      ++ updateTexture_calls (texture info) value options (unit info) ++ after.
Proof.
  intros W Hnd Hg Hb Hr. cbv zeta.
  destruct (@useTextures_effect_at dom textureUniforms st name value options W Hnd Hg)
    as [s1 [A1 [_ [[cs1 A3] [B1 [_ [[cs2 B3] _]]]]]]].
  cbv zeta in B1, B3.
  rewrite Hb in A1.
  rewrite createOrUpdate_update with (info := info) in B1, B3 by assumption.
  cbn [texturesRef with_textures with_gl gl updateTexture gl_emit calls] in B1, B3.
  rewrite Map_get_set, String.eqb_refl in B1. split; [exact B1|].
  exists cs1, cs2. rewrite B3, A3. now rewrite <- !app_assoc.
Qed.

Lemma bound_texture_reuploaded_witness :
  exists before after,
    calls (gl (useTextures_effect readyDom true (Some twoTextures)
                 (useTextures_effect readyDom true (Some twoTextures) state0)))
    = calls (gl (useTextures_effect readyDom true (Some twoTextures) state0))
      ++ before ++ updateTexture_calls 1 image2 None 1 ++ after.
Proof.
  refine (proj2
    (@bound_texture_reuploaded readyDom twoTextures
       (useTextures_effect readyDom true (Some twoTextures) state0)
       "u_tex2"%string image2 None {| texture := 1; source := image2; unit := 1 |}
       _ _ eq_refl eq_refl eq_refl)).
  - apply useTextures_effect_wf. now apply bindings_wf_empty.
  - repeat constructor; simpl; intuition discriminate.
Defined.

(** X28.  A texture uniform whose source is not ready is passed over
    with a warning: if its name was bound, the binding stays as it was,
    with the source it held before; if not, the name stays unbound. *)
Theorem unready_texture_skipped (dom : Dom)
    (textureUniforms : JSMap TextureEntry) (st : State) (name : string)
    (value : Source) (options : option TextureOptions) :
  bindings_wf st ->
  NoDup (Map_keys textureUniforms) ->
  Map_get textureUniforms name = Some (value, options) ->
  isTextureSourceReady dom value = false ->
  let st' := useTextures_effect dom true (Some textureUniforms) st in
  Map_get (texturesRef st') name = Map_get (texturesRef st) name /\
  Map_get (textureUnitsRef st') name = Map_get (textureUnitsRef st) name /\
  In (console_warn
        ("Texture source for " ++ quoted name ++ " is not ready yet")%string)
     (console st').
Proof.
  intros W Hnd Hg Hr. cbv zeta.
  destruct (@useTextures_effect_at dom textureUniforms st name value options W Hnd Hg)
    as [s1 [A1 [A2 [_ [B1 [B2 [_ [ms B4]]]]]]]].
  cbv zeta in B1, B2, B4.
  rewrite createOrUpdate_notReady in B1, B2, B4 by exact Hr.
  cbn [log with_console texturesRef textureUnitsRef console] in B1, B2, B4.
  repeat split; try congruence.
  rewrite B4. apply in_or_app. left. apply in_or_app. right. now left.
Qed.

Lemma unready_texture_skipped_witness :
  Map_get
    (texturesRef
       (useTextures_effect waitingDom true
          (Some [ ("u_video"%string, (video1, None)) ]) state0)) "u_video"
  = None /\
  console
    (useTextures_effect waitingDom true
       (Some [ ("u_video"%string, (video1, None)) ]) state0)
  = [console_warn
       ("Texture source for " ++ quoted "u_video" ++ " is not ready yet")%string].
Proof.
  split; [|reflexivity].
  refine (proj1
    (@unready_texture_skipped waitingDom [ ("u_video"%string, (video1, None)) ]
       state0 "u_video"%string video1 None _ _ eq_refl eq_refl)).
  - now apply bindings_wf_empty.
  - repeat constructor. simpl. tauto.
Defined.

(** ** Colours *)

Lemma wrap32_small (k : Z) : (- 2 ^ 31 <= k < 2 ^ 31)%Z -> wrap32 k = k.
Proof.
  intros H. unfold wrap32.
  change (2 ^ 31)%Z with 2147483648%Z in *. change (2 ^ 32)%Z with 4294967296%Z.
  rewrite Z.mod_small; lia.
Qed.

Lemma byte_range (a : Z) : (0 <= Z.land a 255 <= 255)%Z.
Proof.
  change (Z.land a 255) with (Z.land a (Z.ones 8)). rewrite Z.land_ones by lia.
  change (2 ^ 8)%Z with 256%Z.
  pose proof (Z.mod_pos_bound a 256 eq_refl). lia.
Qed.

Lemma byte_land (a : Z) : (0 <= a <= 255)%Z -> Z.land a 255 = a.
Proof.
  intros H. change (Z.land a 255) with (Z.land a (Z.ones 8)).
  rewrite Z.land_ones by lia.
  change (2 ^ 8)%Z with 256%Z. apply Z.mod_small. lia.
Qed.

(** Every byte is read back from the number that denotes it. *)
Lemma ToInt32_byte (a : Z) : (0 <= a <= 255)%Z -> ToInt32 (ofZ a) = a.
Proof.
  intros H.
  assert (Hall : forallb (fun n => (ToInt32 (ofZ (Z.of_nat n)) =? Z.of_nat n)%Z)
                   (seq 0 256) = true) by (vm_compute; reflexivity).
  rewrite forallb_forall in Hall.
  specialize (Hall (Z.to_nat a)). rewrite Z2Nat.id in Hall by lia.
  apply Z.eqb_eq. apply Hall. apply in_seq. lia.
Qed.

Ltac bits :=
  apply Z.bits_inj'; intros n Hn;
  assert (Hcase : (n < 8 \/ 8 <= n < 16 \/ 16 <= n < 24 \/ 24 <= n)%Z) by lia;
  destruct Hcase as [Hc|[Hc|[Hc|Hc]]];
  repeat first
    [ rewrite Z.lor_spec | rewrite Z.land_spec
    | rewrite Z.testbit_neg_r by lia
    | rewrite Z.shiftr_spec by lia
    | rewrite Z.shiftl_spec by lia
    | rewrite Z.testbit_ones by lia ];
  repeat match goal with
         | |- context [(?a <=? ?b)%Z] => destruct (Z.leb_spec a b); try lia
         | |- context [(?a <? ?b)%Z] => destruct (Z.ltb_spec a b); try lia
         end;
  cbn [andb orb];
  rewrite ?andb_true_r, ?andb_false_r, ?orb_false_r;
  cbn [andb orb];
  repeat match goal with
         | |- context [Z.testbit _ ?i] =>
             lazymatch i with
             | n => fail
             | _ => replace i with n by lia
             end
         end;
  rewrite ?orb_false_r; try reflexivity.

Lemma recompose (h : Z) :
  Z.lor (Z.lor (Z.shiftl (Z.land (Z.shiftr h 16) 255) 16)
               (Z.shiftl (Z.land (Z.shiftr h 8) 255) 8))
        (Z.land h 255)
  = Z.land h 16777215.
Proof.
  change 255%Z with (Z.ones 8). change 16777215%Z with (Z.ones 24).
  bits.
Qed.

Lemma decompose (r g b : Z) :
  let h := Z.lor (Z.lor (Z.shiftl (Z.land r 255) 16) (Z.shiftl (Z.land g 255) 8))
                 (Z.land b 255) in
  Z.land (Z.shiftr h 16) 255 = Z.land r 255 /\
  Z.land (Z.shiftr h 8) 255 = Z.land g 255 /\
  Z.land h 255 = Z.land b 255.
Proof.
  cbv zeta. change 255%Z with (Z.ones 8).
  split; [|split]; bits.
Qed.

Lemma shifted_byte (a : Z) (k : Z) :
  (0 <= a <= 255)%Z -> (k = 8 \/ k = 16)%Z -> wrap32 (Z.shiftl a k) = Z.shiftl a k.
Proof.
  intros Ha Hk. apply wrap32_small. rewrite Z.shiftl_mul_pow2 by lia.
  change (2 ^ 31)%Z with 2147483648%Z.
  destruct Hk as [-> | ->]; [change (2 ^ 8)%Z with 256%Z
                            |change (2 ^ 16)%Z with 65536%Z]; lia.
Qed.

Lemma rgbToHex_bytes (r g b : Z) :
  (0 <= r <= 255)%Z -> (0 <= g <= 255)%Z -> (0 <= b <= 255)%Z ->
  rgbToHex (ofZ r) (ofZ g) (ofZ b)
  = Z.lor (Z.lor (Z.shiftl r 16) (Z.shiftl g 8)) b.
Proof.
  intros Hr Hg Hb. unfold rgbToHex.
  rewrite !ToInt32_byte by assumption.
  now rewrite !shifted_byte by (first [assumption | lia]).
Qed.

(** X29.  [hexToRgb] gives three bytes, and [rgbToHex] puts them back
    together: the round trip keeps the low 24 bits of the colour, so a
    colour from 0 to 0xFFFFFF comes back unchanged; and three bytes put
    together by [rgbToHex] are read back by [hexToRgb]. *)
Theorem rgb_round_trip :
  (forall hex : number,
     let '(r, g, b) := hexToRgb hex in
     (0 <= r <= 255 /\ 0 <= g <= 255 /\ 0 <= b <= 255)%Z /\
     rgbToHex (ofZ r) (ofZ g) (ofZ b) = Z.land (ToInt32 hex) 16777215 /\
     ((0 <= ToInt32 hex <= 16777215)%Z ->
      rgbToHex (ofZ r) (ofZ g) (ofZ b) = ToInt32 hex)) /\
  (forall (r g b : Z) (hex : number),
     (0 <= r <= 255)%Z -> (0 <= g <= 255)%Z -> (0 <= b <= 255)%Z ->
     ToInt32 hex = rgbToHex (ofZ r) (ofZ g) (ofZ b) ->
     hexToRgb hex = (r, g, b)).
Proof.
  split.
  - intros hex. unfold hexToRgb.
    assert (E : rgbToHex (ofZ (Z.land (Z.shiftr (ToInt32 hex) 16) 255))
                  (ofZ (Z.land (Z.shiftr (ToInt32 hex) 8) 255))
                  (ofZ (Z.land (ToInt32 hex) 255))
                = Z.land (ToInt32 hex) 16777215).
    { rewrite rgbToHex_bytes by apply byte_range. apply recompose. }
    split; [repeat split; apply byte_range|]. split; [exact E|].
    intros H. rewrite E.
    change 16777215%Z with (Z.ones 24). rewrite Z.land_ones by lia.
    change (2 ^ 24)%Z with 16777216%Z. apply Z.mod_small. lia.
  - intros r g b hex Hr Hg Hb E. unfold hexToRgb. rewrite E.
    rewrite rgbToHex_bytes by assumption.
    pose proof (decompose r g b) as D. cbv zeta in D.
    rewrite (byte_land Hr), (byte_land Hg), (byte_land Hb) in D.
    destruct D as [D1 [D2 D3]]. now rewrite D1, D2, D3.
Qed.

Lemma rgb_round_trip_witness :
  hexToRgb (ofZ 1094233) = (16, 178, 89)%Z.
Proof.
  apply (proj2 rgb_round_trip 16 178 89 (ofZ 1094233))%Z; try lia.
  vm_compute. reflexivity.
Defined.

(** The channels of [darken] and [brighten] at the two ends of the
    scale, for every byte. *)
Lemma channel_ends (a : Z) :
  (0 <= a <= 255)%Z ->
  ToInt32 (Math_max (ofZ 0) (sub (ofZ a) (mul (ofZ 255) (ofZ 0)))) = a /\
  ToInt32 (Math_max (ofZ 0) (sub (ofZ a) (mul (ofZ 255) (ofZ 1)))) = 0%Z /\
  ToInt32 (Math_min (ofZ 255) (add (ofZ a) (mul (ofZ 255) (ofZ 0)))) = a /\
  ToInt32 (Math_min (ofZ 255) (add (ofZ a) (mul (ofZ 255) (ofZ 1)))) = 255%Z.
Proof.
  intros H.
  assert (Hall :
    forallb
      (fun n =>
         let a := Z.of_nat n in
         (ToInt32 (Math_max (ofZ 0) (sub (ofZ a) (mul (ofZ 255) (ofZ 0)))) =? a)%Z
         && (ToInt32 (Math_max (ofZ 0) (sub (ofZ a) (mul (ofZ 255) (ofZ 1)))) =? 0)%Z
         && (ToInt32 (Math_min (ofZ 255) (add (ofZ a) (mul (ofZ 255) (ofZ 0)))) =? a)%Z
         && (ToInt32 (Math_min (ofZ 255) (add (ofZ a) (mul (ofZ 255) (ofZ 1)))) =? 255)%Z)
      (seq 0 256) = true) by (vm_compute; reflexivity).
  rewrite forallb_forall in Hall.
  specialize (Hall (Z.to_nat a)). cbv zeta in Hall. rewrite Z2Nat.id in Hall by lia.
  assert (Hin : In (Z.to_nat a) (seq 0 256)) by (apply in_seq; lia).
  apply Hall in Hin. rewrite !andb_true_iff, !Z.eqb_eq in Hin. tauto.
Qed.

Lemma NaN_channel (x : number) :
  ToInt32 (Math_max (ofZ 0) (sub x (mul (ofZ 255) NaN))) = 0%Z /\
  ToInt32 (Math_min (ofZ 255) (add x (mul (ofZ 255) NaN))) = 0%Z.
Proof.
  change (mul (ofZ 255) NaN) with NaN.
  assert (Hs : sub x NaN = NaN) by (destruct x; reflexivity).
  assert (Ha : add x NaN = NaN) by (destruct x; reflexivity).
  rewrite Hs, Ha. split; reflexivity.
Qed.

(** X30.  At the ends of their scale [darken] and [brighten] behave as
    their names say: with amount 0 both return the colour (its low 24
    bits), with amount 1 [darken] returns black and [brighten] white.
    With a NaN amount both return black. *)
Theorem darken_brighten_ends (hex : number) :
  darken hex (ofZ 0) = Z.land (ToInt32 hex) 16777215 /\
  brighten hex (ofZ 0) = Z.land (ToInt32 hex) 16777215 /\
  darken hex (ofZ 1) = 0%Z /\
  brighten hex (ofZ 1) = 16777215%Z /\
  darken hex NaN = 0%Z /\
  brighten hex NaN = 0%Z.
Proof.
  unfold darken, brighten, hexToRgb, rgbToHex.
  set (r := Z.land (Z.shiftr (ToInt32 hex) 16) 255).
  set (g := Z.land (Z.shiftr (ToInt32 hex) 8) 255).
  set (b := Z.land (ToInt32 hex) 255).
  destruct (channel_ends (byte_range (Z.shiftr (ToInt32 hex) 16)))
    as [R1 [R2 [R3 R4]]].
  destruct (channel_ends (byte_range (Z.shiftr (ToInt32 hex) 8)))
    as [G1 [G2 [G3 G4]]].
  destruct (channel_ends (byte_range (ToInt32 hex))) as [B1 [B2 [B3 B4]]].
  fold r in R1, R2, R3, R4. fold g in G1, G2, G3, G4. fold b in B1, B2, B3, B4.
  rewrite R1, R2, R3, R4, G1, G2, G3, G4, B1, B2, B3, B4.
  rewrite !(proj1 (NaN_channel _)), !(proj2 (NaN_channel _)).
  assert (Hr : (0 <= r <= 255)%Z) by apply byte_range.
  assert (Hg : (0 <= g <= 255)%Z) by apply byte_range.
  rewrite (@shifted_byte r 16), (@shifted_byte g 8) by (first [assumption | lia]).
  rewrite (@shifted_byte 255 16), (@shifted_byte 255 8) by lia.
  repeat split; try reflexivity; apply recompose.
Qed.
